(** * Enhanced Terraform module dependency analyzer: a shallow embedding

    The development follows [terraform-dependency-analyzer-enhanced.py]:
    the regular expressions of the reference extractor, the module
    descriptors, the registry (an insertion-ordered Python dict), the
    directed graph and the three graph analyses, the complexity scorer and
    the final report. *)

From Stdlib Require Import ZArith Lia Ascii String List DecimalString.
From stdpp Require Import base option list strings gmap.

Local Open Scope string_scope.
Local Open Scope list_scope.

(** ** Python values and strings *)

(** The values [hcl2.loads] produces: strings, integers, booleans, null,
    lists and insertion-ordered dicts with string keys. (Floats are left
    out; no function below inspects a number.) *)
#[warnings="-register-all"]
Inductive value : Type :=
| VStr (s : string)
| VInt (z : Z)
| VBool (b : bool)
| VNone
| VList (l : list value)
| VDict (kvs : list (string * value)).

Module Py.

Definition chars (s : string) : list ascii := list_ascii_of_string s.
Definition str_of (l : list ascii) : string := string_of_list_ascii l.

(** [sep.join(l)] *)
Fixpoint join (sep : string) (l : list string) : string :=
  match l with
  | [] => EmptyString
  | [x] => x
  | x :: l' => x +:+ sep +:+ join sep l'
  end.

(** [s.split(sep)] for a one-character separator: never empty. *)
Fixpoint split_chars (sep : ascii) (s cur_rev : list ascii) : list string :=
  match s with
  | [] => [str_of (rev cur_rev)]
  | c :: s' =>
      if Ascii.eqb c sep then str_of (rev cur_rev) :: split_chars sep s' []
      else split_chars sep s' (c :: cur_rev)
  end.

Definition split (sep : ascii) (s : string) : list string :=
  split_chars sep (chars s) [].

(** [s.startswith(p)] *)
Definition startswith (p s : string) : bool := String.prefix p s.

(** [l[-1]], for the non-empty lists [split] returns. *)
Definition last_part (l : list string) : string := List.last l EmptyString.

Definition hex_digit (n : nat) : ascii :=
  ascii_of_nat (if (n <? 10)%nat then 48 + n else 87 + n)%nat.

(** [repr] of one character of a str, for the quote [q] that was chosen:
    the quote and the backslash are escaped, tab, newline and carriage
    return have their letters, the other control characters are written
    [\xNN]; the bytes of a non-ASCII character are kept, as Python does
    for the printable ones (it escapes the others, [\xNN] or [\uNNNN]:
    the model is for texts whose non-ASCII characters are printable). *)
Definition repr_char (q c : ascii) : list ascii :=
  let n := nat_of_ascii c in
  if Ascii.eqb c q || Ascii.eqb c "\" then ["\"; c]%char
  else if (n =? 9)%nat then ["\"; "t"]%char
  else if (n =? 10)%nat then ["\"; "n"]%char
  else if (n =? 13)%nat then ["\"; "r"]%char
  else if ((n <? 32) || (n =? 127))%nat then
    ["\"; "x"; hex_digit (n / 16); hex_digit (n mod 16)]%char
  else [c].

Definition double_quote : ascii := ascii_of_nat 34.

Definition has_char (c : ascii) (s : list ascii) : bool :=
  existsb (Ascii.eqb c) s.

(** [repr(s)] for a str: single quotes, unless the string holds a single
    quote and no double quote. *)
Definition repr_str (s : string) : string :=
  let cs := chars s in
  let q := if has_char "'" cs && negb (has_char double_quote cs)
           then double_quote else "'"%char in
  str_of (q :: flat_map (repr_char q) cs ++ [q]).

Definition repr_int (z : Z) : string := NilZero.string_of_int (Z.to_int z).

Fixpoint repr (v : value) : string :=
  match v with
  | VStr s => repr_str s
  | VInt z => repr_int z
  | VBool true => "True"
  | VBool false => "False"
  | VNone => "None"
  | VList l => "[" +:+ join ", " (List.map repr l) +:+ "]"
  | VDict kvs =>
      "{" +:+ join ", "
            (List.map (fun kv => let '(k, x) := kv in
                                 repr_str k +:+ ": " +:+ repr x) kvs)
          +:+ "}"
  end.

(** [str(v)]: a str is itself, everything else is its [repr]. *)
Definition str (v : value) : string :=
  match v with
  | VStr s => s
  | _ => repr v
  end.

(** Number of code points of a UTF-8 string: the bytes that are not
    continuation bytes. *)
Definition utf8_len (s : string) : nat :=
  List.length (List.filter (fun c => let n := nat_of_ascii c in
                                     ((n <? 128) || (191 <? n))%nat) (chars s)).

(** [len(v)]; [None] is the TypeError of an object without a length. *)
Definition len (v : value) : option nat :=
  match v with
  | VStr s => Some (utf8_len s)
  | VList l => Some (List.length l)
  | VDict kvs => Some (List.length kvs)
  | VInt _ | VBool _ | VNone => None
  end.

End Py.

(** ** The regular expressions of the extractor

    The three patterns use literals and the capturing group
    [([a-zA-Z0-9_-]+)] only. *)
Module Re.

Definition in_range (lo hi : nat) (c : ascii) : bool :=
  let n := nat_of_ascii c in ((lo <=? n) && (n <=? hi))%nat.

(** The class [[a-zA-Z0-9_-]]. *)
Definition word_char (c : ascii) : bool :=
  in_range 97 122 c || in_range 65 90 c || in_range 48 57 c
  || Ascii.eqb c "_" || Ascii.eqb c "-".

Inductive item : Type :=
| Lit (s : string)   (* literal text *)
| Group.             (* ([a-zA-Z0-9_-]+) *)

Fixpoint strip_prefix (p s : list ascii) : option (list ascii) :=
  match p, s with
  | [], _ => Some s
  | a :: p', b :: s' => if Ascii.eqb a b then strip_prefix p' s' else None
  | _ :: _, [] => None
  end.

(** The longest run of class characters at the head of [s]. *)
Fixpoint span_word (s : list ascii) : list ascii * list ascii :=
  match s with
  | c :: s' =>
      if word_char c then let '(run, rest) := span_word s' in (c :: run, rest)
      else ([], s)
  | [] => ([], [])
  end.

(** A greedy [+]: the continuation [k] is tried after the longest run
    first, then the run gives back one character at a time; it keeps at
    least one character. *)
Fixpoint backtrack {A} (k : list ascii -> option A)
    (taken_rev rest : list ascii) : option (list ascii * A) :=
  match taken_rev with
  | [] => None
  | c :: t =>
      match k rest with
      | Some r => Some (rev taken_rev, r)
      | None => backtrack k t (c :: rest)
      end
  end.

(** A match anchored at the head of [s]: the captures and the text left. *)
Fixpoint match_here (items : list item) (s : list ascii)
    : option (list string * list ascii) :=
  match items with
  | [] => Some ([], s)
  | Lit l :: items' =>
      match strip_prefix (Py.chars l) s with
      | Some s' => match_here items' s'
      | None => None
      end
  | Group :: items' =>
      let '(run, rest) := span_word s in
      match backtrack (match_here items') (rev run) rest with
      | Some (cap, (caps, s')) => Some (Py.str_of cap :: caps, s')
      | None => None
      end
  end.

(** [re.findall]: left to right, a match is tried at every position that
    no earlier match covers. [skip] counts the characters still covered. *)
Fixpoint scan (items : list item) (s : list ascii) (skip : nat)
    : list (list string) :=
  match s with
  | [] => []
  | _ :: s' =>
      match skip with
      | S k => scan items s' k
      | O =>
          match match_here items s with
          | Some (caps, rest) =>
              caps :: scan items s' (List.length s - List.length rest - 1)
          | None => scan items s' 0
          end
      end
  end.

Definition findall (items : list item) (s : string) : list (list string) :=
  scan items (Py.chars s) 0.

(** [module\.([a-zA-Z0-9_-]+)\.([a-zA-Z0-9_-]+)] *)
Definition module_pattern : list item :=
  [Lit "module."; Group; Lit "."; Group].

(** [data\.([a-zA-Z0-9_-]+)\.([a-zA-Z0-9_-]+)\.([a-zA-Z0-9_-]+)] *)
Definition data_pattern : list item :=
  [Lit "data."; Group; Lit "."; Group; Lit "."; Group].

(** [data\.terraform_remote_state\.([a-zA-Z0-9_-]+)\.outputs\.([a-zA-Z0-9_-]+)] *)
Definition remote_state_pattern : list item :=
  [Lit "data.terraform_remote_state."; Group; Lit ".outputs."; Group].

Definition pairs (l : list (list string)) : list (string * string) :=
  flat_map (fun caps => match caps with [a; b] => [(a, b)] | _ => [] end) l.

Definition triples (l : list (list string)) : list (string * string * string) :=
  flat_map (fun caps => match caps with [a; b; c] => [(a, b, c)] | _ => [] end) l.

End Re.

(** ** Dicts and paths *)

(** A Python dict with string keys: insertion-ordered, one entry per key.
    Assigning to a key that is present keeps its position. *)
Module Dict.

Definition t (V : Type) : Type := list (string * V).

Fixpoint get {V} (k : string) (d : t V) : option V :=
  match d with
  | [] => None
  | (k', v) :: d' => if String.eqb k k' then Some v else get k d'
  end.

(** [d[k] = v] *)
Fixpoint set {V} (k : string) (v : V) (d : t V) : t V :=
  match d with
  | [] => [(k, v)]
  | (k', v') :: d' =>
      if String.eqb k k' then (k, v) :: d' else (k', v') :: set k v d'
  end.

(** [k in d] *)
Definition mem {V} (k : string) (d : t V) : bool :=
  match get k d with Some _ => true | None => false end.

Definition keys {V} (d : t V) : list string := List.map fst d.

(** In-place mutation of the object stored under [k] (which is present
    at every call site). *)
Fixpoint update {V} (k : string) (f : V -> V) (d : t V) : t V :=
  match d with
  | [] => []
  | (k', v) :: d' =>
      if String.eqb k k' then (k', f v) :: d' else (k', v) :: update k f d'
  end.

End Dict.

(** [pathlib.Path] on a POSIX system. *)
Module Path.

Record t : Type := { absolute : bool; parts : list string }.

Definition parent (p : t) : t :=
  {| absolute := absolute p; parts := removelast (parts p) |}.

Definition name (p : t) : string := List.last (parts p) EmptyString.

Definition str (p : t) : string :=
  if absolute p then "/" +:+ Py.join "/" (parts p)
  else match parts p with
       | [] => "."
       | _ => Py.join "/" (parts p)
       end.

End Path.

(** ** The data model *)

Record DependencyInfo : Type := {
  source_module : string;
  target_module : string;
  dependency_type : string;
  reference_path : string;
  line_number : option Z;
  file_path : option string }.

Record ModuleInfo : Type := {
  name : string;
  source : value;
  path : string;
  variables : value;
  outputs : list string;
  dependencies : list string;
  terragrunt_dependencies : list string;
  data_sources : list string;
  resources : list string;
  dependency_details : list DependencyInfo;
  complexity_score : Z }.

(** The dataclass constructor with its defaults. *)
Definition new_module (n : string) (src : value) (p : string) : ModuleInfo :=
  {| name := n; source := src; path := p; variables := VDict [];
     outputs := []; dependencies := []; terragrunt_dependencies := [];
     data_sources := []; resources := []; dependency_details := [];
     complexity_score := 0 |}.

Definition set_source (v : value) (m : ModuleInfo) : ModuleInfo :=
  {| name := name m; source := v; path := path m; variables := variables m;
     outputs := outputs m; dependencies := dependencies m;
     terragrunt_dependencies := terragrunt_dependencies m;
     data_sources := data_sources m; resources := resources m;
     dependency_details := dependency_details m;
     complexity_score := complexity_score m |}.

Definition set_variables (v : value) (m : ModuleInfo) : ModuleInfo :=
  {| name := name m; source := source m; path := path m; variables := v;
     outputs := outputs m; dependencies := dependencies m;
     terragrunt_dependencies := terragrunt_dependencies m;
     data_sources := data_sources m; resources := resources m;
     dependency_details := dependency_details m;
     complexity_score := complexity_score m |}.

(** [m.outputs.append(o)] *)
Definition append_output (o : string) (m : ModuleInfo) : ModuleInfo :=
  {| name := name m; source := source m; path := path m;
     variables := variables m; outputs := outputs m ++ [o];
     dependencies := dependencies m;
     terragrunt_dependencies := terragrunt_dependencies m;
     data_sources := data_sources m; resources := resources m;
     dependency_details := dependency_details m;
     complexity_score := complexity_score m |}.

(** [m.dependencies.append(d)] *)
Definition append_dependency (d : string) (m : ModuleInfo) : ModuleInfo :=
  {| name := name m; source := source m; path := path m;
     variables := variables m; outputs := outputs m;
     dependencies := dependencies m ++ [d];
     terragrunt_dependencies := terragrunt_dependencies m;
     data_sources := data_sources m; resources := resources m;
     dependency_details := dependency_details m;
     complexity_score := complexity_score m |}.

(** [m.terragrunt_dependencies.append(d)] *)
Definition append_terragrunt_dependency (d : string) (m : ModuleInfo)
    : ModuleInfo :=
  {| name := name m; source := source m; path := path m;
     variables := variables m; outputs := outputs m;
     dependencies := dependencies m;
     terragrunt_dependencies := terragrunt_dependencies m ++ [d];
     data_sources := data_sources m; resources := resources m;
     dependency_details := dependency_details m;
     complexity_score := complexity_score m |}.

(** [m.data_sources.append(d)] *)
Definition append_data_source (d : string) (m : ModuleInfo) : ModuleInfo :=
  {| name := name m; source := source m; path := path m;
     variables := variables m; outputs := outputs m;
     dependencies := dependencies m;
     terragrunt_dependencies := terragrunt_dependencies m;
     data_sources := data_sources m ++ [d]; resources := resources m;
     dependency_details := dependency_details m;
     complexity_score := complexity_score m |}.

(** [m.dependency_details.append(d)] *)
Definition append_detail (d : DependencyInfo) (m : ModuleInfo) : ModuleInfo :=
  {| name := name m; source := source m; path := path m;
     variables := variables m; outputs := outputs m;
     dependencies := dependencies m;
     terragrunt_dependencies := terragrunt_dependencies m;
     data_sources := data_sources m; resources := resources m;
     dependency_details := dependency_details m ++ [d];
     complexity_score := complexity_score m |}.

Definition set_complexity_score (z : Z) (m : ModuleInfo) : ModuleInfo :=
  {| name := name m; source := source m; path := path m;
     variables := variables m; outputs := outputs m;
     dependencies := dependencies m;
     terragrunt_dependencies := terragrunt_dependencies m;
     data_sources := data_sources m; resources := resources m;
     dependency_details := dependency_details m;
     complexity_score := z |}.

(** What [hcl2.loads] returns, at the keys the analyzer reads. A block
    type maps to the list of its blocks; a labelled block is a dict from
    its label to its body. *)
Record Doc : Type := {
  doc_terraform : option (list (Dict.t value));
  doc_dependency : option (list (Dict.t (Dict.t value)));
  doc_inputs : option value;
  doc_module : option (list (Dict.t (Dict.t value)));
  doc_data : option (list (Dict.t value));
  doc_output : option (list (Dict.t (Dict.t value)));
  doc_resource : option (list (Dict.t value)) }.

Definition empty_doc : Doc :=
  {| doc_terraform := None; doc_dependency := None; doc_inputs := None;
     doc_module := None; doc_data := None; doc_output := None;
     doc_resource := None |}.

(** A configuration file: its path, and what reading and parsing it gives
    ([None] when [open] or [hcl2.loads] raises). *)
Record File : Type := { fpath : Path.t; loaded : option Doc }.

(** The registry [dependency_graph.modules]. *)
Abbreviation Registry := (Dict.t ModuleInfo).

(** ** The reference extractor *)

(** A loop body that may raise, run over a list: the first exception ends
    the loop. *)
Fixpoint for_each {S A} (body : S -> A -> option S) (l : list A) (s : S)
    : option S :=
  match l with
  | [] => Some s
  | x :: l' =>
      match body s x with
      | Some s' => for_each body l' s'
      | None => None
      end
  end.

(** The records the extractor builds. *)
Definition module_record (ty fp src : string) (r : string * string)
    : DependencyInfo :=
  let '(ref_module, ref_output) := r in
  {| source_module := src;
     target_module := ref_module;
     dependency_type := ty;
     reference_path := "module." +:+ ref_module +:+ "." +:+ ref_output;
     line_number := None;
     file_path := Some fp |}.

Definition data_target (r : string * string * string) : string :=
  let '(data_type, data_name, _) := r in data_type +:+ "." +:+ data_name.

Definition data_record (fp src : string) (r : string * string * string)
    : DependencyInfo :=
  let '(data_type, data_name, data_output) := r in
  {| source_module := src;
     target_module := data_type +:+ "." +:+ data_name;
     dependency_type := "data_source";
     reference_path :=
       "data." +:+ data_type +:+ "." +:+ data_name +:+ "." +:+ data_output;
     line_number := None;
     file_path := Some fp |}.

Definition remote_state_record (fp src : string) (r : string * string)
    : DependencyInfo :=
  let '(remote_state_name, remote_output) := r in
  {| source_module := src;
     target_module := "remote_state." +:+ remote_state_name;
     dependency_type := "remote_state";
     reference_path :=
       "data.terraform_remote_state." +:+ remote_state_name
       +:+ ".outputs." +:+ remote_output;
     line_number := None;
     file_path := Some fp |}.

Definition terragrunt_record (fp src module_name config_path : string)
    : DependencyInfo :=
  {| source_module := src;
     target_module := module_name;
     dependency_type := "terragrunt";
     reference_path := config_path;
     line_number := None;
     file_path := Some fp |}.

(** The body of the two [module.<name>.<attribute>] loops; [ty] is
    ['module_output'] or ['module_reference']. *)
Definition module_ref_step (ty fp : string) (m : ModuleInfo)
    (r : string * string) : ModuleInfo :=
  if negb (String.eqb (fst r) (name m)) then
    append_detail (module_record ty fp (name m) r) (append_dependency (fst r) m)
  else m.

Definition data_ref_step (fp : string) (m : ModuleInfo)
    (r : string * string * string) : ModuleInfo :=
  append_detail (data_record fp (name m) r)
                (append_data_source (data_target r) m).

Definition remote_state_step (fp : string) (m : ModuleInfo)
    (r : string * string) : ModuleInfo :=
  append_detail (remote_state_record fp (name m) r) m.

Definition module_refs (s : string) : list (string * string) :=
  Re.pairs (Re.findall Re.module_pattern s).

Definition data_refs (s : string) : list (string * string * string) :=
  Re.triples (Re.findall Re.data_pattern s).

Definition remote_state_refs (s : string) : list (string * string) :=
  Re.pairs (Re.findall Re.remote_state_pattern s).

Definition _analyze_variable_dependencies (module_info : ModuleInfo)
    (vars : value) (fp : string) : ModuleInfo :=
  let variables_str := Py.str vars in
  let m1 := fold_left (module_ref_step "module_output" fp)
                      (module_refs variables_str) module_info in
  let m2 := fold_left (data_ref_step fp) (data_refs variables_str) m1 in
  fold_left (remote_state_step fp) (remote_state_refs variables_str) m2.

Definition _extract_module_dependencies (module_info : ModuleInfo)
    (module_config : Dict.t value) (fp : string) : ModuleInfo :=
  let config_str := Py.str (VDict module_config) in
  fold_left (module_ref_step "module_reference" fp)
            (module_refs config_str) module_info.

(** The three loops of [parse_terraform_files] that work on the registry:
    they touch modules that are registered already, and nothing else. *)
Definition registered_detail_step (src ty fp : string) (reg : Registry)
    (r : string * string) : Registry :=
  if Dict.mem (fst r) reg then
    Dict.update (fst r) (append_detail (module_record ty fp src r)) reg
  else reg.

Definition _analyze_data_source_dependencies (data_name : string)
    (data_config : value) (fp : string) (reg : Registry) : Registry :=
  fold_left
    (registered_detail_step ("data." +:+ data_name) "data_source_module" fp)
    (module_refs (Py.str data_config)) reg.

Definition _analyze_resource_dependencies (resource_type : string)
    (resource_config : value) (fp : string) (reg : Registry) : Registry :=
  fold_left
    (registered_detail_step ("resource." +:+ resource_type) "resource_module" fp)
    (module_refs (Py.str resource_config)) reg.

Definition output_step (reg : Registry) (r : string * string) : Registry :=
  let '(ref_module, ref_output) := r in
  match Dict.get ref_module reg with
  | Some m =>
      if negb (existsb (String.eqb ref_output) (outputs m))
      then Dict.update ref_module (append_output ref_output) reg
      else reg
  | None => reg
  end.

Definition _analyze_output_dependencies (output_value : value) (fp : string)
    (reg : Registry) : Registry :=
  fold_left output_step (module_refs (Py.str output_value)) reg.

(** ** The complexity scorer *)

(** [None] is the TypeError of [len(module_info.variables)] on a payload
    without a length. *)
Definition _calculate_complexity_score (m : ModuleInfo) : option Z :=
  match Py.len (variables m) with
  | Some nvars =>
      Some (0 + 1
            + Z.of_nat (List.length (dependencies m)) * 2
            + Z.of_nat (List.length (terragrunt_dependencies m)) * 2
            + Z.of_nat nvars
            + Z.of_nat (List.length (outputs m))
            + Z.of_nat (List.length (data_sources m)) * 3
            + Z.of_nat (List.length (resources m)) * 2)%Z
  | None => None
  end.

(** ** Parsing the two kinds of file *)

(** One [dependency] block entry. A [config_path] that is not a str has no
    [startswith]: the AttributeError ends the parse of the file. *)
Definition dependency_step (fp : string) (m : ModuleInfo)
    (entry : string * Dict.t value) : option ModuleInfo :=
  let '(dep_name, dep_config) := entry in
  match Dict.get "config_path" dep_config with
  | None => Some m
  | Some (VStr config_path) =>
      if Py.startswith "../../" config_path then
        let parts := Py.split "/" config_path in
        if (2 <=? List.length parts)%nat then
          let module_name := Py.last_part parts in
          Some (append_detail
                  (terragrunt_record fp (name m) module_name config_path)
                  (append_terragrunt_dependency module_name m))
        else Some m
      else Some m
  | Some _ => None
  end.

Definition parse_terragrunt_file (f : File) : option ModuleInfo :=
  parsed ← loaded f;
  let fp := Path.str (fpath f) in
  let m0 := new_module (Path.name (Path.parent (fpath f))) (VStr EmptyString)
                       (Path.str (Path.parent (fpath f))) in
  m1 ← match doc_terraform parsed with
       | Some blocks =>
           terraform_block ← List.hd_error blocks;
           match Dict.get "source" terraform_block with
           | Some src => Some (set_source src m0)
           | None => Some m0
           end
       | None => Some m0
       end;
  m2 ← match doc_dependency parsed with
       | Some deps => for_each (dependency_step fp) (List.concat deps) m1
       | None => Some m1
       end;
  let m3 := match doc_inputs parsed with
            | Some inputs =>
                _analyze_variable_dependencies (set_variables inputs m2) inputs fp
            | None => m2
            end in
  score ← _calculate_complexity_score m3;
  Some (set_complexity_score score m3).

(** The loop of [analyze] over the Terragrunt files. *)
Definition register_terragrunt (reg : Registry) (f : File) : Registry :=
  match parse_terragrunt_file f with
  | Some module_info => Dict.set (name module_info) module_info reg
  | None => reg
  end.

Definition module_block_step (p : Path.t) (reg : Registry)
    (entry : string * Dict.t value) : Registry :=
  let '(module_name, module_config) := entry in
  let fp := Path.str p in
  let m0 := new_module module_name
              (default (VStr EmptyString) (Dict.get "source" module_config))
              (Path.str (Path.parent p)) in
  let m1 := match Dict.get "variables" module_config with
            | Some vars =>
                _analyze_variable_dependencies (set_variables vars m0) vars fp
            | None => m0
            end in
  let m2 := _extract_module_dependencies m1 module_config fp in
  Dict.set module_name m2 reg.

Definition data_block_step (fp : string) (reg : Registry)
    (entry : string * value) : Registry :=
  let '(data_name, data_config) := entry in
  _analyze_data_source_dependencies data_name data_config fp reg.

Definition output_block_step (fp : string) (reg : Registry)
    (entry : string * Dict.t value) : Registry :=
  let '(output_name, output_config) := entry in
  match Dict.get "value" output_config with
  | Some v => _analyze_output_dependencies v fp reg
  | None => reg
  end.

Definition resource_block_step (fp : string) (reg : Registry)
    (entry : string * value) : Registry :=
  let '(resource_type, resource_config) := entry in
  _analyze_resource_dependencies resource_type resource_config fp reg.

(** The body of the loop of [parse_terraform_files] for one file. *)
Definition parse_terraform_file (reg : Registry) (f : File) : Registry :=
  match loaded f with
  | None => reg
  | Some parsed =>
      let fp := Path.str (fpath f) in
      let r1 := match doc_module parsed with
                | Some blocks =>
                    fold_left (module_block_step (fpath f)) (List.concat blocks) reg
                | None => reg
                end in
      let r2 := match doc_data parsed with
                | Some blocks =>
                    fold_left (data_block_step fp) (List.concat blocks) r1
                | None => r1
                end in
      let r3 := match doc_output parsed with
                | Some blocks =>
                    fold_left (output_block_step fp) (List.concat blocks) r2
                | None => r2
                end in
      match doc_resource parsed with
      | Some blocks =>
          fold_left (resource_block_step fp) (List.concat blocks) r3
      | None => r3
      end
  end.

Definition parse_terraform_files (terraform_files : list File)
    (reg : Registry) : Registry :=
  fold_left parse_terraform_file terraform_files reg.

(** The registry once both loops of [analyze] have run. *)
Definition build_registry (terragrunt_files terraform_files : list File)
    : Registry :=
  parse_terraform_files terraform_files
    (fold_left register_terragrunt terragrunt_files []).

(** ** The directed graph and its searches *)

Module Nx.

(** Modelled from the spec: the graph package (networkx: [DiGraph],
    [add_node], [add_edge]) is not part of the sources. A directed graph
    of module names, "graph, not multigraph": a node and an edge are
    stored once, in the order they were first added; adding an edge adds
    its endpoints. *)
Record DiGraph : Type := { nodes : list string; edges : list (string * string) }.

Definition empty : DiGraph := {| nodes := []; edges := [] |}.

Definition mem (v : string) (l : list string) : bool :=
  existsb (String.eqb v) l.

Definition has_node (G : DiGraph) (v : string) : bool := mem v (nodes G).

Definition has_edge (G : DiGraph) (u v : string) : bool :=
  existsb (fun e => String.eqb u (fst e) && String.eqb v (snd e)) (edges G).

Definition add_node (v : string) (G : DiGraph) : DiGraph :=
  if has_node G v then G
  else {| nodes := nodes G ++ [v]; edges := edges G |}.

Definition add_edge (u v : string) (G : DiGraph) : DiGraph :=
  let G' := add_node v (add_node u G) in
  if has_edge G' u v then G'
  else {| nodes := nodes G'; edges := edges G' ++ [(u, v)] |}.

(** [G[v]]: the successors of [v], in the order their edges were added. *)
Definition successors (G : DiGraph) (v : string) : list string :=
  List.map snd (List.filter (fun e => String.eqb (fst e) v) (edges G)).

Definition add_seen (acc : list string) (w : string) : list string :=
  if mem w acc then acc else acc ++ [w].

(** One level of a breadth-first search: the successors of the nodes
    seen so far are appended, each once. *)
Definition expand (G : DiGraph) (seen : list string) : list string :=
  fold_left add_seen (flat_map (successors G) seen) seen.

Fixpoint bfs (levels : nat) (G : DiGraph) (seen : list string) : list string :=
  match levels with
  | O => seen
  | S k => bfs k G (expand G seen)
  end.

(** Modelled from the spec: [has_path] of the graph package is not part
    of the sources; "standard graph reachability - BFS/DFS from M". There
    are at most as many levels as nodes. [None] is the package's
    NodeNotFound for an endpoint that is not a node. *)
Definition has_path (G : DiGraph) (source target : string) : option bool :=
  if has_node G source && has_node G target
  then Some (mem target (bfs (List.length (nodes G)) G [source]))
  else None.

(** The paths that extend the path [rev visited_rev], which ends in [v],
    to [target] without repeating a node: depth first, the successors in
    adjacency order; a path stops at [target]. *)
Fixpoint paths_from (depth : nat) (G : DiGraph) (target : string)
    (visited_rev : list string) (v : string) : list (list string) :=
  match depth with
  | O => []
  | S d =>
      flat_map
        (fun child =>
           if mem child visited_rev then []
           else if String.eqb child target then [rev (child :: visited_rev)]
           else paths_from d G target (child :: visited_rev) child)
        (successors G v)
  end.

(** Modelled from the spec: [all_simple_paths] of the graph package is
    not part of the sources; "enumerate all simple paths (no repeated
    node) from source to target", without a cap. It is called for
    [source != target] only. [None] is NodeNotFound. *)
Definition all_simple_paths (G : DiGraph) (source target : string)
    : option (list (list string)) :=
  if has_node G source && has_node G target
  then Some (paths_from (List.length (nodes G)) G target [source] source)
  else None.

(** The elementary cycles through [root] whose other nodes are among
    [allowed]: the paths from [root] that do not repeat a node, closed
    by an edge back to [root]. *)
Fixpoint cycles_from (depth : nat) (G : DiGraph) (root : string)
    (allowed visited_rev : list string) (v : string) : list (list string) :=
  match depth with
  | O => []
  | S d =>
      flat_map
        (fun child =>
           if String.eqb child root then [rev visited_rev]
           else if mem child visited_rev || negb (mem child allowed) then []
           else cycles_from d G root allowed (child :: visited_rev) child)
        (successors G v)
  end.

Fixpoint cycles_over (G : DiGraph) (todo : list string) : list (list string) :=
  match todo with
  | [] => []
  | v :: rest =>
      cycles_from (S (List.length rest)) G v rest [v] v ++ cycles_over G rest
  end.

(** Modelled from the spec: [simple_cycles] of the graph package is not
    part of the sources; "enumerate all elementary (simple) cycles in the
    directed graph", a self-loop being a cycle of length 1. Each cycle is
    listed from its first node in node order, the nodes before it being
    left out of the search for the later ones. *)
Definition simple_cycles (G : DiGraph) : list (list string) :=
  cycles_over G (nodes G).

End Nx.

(** ** Building the graph and analysing it *)

Definition add_dependency_edges (reg : Registry) (module_name : string)
    (deps : list string) (G : Nx.DiGraph) : Nx.DiGraph :=
  fold_left (fun G dep => if Dict.mem dep reg then Nx.add_edge dep module_name G
                          else G)
            deps G.

Definition build_dependency_graph (reg : Registry) : Nx.DiGraph :=
  let G0 := fold_left (fun G entry => Nx.add_node (fst entry) G) reg Nx.empty in
  fold_left
    (fun G entry =>
       let '(module_name, module_info) := entry in
       add_dependency_edges reg module_name (terragrunt_dependencies module_info)
         (add_dependency_edges reg module_name (dependencies module_info) G))
    reg G0.

Definition detect_circular_dependencies (G : Nx.DiGraph) : list (list string) :=
  Nx.simple_cycles G.

(** The key [f"{source}->{target}"]. *)
Definition path_key (source target : string) : string :=
  source +:+ "->" +:+ target.

Definition path_step (G : Nx.DiGraph) (paths : Dict.t (list (list string)))
    (pair : string * string) : option (Dict.t (list (list string))) :=
  let '(source, target) := pair in
  if negb (String.eqb source target) then
    all_paths ← Nx.all_simple_paths G source target;
    match all_paths with
    | [] => Some paths
    | _ => Some (Dict.set (path_key source target) all_paths paths)
    end
  else Some paths.

(** The two nested loops over the registry, as one loop over the pairs in
    the same order. [None]: an exception of the graph package escapes. *)
Definition analyze_dependency_paths (reg : Registry) (G : Nx.DiGraph)
    : option (Dict.t (list (list string))) :=
  for_each (path_step G)
    (flat_map (fun source => List.map (pair source) (Dict.keys reg))
              (Dict.keys reg))
    [].

Definition impact_step (G : Nx.DiGraph) (module_name : string)
    (impact_set : gset string) (module : string) : option (gset string) :=
  if negb (String.eqb module module_name) then
    reached ← Nx.has_path G module_name module;
    if reached : bool then Some (impact_set ∪ {[ module ]}) else Some impact_set
  else Some impact_set.

Definition analyze_impact (reg : Registry) (G : Nx.DiGraph)
    (module_name : string) : option (gset string) :=
  if negb (Dict.mem module_name reg) then Some ∅
  else for_each (impact_step G module_name) (Dict.keys reg) ∅.

(** ** The report *)

Record ImpactEntry : Type := {
  affected_modules : list string;
  impact_count : nat }.

Record HighImpact : Type := {
  hi_module : string;
  hi_impact_count : nat;
  hi_affected_modules : list string }.

Record ImpactReport : Type := {
  high_impact_modules : list HighImpact;
  module_impact_analysis : Dict.t ImpactEntry;
  recommendations : list string }.

Definition empty_impact_report : ImpactReport :=
  {| high_impact_modules := []; module_impact_analysis := [];
     recommendations := [] |}.

(** [list(impact_set)]: the elements of the set, in the order the set
    gives them. *)
Definition impact_report_step (reg : Registry) (G : Nx.DiGraph)
    (r : ImpactReport) (module_name : string) : option ImpactReport :=
  impact_set ← analyze_impact reg G module_name;
  let affected := elements impact_set in
  let count := List.length affected in
  Some {| high_impact_modules :=
            if (3 <? count)%nat
            then high_impact_modules r ++
                 [{| hi_module := module_name; hi_impact_count := count;
                     hi_affected_modules := affected |}]
            else high_impact_modules r;
          module_impact_analysis :=
            Dict.set module_name
              {| affected_modules := affected; impact_count := count |}
              (module_impact_analysis r);
          recommendations := recommendations r |}.

Definition recommendation (h : HighImpact) : string :=
  "Module '" +:+ hi_module h +:+ "' has high impact ("
  +:+ Py.repr_int (Z.of_nat (hi_impact_count h)) +:+ " affected modules). "
  +:+ "Consider breaking it into smaller modules or using data sources to reduce coupling.".

Definition generate_impact_report (reg : Registry) (G : Nx.DiGraph)
    : option ImpactReport :=
  r ← for_each (impact_report_step reg G) (Dict.keys reg) empty_impact_report;
  Some {| high_impact_modules := high_impact_modules r;
          module_impact_analysis := module_impact_analysis r;
          recommendations :=
            recommendations r ++ List.map recommendation (high_impact_modules r) |}.

Record DetailReport : Type := {
  dr_target_module : string;
  dr_dependency_type : string;
  dr_reference_path : string;
  dr_file_path : option string }.

Record ModuleReport : Type := {
  mr_source : value;
  mr_path : string;
  mr_dependencies : list string;
  mr_terragrunt_dependencies : list string;
  mr_variables : value;
  mr_outputs : list string;
  mr_data_sources : list string;
  mr_resources : list string;
  mr_complexity_score : Z;
  mr_dependency_details : list DetailReport }.

Definition module_report (info : ModuleInfo) : ModuleReport :=
  {| mr_source := source info;
     mr_path := path info;
     mr_dependencies := dependencies info;
     mr_terragrunt_dependencies := terragrunt_dependencies info;
     mr_variables := variables info;
     mr_outputs := outputs info;
     mr_data_sources := data_sources info;
     mr_resources := resources info;
     mr_complexity_score := complexity_score info;
     mr_dependency_details :=
       List.map (fun dep => {| dr_target_module := target_module dep;
                               dr_dependency_type := dependency_type dep;
                               dr_reference_path := reference_path dep;
                               dr_file_path := file_path dep |})
                (dependency_details info) |}.

Record ComplexityAnalysis : Type := {
  high_complexity : list string;
  medium_complexity : list string;
  low_complexity : list string }.

(** The three list comprehensions over [modules.items()]. *)
Definition names_where (p : Z -> bool) (reg : Registry) : list string :=
  List.map fst (List.filter (fun entry => p (complexity_score (snd entry))) reg).

Definition complexity_buckets (reg : Registry) : ComplexityAnalysis :=
  {| high_complexity := names_where (fun s => 10 <? s)%Z reg;
     medium_complexity := names_where (fun s => (5 <? s) && (s <=? 10))%Z reg;
     low_complexity := names_where (fun s => s <=? 5)%Z reg |}.

Record Report : Type := {
  modules : Dict.t ModuleReport;
  circular_dependencies : list (list string);
  dependency_paths : Dict.t (list (list string));
  impact_analysis : ImpactReport;
  total_modules : nat;
  total_dependencies : nat;
  complexity_analysis : ComplexityAnalysis }.

(** The analyses and the report, from the populated registry. *)
Definition report_of (reg : Registry) : option Report :=
  let G := build_dependency_graph reg in
  let cycles := detect_circular_dependencies G in
  paths ← analyze_dependency_paths reg G;
  impact_report ← generate_impact_report reg G;
  Some {| modules := List.map (fun entry => (fst entry, module_report (snd entry))) reg;
          circular_dependencies := cycles;
          dependency_paths := paths;
          impact_analysis := impact_report;
          total_modules := List.length reg;
          total_dependencies := List.length (Nx.edges G);
          complexity_analysis := complexity_buckets reg |}.

(** [analyze], from the files [find_configuration_files] found. [None]: an
    exception escapes and the run is aborted. *)
Definition analyze (terragrunt_files terraform_files : list File)
    : option Report :=
  report_of (build_registry terragrunt_files terraform_files).

(** ** Examples *)

Module Examples.

Definition tg (dir : list string) (d : Doc) : File :=
  {| fpath := {| Path.absolute := false;
                 Path.parts := dir ++ ["terragrunt.hcl"] |};
     loaded := Some d |}.

Definition dep (label config_path : string) : Dict.t (Dict.t value) :=
  [(label, [("config_path", VStr config_path)])].

Definition with_deps (l : list (string * string)) : Doc :=
  {| doc_terraform := Some [[("source", VStr "git::https://example.com/m.git")]];
     doc_dependency := Some (List.map (fun d => dep (fst d) (snd d)) l);
     doc_inputs := Some (VDict []);
     doc_module := None; doc_data := None; doc_output := None;
     doc_resource := None |}.

(** A chain: b depends on a. *)
Definition chain_files : list File :=
  [tg ["live"; "a"] (with_deps []); tg ["live"; "b"] (with_deps [("a", "../../live/a")])].

(** A 3-cycle A -> B -> C -> A. *)
Definition cycle_files : list File :=
  [tg ["live"; "A"] (with_deps [("C", "../../live/C")]);
   tg ["live"; "B"] (with_deps [("A", "../../live/A")]);
   tg ["live"; "C"] (with_deps [("B", "../../live/B")])].

(** Four directories whose names make two pairs share one key:
    [a], [b->c], [a->b] and [c], where [c] depends on [a->b]. *)
Definition collision_files : list File :=
  [tg ["live"; "a"] (with_deps []);
   tg ["live"; "b->c"] (with_deps []);
   tg ["live"; "a->b"] (with_deps []);
   tg ["live"; "c"] (with_deps [("up", "../../live/a->b")])].

Definition with_inputs (inputs : value) : Doc :=
  {| doc_terraform := Some [[("source", VStr "git::https://example.com/m.git")]];
     doc_dependency := None;
     doc_inputs := Some inputs;
     doc_module := None; doc_data := None; doc_output := None;
     doc_resource := None |}.

(** [main.tf] with one block [module "vpc" { source = "./vpc" }]. *)
Definition inline_module_file : File :=
  {| fpath := {| Path.absolute := false; Path.parts := ["infra"; "main.tf"] |};
     loaded := Some {| doc_terraform := None; doc_dependency := None;
                       doc_inputs := None;
                       doc_module := Some [[("vpc", [("source", VStr "./vpc")])]];
                       doc_data := None; doc_output := None;
                       doc_resource := None |} |}.

(** [live/prod/vpc/terragrunt.hcl] with a dependency block whose
    [config_path] is ["../../shared/vpc"]. *)
Definition self_dependency_file : File :=
  tg ["live"; "prod"; "vpc"] (with_deps [("shared", "../../shared/vpc")]).

(** [live/app/terragrunt.hcl] with [inputs = { vpc_id = module.ghost.id }];
    no file defines [ghost]. *)
Definition dangling_file : File :=
  tg ["live"; "app"] (with_inputs (VDict [("vpc_id", VStr "${module.ghost.id}")])).

(** [live/app/terragrunt.hcl] whose inputs read a remote state output. *)
Definition remote_state_file : File :=
  tg ["live"; "app"]
     (with_inputs
        (VDict [("vpc_id",
                 VStr "${data.terraform_remote_state.vpc.outputs.vpc_id}")])).

(** A file that does not parse. *)
Definition malformed_file : File :=
  {| fpath := {| Path.absolute := false;
                 Path.parts := ["live"; "broken"; "terragrunt.hcl"] |};
     loaded := None |}.

End Examples.

(** ** Graph notions the statements use *)

Definition edge (G : Nx.DiGraph) (u v : string) : Prop := In (u, v) (Nx.edges G).

(** Reachability along directed edges. *)
Definition reachable (G : Nx.DiGraph) : string -> string -> Prop := rtc (edge G).

(** Every node of [l] has an edge to the next one. *)
Fixpoint walk (G : Nx.DiGraph) (l : list string) : Prop :=
  match l with
  | u :: (v :: _) as l' => edge G u v /\ walk G l'
  | _ => True
  end.

(** A simple path from [s] to [t]: no node twice. *)
Definition simple_path (G : Nx.DiGraph) (s t : string) (p : list string) : Prop :=
  List.NoDup p /\ walk G p /\ head p = Some s /\ last p = Some t.

(** An elementary cycle: at least one node, no node twice, an edge from
    each node to the next and from the last back to the first. *)
Definition elementary_cycle (G : Nx.DiGraph) (c : list string) : Prop :=
  match c with
  | [] => False
  | v :: _ => List.NoDup c /\ walk G (c ++ [v])
  end.

Definition rotation (c r : list string) : Prop :=
  exists a b, c = a ++ b /\ r = b ++ a.

(** Every edge joins two nodes of the graph. *)
Definition closed_graph (G : Nx.DiGraph) : Prop :=
  forall u v, edge G u v -> In u (Nx.nodes G) /\ In v (Nx.nodes G).

(** The graph [build_dependency_graph] makes from a registry: its nodes
    are the registered names, and its edges join registered names. *)
Definition registry_graph (reg : Registry) (G : Nx.DiGraph) : Prop :=
  closed_graph G /\ forall x, In x (Nx.nodes G) <-> In x (Dict.keys reg).

(** The two in-place mutations the Terraform loop applies to a descriptor
    that is registered already. *)
Definition is_append (g : ModuleInfo -> ModuleInfo) : Prop :=
  (exists d, g = append_detail d) \/ (exists o, g = append_output o).

(** [m'] is [m] after appends to its lists: the dependency lists are the
    same and no record is lost. *)
Definition extends (m m' : ModuleInfo) : Prop :=
  name m' = name m /\
  dependencies m' = dependencies m /\
  terragrunt_dependencies m' = terragrunt_dependencies m /\
  incl (dependency_details m) (dependency_details m').

(** No character of [s] is [>]. *)
Fixpoint no_gt (s : string) : Prop :=
  match s with
  | EmptyString => True
  | String c s' => c <> ">"%char /\ no_gt s'
  end.

(** The names some file defines: the directory of a Terragrunt file that
    parses, and the label of a module block of a Terraform file that
    loads. *)
Definition module_labels (f : File) : list string :=
  match loaded f with
  | Some parsed =>
      match doc_module parsed with
      | Some blocks => List.map fst (List.concat blocks)
      | None => []
      end
  | None => []
  end.

Definition defined_names (terragrunt_files terraform_files : list File)
    : list string :=
  flat_map (fun f => match parse_terragrunt_file f with
                     | Some m => [name m]
                     | None => []
                     end) terragrunt_files
  ++ flat_map module_labels terraform_files.

(** The score the formula of the registry construction gives. *)
Definition formula_score (m : ModuleInfo) (nvars : nat) : Z :=
  (1 + 2 * Z.of_nat (List.length (dependencies m))
     + 2 * Z.of_nat (List.length (terragrunt_dependencies m))
     + Z.of_nat nvars
     + Z.of_nat (List.length (outputs m))
     + 3 * Z.of_nat (List.length (data_sources m)))%Z.

(** ** Rendering the graph *)

Definition newline : string := String (ascii_of_nat 10) EmptyString.

(** [s] between two double quotes. *)
Definition quoted (s : string) : string :=
  String Py.double_quote (s +:+ String Py.double_quote EmptyString).

Definition edge_styles : Dict.t string :=
  [("module_output", "[color=blue, style=solid]");
   ("terragrunt", "[color=green, style=solid]");
   ("data_source", "[color=orange, style=dashed]");
   ("remote_state", "[color=purple, style=dotted]");
   ("module_reference", "[color=blue, style=solid]");
   ("data_source_module", "[color=orange, style=dashed]");
   ("resource_module", "[color=brown, style=solid]")].

(** [styles.get(dependency_type, '[color=gray, style=solid]')] *)
Definition _get_edge_style (dependency_type : string) : string :=
  default "[color=gray, style=solid]" (Dict.get dependency_type edge_styles).

Definition mermaid_edge_styles : Dict.t string :=
  [("module_output", "-->");
   ("terragrunt", "==>");
   ("data_source", "-.->");
   ("remote_state", "~~~>");
   ("module_reference", "-->");
   ("data_source_module", "-.->");
   ("resource_module", "-->")].

Definition _get_mermaid_edge_style (dependency_type : string) : string :=
  default "-->" (Dict.get dependency_type mermaid_edge_styles).

Definition dot_fillcolor (score : Z) : string :=
  if (10 <? score)%Z then "lightcoral"
  else if (5 <? score)%Z then "lightyellow"
  else "lightblue".

Definition dot_node_line (entry : string * ModuleInfo) : string :=
  let '(module_name, module_info) := entry in
  let label := module_name +:+ "\n" +:+ Py.str (source module_info)
               +:+ "\nComplexity: "
               +:+ Py.repr_int (complexity_score module_info) in
  "  " +:+ quoted module_name +:+ " [label=" +:+ quoted label
  +:+ ", fillcolor=" +:+ quoted (dot_fillcolor (complexity_score module_info))
  +:+ "];".

Definition dot_edge_line (module_name : string) (dep_info : DependencyInfo)
    : string :=
  "  " +:+ quoted (target_module dep_info) +:+ " -> " +:+ quoted module_name
  +:+ " " +:+ _get_edge_style (dependency_type dep_info) +:+ ";".

(** The records of a descriptor whose target is registered. *)
Definition drawn_details (reg : Registry) (module_info : ModuleInfo)
    : list DependencyInfo :=
  List.filter (fun dep_info => Dict.mem (target_module dep_info) reg)
              (dependency_details module_info).

Definition dot_edge_lines (reg : Registry) : list string :=
  flat_map (fun entry => List.map (dot_edge_line (fst entry))
                                  (drawn_details reg (snd entry)))
           reg.

(** The pairs [(cycle[i], cycle[(i + 1) % len(cycle)])]. *)
Definition cycle_steps (cycle : list string) : list (string * string) :=
  List.map (fun i => (List.nth i cycle EmptyString,
                      List.nth ((i + 1) mod List.length cycle) cycle EmptyString))
           (List.seq 0 (List.length cycle)).

Definition dot_cycle_line (step : string * string) : string :=
  "  " +:+ quoted (fst step) +:+ " -> " +:+ quoted (snd step)
  +:+ " [color=red, penwidth=3];".

Definition dot_lines (reg : Registry) (cycles : list (list string))
    : list string :=
  ["digraph G {"; "  rankdir=TB;"; "  node [shape=box, style=filled];";
   "  edge [color=gray];"]
  ++ List.map dot_node_line reg
  ++ dot_edge_lines reg
  ++ match cycles with
     | [] => []
     | _ => "  edge [color=red, penwidth=3];"
            :: List.map dot_cycle_line (flat_map cycle_steps cycles)
     end
  ++ ["}"].

(** [generate_enhanced_dot_graph], from the registry and the cycles that
    [detect_circular_dependencies] stored. *)
Definition generate_enhanced_dot_graph (reg : Registry)
    (cycles : list (list string)) : string :=
  Py.join newline (dot_lines reg cycles).

Definition mermaid_style (score : Z) : string :=
  if (10 <? score)%Z then ":::complex"
  else if (5 <? score)%Z then ":::medium"
  else ":::simple".

Definition mermaid_node_line (entry : string * ModuleInfo) : string :=
  let '(module_name, module_info) := entry in
  "    " +:+ module_name +:+ "["
  +:+ quoted (module_name +:+ "<br/>" +:+ Py.str (source module_info)
              +:+ "<br/>Complexity: "
              +:+ Py.repr_int (complexity_score module_info))
  +:+ "]" +:+ mermaid_style (complexity_score module_info).

Definition mermaid_edge_line (module_name : string) (dep_info : DependencyInfo)
    : string :=
  "    " +:+ target_module dep_info +:+ " "
  +:+ _get_mermaid_edge_style (dependency_type dep_info) +:+ " " +:+ module_name.

Definition mermaid_edge_lines (reg : Registry) : list string :=
  flat_map (fun entry => List.map (mermaid_edge_line (fst entry))
                                  (drawn_details reg (snd entry)))
           reg.

Definition mermaid_lines (reg : Registry) (cycles : list (list string))
    : list string :=
  ["graph TD"]
  ++ List.map mermaid_node_line reg
  ++ mermaid_edge_lines reg
  ++ ["    classDef simple fill:#e1f5fe";
      "    classDef medium fill:#fff3e0";
      "    classDef complex fill:#ffebee"]
  ++ match cycles with
     | [] => []
     | _ => "    %% Circular Dependencies Detected!"
            :: List.map (fun cycle => "    %% Cycle: " +:+ Py.join " -> " cycle)
                        cycles
     end.

Definition generate_enhanced_mermaid_diagram (reg : Registry)
    (cycles : list (list string)) : string :=
  Py.join newline (mermaid_lines reg cycles).

(** ** The registry as a sequence of operations *)

(** The descriptor [parse_terraform_files] stores for a module block. *)
Definition module_block_descriptor (p : Path.t) (module_name : string)
    (module_config : Dict.t value) : ModuleInfo :=
  let fp := Path.str p in
  let m0 := new_module module_name
              (default (VStr EmptyString) (Dict.get "source" module_config))
              (Path.str (Path.parent p)) in
  let m1 := match Dict.get "variables" module_config with
            | Some vars =>
                _analyze_variable_dependencies (set_variables vars m0) vars fp
            | None => m0
            end in
  _extract_module_dependencies m1 module_config fp.

(** What the two loops of [analyze] do to the registry, one assignment or
    one append at a time. *)
Inductive registry_op (tgs tfs : list File) : Registry -> Registry -> Prop :=
| op_terragrunt (f : File) (m : ModuleInfo) (reg : Registry) :
    In f tgs -> parse_terragrunt_file f = Some m ->
    registry_op tgs tfs reg (Dict.set (name m) m reg)
| op_module_block (f : File) (k : string) (cfg : Dict.t value) (reg : Registry) :
    In f tfs -> In k (module_labels f) ->
    registry_op tgs tfs reg
      (Dict.set k (module_block_descriptor (fpath f) k cfg) reg)
| op_data_detail (k : string) (m : ModuleInfo) (data_name fp o : string)
    (reg : Registry) :
    Dict.get k reg = Some m ->
    registry_op tgs tfs reg
      (Dict.update k
         (append_detail (module_record "data_source_module" fp
                           ("data." +:+ data_name) (k, o))) reg)
| op_resource_detail (k : string) (m : ModuleInfo) (resource_type fp o : string)
    (reg : Registry) :
    Dict.get k reg = Some m ->
    registry_op tgs tfs reg
      (Dict.update k
         (append_detail (module_record "resource_module" fp
                           ("resource." +:+ resource_type) (k, o))) reg)
| op_output (k : string) (m : ModuleInfo) (o : string) (reg : Registry) :
    Dict.get k reg = Some m -> ~ In o (outputs m) ->
    registry_op tgs tfs reg (Dict.update k (append_output o) reg).

(** A name made of characters of the class [[a-zA-Z0-9_-]], at least one. *)
Definition word (s : string) : Prop :=
  s <> EmptyString /\ forallb Re.word_char (Py.chars s) = true.

(** What a list of dependency blocks resolves to: for every [config_path]
    that is a str and starts with [../../], its last segment and the path
    itself. *)
Definition resolved_paths (entries : list (string * Dict.t value))
    : list (string * string) :=
  flat_map (fun entry =>
              match Dict.get "config_path" (snd entry) with
              | Some (VStr config_path) =>
                  if Py.startswith "../../" config_path
                  then [(Py.last_part (Py.split "/" config_path), config_path)]
                  else []
              | _ => []
              end) entries.

(** [m] after the dependency loop has resolved [paths]. *)
Definition add_paths (fp : string) (paths : list (string * string))
    (m : ModuleInfo) : ModuleInfo :=
  {| name := name m; source := source m; path := path m;
     variables := variables m; outputs := outputs m;
     dependencies := dependencies m;
     terragrunt_dependencies := terragrunt_dependencies m ++ List.map fst paths;
     data_sources := data_sources m; resources := resources m;
     dependency_details :=
       dependency_details m
       ++ List.map (fun r => terragrunt_record fp (name m) (fst r) (snd r)) paths;
     complexity_score := complexity_score m |}.

(** A dependency block whose [config_path] is not a str. *)
Definition bad_config_path (entry : string * Dict.t value) : Prop :=
  match Dict.get "config_path" (snd entry) with
  | Some (VStr _) | None => False
  | Some _ => True
  end.

(** The matches of a pattern in an optional payload. *)
Definition refs_in {A} (find : string -> list A) (payload : option value)
    : list A :=
  match payload with
  | Some v => find (Py.str v)
  | None => []
  end.

(** The matches of the module pattern that do not name the module itself. *)
Definition kept_refs (own : string) (refs : list (string * string))
    : list (string * string) :=
  List.filter (fun r => negb (String.eqb (fst r) own)) refs.

(** The descriptor [parse_terragrunt_file] returns for a file at [p] whose
    parsed content is [parsed] and whose inputs have [nvars] entries. *)
Definition terragrunt_descriptor (p : Path.t) (parsed : Doc) (nvars : nat)
    : ModuleInfo :=
  let fp := Path.str p in
  let own := Path.name (Path.parent p) in
  let paths := resolved_paths (List.concat (default [] (doc_dependency parsed))) in
  let kept := kept_refs own (refs_in module_refs (doc_inputs parsed)) in
  let base :=
    {| name := own;
       source := match doc_terraform parsed with
                 | Some (terraform_block :: _) =>
                     default (VStr EmptyString) (Dict.get "source" terraform_block)
                 | _ => VStr EmptyString
                 end;
       path := Path.str (Path.parent p);
       variables := default (VDict []) (doc_inputs parsed);
       outputs := [];
       dependencies := List.map fst kept;
       terragrunt_dependencies := List.map fst paths;
       data_sources := List.map data_target (refs_in data_refs (doc_inputs parsed));
       resources := [];
       dependency_details :=
         List.map (fun r => terragrunt_record fp own (fst r) (snd r)) paths
         ++ List.map (module_record "module_output" fp own) kept
         ++ List.map (data_record fp own) (refs_in data_refs (doc_inputs parsed))
         ++ List.map (remote_state_record fp own)
                     (refs_in remote_state_refs (doc_inputs parsed));
       complexity_score := 0 |} in
  set_complexity_score (formula_score base nvars) base.

(** The conditions under which [parse_terragrunt_file] raises once the
    file is loaded: an empty list of [terraform] blocks, a [config_path]
    that is not a str, or inputs without a length. *)
Definition terragrunt_raises (parsed : Doc) : Prop :=
  doc_terraform parsed = Some [] \/
  Exists bad_config_path (List.concat (default [] (doc_dependency parsed))) \/
  Py.len (default (VDict []) (doc_inputs parsed)) = None.

(** What holds of every descriptor of the registry, stored under [k]. *)
Definition descriptor_ok (k : string) (m : ModuleInfo) : Prop :=
  name m = k /\
  List.NoDup (outputs m) /\
  resources m = [] /\
  (0 <= complexity_score m)%Z /\
  (forall d, In d (dependencies m) ->
     d <> k /\ word d /\
     exists r, In r (dependency_details m) /\ target_module r = d /\
               source_module r = k /\
               (dependency_type r = "module_output"
                \/ dependency_type r = "module_reference")) /\
  (forall d, In d (terragrunt_dependencies m) ->
     exists r, In r (dependency_details m) /\ target_module r = d /\
               source_module r = k /\ dependency_type r = "terragrunt") /\
  (forall r, In r (dependency_details m) ->
     In (dependency_type r) (Dict.keys edge_styles)) /\
  (forall r, In r (dependency_details m) ->
     (dependency_type r = "data_source_module"
      \/ dependency_type r = "resource_module") -> target_module r = k).

(** ** More examples *)

Module Fixtures.

(** [infra/main.tf]: two module blocks, a data source, an output and a
    resource that read outputs of the module [vpc]. *)
Definition main_tf_path : Path.t :=
  {| Path.absolute := false; Path.parts := ["infra"; "main.tf"] |}.

Definition vpc_config : Dict.t value := [("source", VStr "./vpc")].

Definition app_config : Dict.t value :=
  [("source", VStr "./app");
   ("variables", VDict [("vpc_id", VStr "${module.vpc.vpc_id}")])].

Definition main_tf : File :=
  {| fpath := main_tf_path;
     loaded :=
       Some {| doc_terraform := None; doc_dependency := None; doc_inputs := None;
               doc_module := Some [[("vpc", vpc_config); ("app", app_config)]];
               doc_data :=
                 Some [[("aws_ami",
                         VDict [("ubuntu",
                                 VDict [("owners", VStr "${module.vpc.owner}")])])]];
               doc_output :=
                 Some [[("vpc_id", [("value", VStr "${module.vpc.vpc_id}")])]];
               doc_resource :=
                 Some [[("aws_instance",
                         VDict [("web",
                                 VDict [("subnet",
                                         VStr "${module.vpc.subnet_id}")])])]] |} |}.

(** The descriptor of [vpc] once [main_tf] has been read. *)
Definition vpc_descriptor : ModuleInfo :=
  append_detail
    (module_record "resource_module" "infra/main.tf" "resource.aws_instance"
                   ("vpc", "subnet_id"))
    (append_output "vpc_id"
       (append_detail
          (module_record "data_source_module" "infra/main.tf" "data.aws_ami"
                         ("vpc", "owner"))
          (module_block_descriptor main_tf_path "vpc" vpc_config))).

Definition app_descriptor : ModuleInfo :=
  module_block_descriptor main_tf_path "app" app_config.

(** [live/b/terragrunt.hcl] of the chain. *)
Definition b_path : Path.t :=
  {| Path.absolute := false; Path.parts := ["live"; "b"; "terragrunt.hcl"] |}.

Definition b_descriptor : ModuleInfo :=
  terragrunt_descriptor b_path (Examples.with_deps [("a", "../../live/a")]) 0.

(** [infra/outputs.tf]: an output that reads the module [a]. *)
Definition outputs_tf : File :=
  {| fpath := {| Path.absolute := false; Path.parts := ["infra"; "outputs.tf"] |};
     loaded :=
       Some {| doc_terraform := None; doc_dependency := None; doc_inputs := None;
               doc_module := None; doc_data := None;
               doc_output := Some [[("a_id", [("value", VStr "${module.a.id}")])]];
               doc_resource := None |} |}.

Definition a_path : Path.t :=
  {| Path.absolute := false; Path.parts := ["live"; "a"; "terragrunt.hcl"] |}.

(** The descriptor of [a] of the chain, once [outputs_tf] has been read. *)
Definition a_descriptor : ModuleInfo :=
  append_output "id" (terragrunt_descriptor a_path (Examples.with_deps []) 0).

(** A chain of three: b depends on a, c depends on b. *)
Definition chain3_files : list File :=
  [Examples.tg ["live"; "a"] (Examples.with_deps []);
   Examples.tg ["live"; "b"] (Examples.with_deps [("a", "../../live/a")]);
   Examples.tg ["live"; "c"] (Examples.with_deps [("b", "../../live/b")])].

(** Two directories named [vpc], in two environments. *)
Definition prod_vpc : File :=
  Examples.tg ["live"; "prod"; "vpc"] (Examples.with_deps []).

Definition dev_vpc : File :=
  Examples.tg ["live"; "dev"; "vpc"]
              (Examples.with_deps [("net", "../../shared/net")]).

Definition dev_vpc_descriptor : ModuleInfo :=
  terragrunt_descriptor (fpath dev_vpc)
                        (Examples.with_deps [("net", "../../shared/net")]) 0.

(** [live/app/terragrunt.hcl] whose inputs are a number. *)
Definition numeric_inputs_file : File :=
  Examples.tg ["live"; "app"] (Examples.with_inputs (VInt 5)).

End Fixtures.

(** * Properties *)

Example findall_module :
  Re.findall Re.module_pattern "${module.vpc.vpc_id} and module.a-b.c.d"
  = [["vpc"; "vpc_id"]; ["a-b"; "c"]].
Proof. reflexivity. Qed.

Example str_dict :
  Py.str (VDict [("vpc_id", VStr "${module.vpc.id}"); ("n", VInt 3);
                 ("l", VList [VBool true; VNone; VStr "a\b"])])
  = "{'vpc_id': '${module.vpc.id}', 'n': 3, 'l': [True, None, 'a\\b']}".
Proof. reflexivity. Qed.


(** ** Lists, strings and dicts *)

Lemma fold_left_invariant {A B} (P : A -> Prop) (f : A -> B -> A) (l : list B)
    (a : A) :
  P a -> (forall a x, In x l -> P a -> P (f a x)) -> P (fold_left f l a).
Proof.
  revert a. induction l as [|x l IH]; intros a Ha Hstep; simpl; [exact Ha|].
  apply IH.
  - apply Hstep; [now left | exact Ha].
  - intros a' y Hy. apply Hstep. now right.
Qed.

Lemma for_each_invariant {S A} (P : S -> Prop) (body : S -> A -> option S)
    (l : list A) (s s' : S) :
  P s -> (forall s x s', In x l -> P s -> body s x = Some s' -> P s') ->
  for_each body l s = Some s' -> P s'.
Proof.
  revert s. induction l as [|x l IH]; intros s Hs Hstep; simpl.
  - intros [= <-]. exact Hs.
  - destruct (body s x) as [s1|] eqn:E; [|discriminate].
    apply IH.
    + eapply Hstep; eauto. now left.
    + intros s2 y s3 Hy. apply Hstep. now right.
Qed.

Lemma for_each_total {S A} (P : S -> Prop) (body : S -> A -> option S)
    (l : list A) (s : S) :
  P s ->
  (forall s x, In x l -> P s -> exists s', body s x = Some s' /\ P s') ->
  exists s', for_each body l s = Some s' /\ P s'.
Proof.
  revert s. induction l as [|x l IH]; intros s Hs Hstep; simpl.
  - now exists s.
  - destruct (Hstep s x) as (s1 & -> & Hs1); [now left | exact Hs |].
    apply IH; [exact Hs1|]. intros s2 y Hy. apply Hstep. now right.
Qed.

Lemma mem_In (v : string) (l : list string) : Nx.mem v l = true <-> In v l.
Proof.
  unfold Nx.mem. rewrite existsb_exists. split.
  - intros (x & Hx & E). apply String.eqb_eq in E. now subst.
  - intros H. exists v. split; [exact H | apply String.eqb_refl].
Qed.

Lemma mem_false (v : string) (l : list string) : Nx.mem v l = false <-> ~ In v l.
Proof.
  rewrite <- mem_In. destruct (Nx.mem v l); split; congruence.
Qed.

Module DictFacts.

Lemma mem_keys {V} (k : string) (d : Dict.t V) :
  Dict.mem k d = true <-> In k (Dict.keys d).
Proof.
  unfold Dict.mem. induction d as [|[k' v] d IH]; simpl.
  - split; [discriminate | tauto].
  - destruct (String.eqb_spec k k') as [->|Hne].
    + split; [now left | reflexivity].
    + rewrite IH. split; [now right | intros [E|H]; [congruence | exact H]].
Qed.

Lemma get_In {V} (k : string) (v : V) (d : Dict.t V) :
  Dict.get k d = Some v -> In (k, v) d.
Proof.
  induction d as [|[k' v'] d IH]; simpl; [discriminate|].
  destruct (String.eqb_spec k k') as [->|Hne].
  - intros [= ->]. now left.
  - intros H. right. now apply IH.
Qed.

Lemma In_get {V} (k : string) (v : V) (d : Dict.t V) :
  List.NoDup (Dict.keys d) -> In (k, v) d -> Dict.get k d = Some v.
Proof.
  induction d as [|[k' v'] d IH]; simpl; [tauto|].
  intros Hnd [E|H].
  - inversion E; subst. now rewrite String.eqb_refl.
  - inversion Hnd as [|? ? Hnotin Hnd']; subst.
    destruct (String.eqb_spec k k') as [->|Hne].
    + exfalso. apply Hnotin. change (In (fst (k', v)) (List.map fst d)).
      now apply in_map.
    + now apply IH.
Qed.

Lemma keys_set {V} (k : string) (v : V) (d : Dict.t V) (x : string) :
  In x (Dict.keys (Dict.set k v d)) <-> x = k \/ In x (Dict.keys d).
Proof.
  induction d as [|[k' v'] d IH]; simpl.
  - intuition.
  - destruct (String.eqb_spec k k') as [->|Hne]; simpl.
    + intuition.
    + rewrite IH. intuition.
Qed.

Lemma keys_update {V} (k : string) (f : V -> V) (d : Dict.t V) :
  Dict.keys (Dict.update k f d) = Dict.keys d.
Proof.
  induction d as [|[k' v'] d IH]; simpl; [reflexivity|].
  destruct (String.eqb k k'); simpl; [reflexivity | now rewrite IH].
Qed.

Lemma NoDup_keys_set {V} (k : string) (v : V) (d : Dict.t V) :
  List.NoDup (Dict.keys d) -> List.NoDup (Dict.keys (Dict.set k v d)).
Proof.
  induction d as [|[k' v'] d IH]; simpl; intros Hnd.
  - constructor; [tauto | constructor].
  - inversion Hnd as [|? ? Hnotin Hnd']; subst.
    destruct (String.eqb_spec k k') as [->|Hne]; simpl.
    + now constructor.
    + constructor; [|now apply IH].
      rewrite keys_set. intros [E|H]; [congruence | tauto].
Qed.

Lemma get_set {V} (k k' : string) (v : V) (d : Dict.t V) :
  Dict.get k' (Dict.set k v d)
  = if String.eqb k' k then Some v else Dict.get k' d.
Proof.
  induction d as [|[k0 v0] d IH]; simpl.
  - reflexivity.
  - destruct (String.eqb_spec k k0) as [->|Hne]; simpl.
    + destruct (String.eqb_spec k' k0); reflexivity.
    + rewrite IH. destruct (String.eqb_spec k' k0) as [->|Hne'].
      * destruct (String.eqb_spec k0 k); [congruence | reflexivity].
      * reflexivity.
Qed.

Lemma get_update {V} (k k' : string) (f : V -> V) (d : Dict.t V) :
  Dict.get k' (Dict.update k f d)
  = if String.eqb k' k then option_map f (Dict.get k' d) else Dict.get k' d.
Proof.
  induction d as [|[k0 v0] d IH]; simpl.
  - now destruct (String.eqb k' k).
  - destruct (String.eqb_spec k k0) as [->|Hne]; simpl.
    + destruct (String.eqb_spec k' k0); reflexivity.
    + rewrite IH. destruct (String.eqb_spec k' k0) as [->|Hne'].
      * destruct (String.eqb_spec k0 k); [congruence | reflexivity].
      * reflexivity.
Qed.

End DictFacts.

(** ** The built graph *)

Module NxFacts.

Lemma nodes_add_node (x v : string) (G : Nx.DiGraph) :
  In x (Nx.nodes (Nx.add_node v G)) <-> x = v \/ In x (Nx.nodes G).
Proof.
  unfold Nx.add_node, Nx.has_node.
  destruct (Nx.mem v (Nx.nodes G)) eqn:E; simpl.
  - apply mem_In in E. split; [now right | intros [->|H]; assumption].
  - rewrite in_app_iff. simpl. intuition.
Qed.

Lemma edges_add_node (v : string) (G : Nx.DiGraph) :
  Nx.edges (Nx.add_node v G) = Nx.edges G.
Proof. unfold Nx.add_node. now destruct (Nx.has_node G v). Qed.

Lemma has_edge_In (G : Nx.DiGraph) (u v : string) :
  Nx.has_edge G u v = true <-> In (u, v) (Nx.edges G).
Proof.
  unfold Nx.has_edge. rewrite existsb_exists. split.
  - intros ([a b] & Hin & E). simpl in E.
    apply andb_true_iff in E as [E1 E2].
    apply String.eqb_eq in E1, E2. now subst.
  - intros H. exists (u, v). simpl. now rewrite !String.eqb_refl.
Qed.

Lemma edges_add_edge (e : string * string) (u v : string) (G : Nx.DiGraph) :
  In e (Nx.edges (Nx.add_edge u v G)) <-> e = (u, v) \/ In e (Nx.edges G).
Proof.
  unfold Nx.add_edge.
  destruct (Nx.has_edge _ u v) eqn:E; simpl.
  - apply has_edge_In in E. rewrite !edges_add_node in *.
    split; [now right | intros [->|H]; assumption].
  - rewrite in_app_iff, !edges_add_node. simpl. intuition.
Qed.

Lemma nodes_add_edge (x u v : string) (G : Nx.DiGraph) :
  In x (Nx.nodes (Nx.add_edge u v G)) <-> x = u \/ x = v \/ In x (Nx.nodes G).
Proof.
  unfold Nx.add_edge.
  destruct (Nx.has_edge _ u v); simpl; rewrite !nodes_add_node; intuition.
Qed.

Lemma closed_add_node (v : string) (G : Nx.DiGraph) :
  closed_graph G -> closed_graph (Nx.add_node v G).
Proof.
  intros HG a b. unfold edge. rewrite edges_add_node, !nodes_add_node.
  intros H. destruct (HG a b H). intuition.
Qed.

Lemma closed_add_edge (u v : string) (G : Nx.DiGraph) :
  closed_graph G -> closed_graph (Nx.add_edge u v G).
Proof.
  intros HG a b. unfold edge. rewrite edges_add_edge, !nodes_add_edge.
  intros [[= -> ->]|H]; [intuition|]. destruct (HG a b H). intuition.
Qed.

Lemma successors_In (G : Nx.DiGraph) (u v : string) :
  In v (Nx.successors G u) <-> edge G u v.
Proof.
  unfold Nx.successors, edge. rewrite in_map_iff. split.
  - intros ([a b] & <- & H). apply filter_In in H as [H E]. simpl in *.
    apply String.eqb_eq in E. now subst.
  - intros H. exists (u, v). split; [reflexivity|].
    apply filter_In. split; [exact H | apply String.eqb_refl].
Qed.

Lemma add_nodes_spec (l : Registry) (G : Nx.DiGraph) :
  let G' := fold_left (fun G entry => Nx.add_node (fst entry) G) l G in
  Nx.edges G' = Nx.edges G /\
  forall x, In x (Nx.nodes G') <-> In x (Nx.nodes G) \/ In x (Dict.keys l).
Proof.
  revert G. induction l as [|[k m] l IH]; intros G; simpl.
  - intuition.
  - destruct (IH (Nx.add_node k G)) as [He Hn]. split.
    + now rewrite He, edges_add_node.
    + intros x. rewrite Hn, nodes_add_node. intuition.
Qed.

Lemma add_dependency_edges_ok (reg : Registry) (n : string) (deps : list string)
    (G : Nx.DiGraph) :
  In n (Dict.keys reg) -> registry_graph reg G ->
  registry_graph reg (add_dependency_edges reg n deps G).
Proof.
  intros Hn HG. unfold add_dependency_edges.
  apply fold_left_invariant; [exact HG|].
  intros G' dep _ [Hc Hnodes].
  destruct (Dict.mem dep reg) eqn:E; [|now split].
  apply DictFacts.mem_keys in E. split.
  - now apply closed_add_edge.
  - intros x. rewrite nodes_add_edge, Hnodes.
    split; [intros [->|[->|H]]; assumption | tauto].
Qed.

Lemma build_dependency_graph_ok (reg : Registry) :
  registry_graph reg (build_dependency_graph reg).
Proof.
  unfold build_dependency_graph.
  destruct (add_nodes_spec reg Nx.empty) as [He Hn]. simpl in He, Hn.
  apply fold_left_invariant.
  - split.
    + intros u v. unfold edge. rewrite He. simpl. tauto.
    + intros x. rewrite Hn. simpl. tauto.
  - intros G [n m] Hin HG.
    assert (In n (Dict.keys reg)) by (change n with (fst (n, m)); now apply in_map).
    now apply add_dependency_edges_ok, add_dependency_edges_ok.
Qed.

(** *** Breadth-first search *)

Lemma add_all_In (l acc : list string) (x : string) :
  In x (fold_left Nx.add_seen l acc) <-> In x acc \/ In x l.
Proof.
  revert acc. induction l as [|w l IH]; intros acc; simpl; [tauto|].
  rewrite IH. unfold Nx.add_seen. destruct (Nx.mem w acc) eqn:E.
  - apply mem_In in E. split; [tauto | intros [H|[->|H]]; tauto].
  - rewrite in_app_iff. simpl. intuition.
Qed.

Lemma add_all_NoDup (l acc : list string) :
  List.NoDup acc -> List.NoDup (fold_left Nx.add_seen l acc).
Proof.
  revert acc. induction l as [|w l IH]; intros acc Hnd; simpl; [exact Hnd|].
  apply IH. unfold Nx.add_seen. destruct (Nx.mem w acc) eqn:E; [exact Hnd|].
  apply mem_false in E. apply NoDup_ListNoDup, NoDup_app.
  split; [now apply NoDup_ListNoDup|]. split.
  - intros x Hx Hx'. apply list_elem_of_In in Hx, Hx'.
    destruct Hx' as [<-|[]]. contradiction.
  - apply NoDup_singleton.
Qed.

Lemma add_all_grows (l acc : list string) :
  fold_left Nx.add_seen l acc = acc
  \/ (List.length acc < List.length (fold_left Nx.add_seen l acc))%nat.
Proof.
  revert acc. induction l as [|w l IH]; intros acc; simpl; [now left|].
  assert (H : Nx.add_seen acc w = acc \/ Nx.add_seen acc w = acc ++ [w])
    by (unfold Nx.add_seen; destruct (Nx.mem w acc); auto).
  destruct H as [-> | ->]; [apply IH|].
  right. destruct (IH (acc ++ [w])) as [-> | H].
  - rewrite length_app. simpl. lia.
  - rewrite length_app in H. simpl in H. lia.
Qed.

Lemma expand_In (G : Nx.DiGraph) (seen : list string) (x : string) :
  In x (Nx.expand G seen) <->
  In x seen \/ exists u, In u seen /\ edge G u x.
Proof.
  unfold Nx.expand. rewrite (add_all_In _ seen x), in_flat_map.
  split; (intros [H|(u & Hu & H)]; [now left | right; exists u]);
    (split; [exact Hu | now apply successors_In]).
Qed.

Lemma bfs_stable (k : nat) (G : Nx.DiGraph) (seen : list string) :
  Nx.expand G seen = seen -> Nx.bfs k G seen = seen.
Proof.
  intros H. induction k as [|k IH]; simpl; [reflexivity | now rewrite H].
Qed.

Lemma bfs_progress (G : Nx.DiGraph) (k : nat) (seen : list string) :
  Nx.expand G (Nx.bfs k G seen) = Nx.bfs k G seen
  \/ (List.length seen + k <= List.length (Nx.bfs k G seen))%nat.
Proof.
  revert seen. induction k as [|k IH]; intros seen; simpl; [right; lia|].
  destruct (add_all_grows (flat_map (Nx.successors G) seen) seen) as [E|Hlt];
    fold (Nx.expand G seen) in *.
  - left. rewrite E, (bfs_stable k G seen E). exact E.
  - destruct (IH (Nx.expand G seen)) as [H|H]; [now left | right; lia].
Qed.

Lemma bfs_sound (G : Nx.DiGraph) (s : string) (k : nat) (seen : list string) :
  (forall x, In x seen -> reachable G s x) ->
  forall x, In x (Nx.bfs k G seen) -> reachable G s x.
Proof.
  revert seen. induction k as [|k IH]; intros seen Hseen x; simpl; [apply Hseen|].
  apply IH. intros y Hy. apply expand_In in Hy as [Hy|(u & Hu & Huy)].
  - now apply Hseen.
  - eapply rtc_r; [apply Hseen, Hu | exact Huy].
Qed.

Lemma bfs_invariant (G : Nx.DiGraph) (k : nat) (seen : list string) :
  closed_graph G -> List.NoDup seen -> incl seen (Nx.nodes G) ->
  List.NoDup (Nx.bfs k G seen) /\ incl (Nx.bfs k G seen) (Nx.nodes G)
  /\ incl seen (Nx.bfs k G seen).
Proof.
  intros HG. revert seen. induction k as [|k IH]; intros seen Hnd Hincl; simpl.
  - repeat split; [assumption.. | apply incl_refl].
  - destruct (IH (Nx.expand G seen)) as (H1 & H2 & H3).
    + now apply add_all_NoDup.
    + intros x Hx. apply expand_In in Hx as [Hx|(u & Hu & Hux)].
      * now apply Hincl.
      * now apply (HG u x).
    + repeat split; [assumption..|].
      intros x Hx. apply H3, expand_In. now left.
Qed.

Lemma bfs_complete (G : Nx.DiGraph) (s t : string) :
  closed_graph G -> In s (Nx.nodes G) -> reachable G s t ->
  In t (Nx.bfs (List.length (Nx.nodes G)) G [s]).
Proof.
  intros HG Hs Hreach.
  set (n := List.length (Nx.nodes G)).
  destruct (bfs_invariant G n [s] HG) as (Hnd & Hincl & Hstart).
  { constructor; [simpl; tauto | constructor]. }
  { intros x [<-|[]]. exact Hs. }
  assert (Hclosed : Nx.expand G (Nx.bfs n G [s]) = Nx.bfs n G [s]).
  { destruct (bfs_progress G n [s]) as [H|H]; [exact H|].
    pose proof (NoDup_incl_length Hnd Hincl). simpl in H. fold n in H0. lia. }
  revert t Hreach. unfold reachable.
  apply (rtc_ind_r (fun t => In t (Nx.bfs n G [s]))).
  - apply Hstart. now left.
  - intros y z _ Hyz IH. rewrite <- Hclosed. apply expand_In. right.
    exists y. split; [exact IH | exact Hyz].
Qed.

Lemma has_path_reachable (G : Nx.DiGraph) (s t : string) :
  closed_graph G -> In s (Nx.nodes G) -> In t (Nx.nodes G) ->
  exists b, Nx.has_path G s t = Some b /\ (b = true <-> reachable G s t).
Proof.
  intros HG Hs Ht. unfold Nx.has_path, Nx.has_node.
  rewrite (proj2 (mem_In s _) Hs), (proj2 (mem_In t _) Ht). simpl.
  eexists. split; [reflexivity|]. rewrite mem_In. split.
  - apply bfs_sound. intros x [<-|[]]. apply rtc_refl.
  - now apply bfs_complete.
Qed.

End NxFacts.
Import NxFacts.

(** ** Impact analysis *)

Lemma reachable_node (G : Nx.DiGraph) (s t : string) :
  closed_graph G -> reachable G s t -> t = s \/ In t (Nx.nodes G).
Proof.
  intros HG. revert t. unfold reachable.
  apply (rtc_ind_r (fun t => t = s \/ In t (Nx.nodes G))).
  - now left.
  - intros y z _ Hyz _. right. now apply (HG y z).
Qed.

Lemma impact_loop (G : Nx.DiGraph) (M : string) (l : list string)
    (acc : gset string) :
  closed_graph G -> In M (Nx.nodes G) -> incl l (Nx.nodes G) ->
  exists S, for_each (impact_step G M) l acc = Some S /\
    forall x, x ∈ S <-> x ∈ acc \/ (In x l /\ x <> M /\ reachable G M x).
Proof.
  intros HG HM. revert acc. induction l as [|y l IH]; intros acc Hl; simpl.
  - exists acc. split; [reflexivity|]. intros x. tauto.
  - assert (Hy : In y (Nx.nodes G)) by (apply Hl; now left).
    assert (Hl' : incl l (Nx.nodes G)) by (intros z Hz; apply Hl; now right).
    unfold impact_step at 1.
    destruct (String.eqb_spec y M) as [->|Hne]; simpl.
    + destruct (IH acc Hl') as (S & -> & HS). exists S. split; [reflexivity|].
      intros x. rewrite HS. intuition; subst; congruence.
    + destruct (has_path_reachable G M y HG HM Hy) as (b & -> & Hb). simpl.
      destruct b.
      * destruct (IH (acc ∪ {[y]}) Hl') as (S & -> & HS). exists S.
        split; [reflexivity|]. intros x. rewrite HS, elem_of_union, elem_of_singleton.
        assert (reachable G M y) by now apply Hb.
        intuition; subst; auto.
      * destruct (IH acc Hl') as (S & -> & HS). exists S. split; [reflexivity|].
        intros x. rewrite HS.
        assert (~ reachable G M y) by (intros H; apply Hb in H; discriminate).
        intuition; subst; tauto.
Qed.

(** C1. For a registered module [M], impact analysis on the built graph
    returns exactly the modules reachable from [M] along directed edges,
    [M] itself left out; [M] is never in its own impact set. (The search
    [has_path] is the model of the graph package.) *)
Theorem C1_impact_set_is_reachability (reg : Registry) (M : string) :
  Dict.mem M reg = true ->
  exists S, analyze_impact reg (build_dependency_graph reg) M = Some S /\
    (forall x, x ∈ S <-> x <> M /\ reachable (build_dependency_graph reg) M x) /\
    M ∉ S.
Proof.
  intros HM. destruct (build_dependency_graph_ok reg) as [HG Hnodes].
  unfold analyze_impact. rewrite HM. simpl.
  apply DictFacts.mem_keys in HM.
  destruct (impact_loop (build_dependency_graph reg) M (Dict.keys reg) ∅ HG)
    as (S & HS & Hiff).
  - now apply Hnodes.
  - intros x Hx. now apply Hnodes.
  - exists S. split; [exact HS|].
    assert (Hchar : forall x, x ∈ S <->
              x <> M /\ reachable (build_dependency_graph reg) M x).
    { intros x. rewrite Hiff. split.
      - intros [H|H]; [now apply not_elem_of_empty in H | tauto].
      - intros [Hne Hr]. right. repeat split; try assumption.
        destruct (reachable_node _ _ _ HG Hr) as [->|Hin]; [congruence|].
        now apply Hnodes. }
    split; [exact Hchar|]. intros H. apply Hchar in H. tauto.
Qed.

(** ** Walks, simple paths *)

Lemma walk_app (G : Nx.DiGraph) (l1 l2 : list string) (x : string) :
  walk G (l1 ++ x :: l2) <-> walk G (l1 ++ [x]) /\ walk G (x :: l2).
Proof.
  induction l1 as [|a l1 IH]; simpl.
  - tauto.
  - destruct l1 as [|b l1]; simpl in *.
    + tauto.
    + rewrite IH. tauto.
Qed.

Lemma walk_cons (G : Nx.DiGraph) (u v : string) (l : list string) :
  walk G (u :: v :: l) <-> edge G u v /\ walk G (v :: l).
Proof. reflexivity. Qed.

Lemma walk_snoc (G : Nx.DiGraph) (l : list string) (u v : string) :
  walk G (l ++ [u]) -> edge G u v -> walk G ((l ++ [u]) ++ [v]).
Proof.
  intros Hw He. rewrite <- app_assoc. simpl.
  apply walk_app. split; [exact Hw | simpl; tauto].
Qed.

Lemma walk_nodes (G : Nx.DiGraph) (v : string) (q : list string) :
  closed_graph G -> walk G (v :: q) -> incl q (Nx.nodes G).
Proof.
  intros HG. revert v. induction q as [|w q IH]; intros v Hw x Hx.
  - destruct Hx.
  - apply walk_cons in Hw as [He Hw]. destruct Hx as [<-|Hx].
    + now apply (HG v w).
    + now apply (IH w).
Qed.

Lemma last_cons_cons {A} (x y : A) (l : list A) :
  last (x :: y :: l) = last (y :: l).
Proof. reflexivity. Qed.

Lemma last_In {A} (l : list A) (x : A) : last l = Some x -> In x l.
Proof.
  induction l as [|a l IH]; [discriminate|].
  destruct l as [|b l].
  - intros [= ->]. now left.
  - rewrite last_cons_cons. intros H. right. now apply IH.
Qed.

Lemma last_snoc_eq {A} (l : list A) (x : A) : last (l ++ [x]) = Some x.
Proof.
  induction l as [|a l IH]; [reflexivity|].
  simpl app. destruct (l ++ [x]) eqn:E.
  - now destruct l.
  - rewrite last_cons_cons. exact IH.
Qed.

Section Paths.

Variable G : Nx.DiGraph.
Variable target : string.

Lemma paths_from_sound (d : nat) :
  forall (pre : list string) (v : string) (p : list string),
    List.NoDup (v :: pre) -> walk G (rev (v :: pre)) ->
    In p (Nx.paths_from d G target (v :: pre) v) ->
    List.NoDup p /\ walk G p /\ last p = Some target
    /\ exists q, p = rev (v :: pre) ++ q.
Proof.
  induction d as [|d IH]; intros pre v p Hnd Hw Hin;
    cbn [Nx.paths_from] in Hin; [destruct Hin|].
  apply in_flat_map in Hin as (child & Hchild & Hin).
  apply successors_In in Hchild.
  destruct (Nx.mem child (v :: pre)) eqn:Hmem; [destruct Hin|].
  apply mem_false in Hmem.
  assert (Hnd' : List.NoDup (child :: v :: pre)) by now constructor.
  assert (Hw' : walk G (rev (child :: v :: pre))).
  { change (rev (child :: v :: pre)) with (rev (v :: pre) ++ [child]).
    simpl rev in *. now apply walk_snoc. }
  destruct (String.eqb_spec child target) as [->|Hne].
  - destruct Hin as [<-|[]]. repeat split.
    + now apply NoDup_rev.
    + exact Hw'.
    + change (rev (target :: v :: pre)) with (rev (v :: pre) ++ [target]).
      apply last_snoc_eq.
    + now exists [target].
  - destruct (IH (v :: pre) child p Hnd' Hw' Hin) as (H1 & H2 & H3 & q & Hq).
    repeat split; try assumption.
    exists (child :: q). rewrite Hq.
    change (rev (child :: v :: pre)) with (rev (v :: pre) ++ [child]).
    now rewrite <- app_assoc.
Qed.

Lemma paths_from_complete (q : list string) :
  forall (d : nat) (pre : list string) (v : string),
    (List.length q <= d)%nat -> q <> [] -> walk G (v :: q) ->
    List.NoDup q -> (forall x, In x q -> ~ In x (v :: pre)) ->
    last q = Some target ->
    In (rev (v :: pre) ++ q) (Nx.paths_from d G target (v :: pre) v).
Proof.
  induction q as [|w q IH]; intros d pre v Hlen Hne Hw Hnd Hfresh Hlast;
    [congruence|].
  destruct d as [|d]; [simpl in Hlen; lia|]. simpl in Hlen.
  apply walk_cons in Hw as [He Hw].
  inversion Hnd as [|? ? Hwq Hndq]; subst.
  cbn [Nx.paths_from]. apply in_flat_map. exists w.
  split; [now apply successors_In|].
  assert (Hmem : Nx.mem w (v :: pre) = false)
    by (apply mem_false, Hfresh; now left).
  rewrite Hmem.
  destruct (String.eqb_spec w target) as [->|Hwt].
  - destruct q as [|w' q].
    + left. simpl. now rewrite <- app_assoc.
    + exfalso. apply Hwq. apply last_In. now rewrite <- last_cons_cons with (x := target).
  - destruct q as [|w' q]; [simpl in Hlast; congruence|].
    replace (rev (v :: pre) ++ w :: w' :: q)
      with (rev (w :: v :: pre) ++ w' :: q)
      by (simpl; now rewrite <- !app_assoc).
    apply IH; try assumption.
    + lia.
    + discriminate.
    + intros x Hx [<-|Hin]; [contradiction|].
      apply (Hfresh x); [now right | exact Hin].
Qed.

End Paths.

Lemma all_simple_paths_spec (G : Nx.DiGraph) (s t : string) :
  closed_graph G -> In s (Nx.nodes G) -> In t (Nx.nodes G) -> s <> t ->
  exists ps, Nx.all_simple_paths G s t = Some ps /\
    forall p, In p ps <-> simple_path G s t p.
Proof.
  intros HG Hs Ht Hst. unfold Nx.all_simple_paths, Nx.has_node.
  rewrite (proj2 (mem_In s _) Hs), (proj2 (mem_In t _) Ht). simpl.
  eexists. split; [reflexivity|]. intros p. split.
  - intros Hin. apply paths_from_sound in Hin as (H1 & H2 & H3 & q & ->).
    + repeat split; assumption.
    + constructor; [simpl; tauto | constructor].
    + exact I.
  - intros (Hnd & Hw & Hhd & Hlast).
    destruct p as [|s' q]; [discriminate|]. injection Hhd as ->.
    inversion Hnd as [|? ? Hsq Hndq]; subst.
    assert (Hq : q <> []) by (intros ->; simpl in Hlast; congruence).
    change (s :: q) with (rev [s] ++ q).
    apply paths_from_complete; try assumption.
    + apply NoDup_incl_length; [exact Hndq | now apply (walk_nodes G s)].
    + intros x Hx [<-|[]]. contradiction.
    + destruct q; [congruence | exact Hlast].
Qed.

(** ** Dependency paths *)

Lemma for_each_app {S A} (body : S -> A -> option S) (l1 l2 : list A) (s : S) :
  for_each body (l1 ++ l2) s
  = match for_each body l1 s with
    | Some s' => for_each body l2 s'
    | None => None
    end.
Proof.
  revert s. induction l1 as [|x l1 IH]; intros s; simpl; [reflexivity|].
  destruct (body s x); [apply IH | reflexivity].
Qed.

Lemma path_step_get (G : Nx.DiGraph) (d d' : Dict.t (list (list string)))
    (a b k : string) :
  path_step G d (a, b) = Some d' ->
  Dict.get k d' = Dict.get k d
  \/ (a <> b /\ k = path_key a b /\
      exists ps, Nx.all_simple_paths G a b = Some ps /\ ps <> []
                 /\ Dict.get k d' = Some ps).
Proof.
  unfold path_step. destruct (String.eqb_spec a b) as [->|Hne]; simpl.
  - intros [= <-]. now left.
  - destruct (Nx.all_simple_paths G a b) as [ps|]; simpl; [|discriminate].
    destruct ps as [|p ps]; intros [= <-]; [now left|].
    rewrite DictFacts.get_set.
    destruct (String.eqb_spec k (path_key a b)) as [->|Hk]; [|now left].
    right. repeat split; try assumption. exists (p :: ps).
    repeat split; [discriminate].
Qed.

Lemma paths_loop_absent (G : Nx.DiGraph) (l : list (string * string))
    (d d' : Dict.t (list (list string))) (k : string) :
  for_each (path_step G) l d = Some d' ->
  (forall a b ps, In (a, b) l -> a <> b -> path_key a b = k ->
                  Nx.all_simple_paths G a b = Some ps -> ps = []) ->
  Dict.get k d' = Dict.get k d.
Proof.
  intros Hrun Hnone.
  apply (for_each_invariant (fun d' => Dict.get k d' = Dict.get k d)
           (path_step G) l d d'); [reflexivity | | exact Hrun].
  intros d1 [a b] d2 Hin Hd1 Hstep.
  destruct (path_step_get G d1 d2 a b k Hstep) as [->|(Hne & -> & ps & Hps & Hnil & _)];
    [exact Hd1|].
  exfalso. apply Hnil. now apply (Hnone a b).
Qed.

Lemma paths_loop_present (G : Nx.DiGraph) (l : list (string * string))
    (d d' : Dict.t (list (list string))) (s t : string) (ps : list (list string)) :
  for_each (path_step G) l d = Some d' ->
  In (s, t) l -> s <> t ->
  Nx.all_simple_paths G s t = Some ps -> ps <> [] ->
  (forall a b, In (a, b) l -> a <> b -> path_key a b = path_key s t ->
               a = s /\ b = t) ->
  Dict.get (path_key s t) d' = Some ps.
Proof.
  intros Hrun Hin Hst Hps Hne Hinj.
  apply in_split in Hin as (l1 & l2 & ->).
  rewrite for_each_app in Hrun.
  destruct (for_each (path_step G) l1 d) as [d1|]; [|discriminate].
  cbn [for_each] in Hrun.
  destruct (path_step G d1 (s, t)) as [d2|] eqn:Hstep; [|discriminate].
  assert (Hd2 : Dict.get (path_key s t) d2 = Some ps).
  { unfold path_step in Hstep. rewrite Hps in Hstep.
    destruct (String.eqb_spec s t); [contradiction|]. simpl in Hstep.
    destruct ps; [congruence|]. injection Hstep as <-.
    now rewrite DictFacts.get_set, String.eqb_refl. }
  apply (for_each_invariant (fun d' => Dict.get (path_key s t) d' = Some ps)
           (path_step G) l2 d2 d'); [exact Hd2 | | exact Hrun].
  intros d3 [a b] d4 Hin Hd3 Hstep'.
  destruct (path_step_get G d3 d4 a b (path_key s t) Hstep')
    as [->|(Hab & Hk & ps' & Hps' & _ & Hget)]; [exact Hd3|].
  destruct (Hinj a b) as [-> ->]; [apply in_app_iff; right; now right | exact Hab | now symmetry |].
  congruence.
Qed.

Lemma In_pairs (l : list string) (s t : string) :
  In (s, t) (flat_map (fun s => List.map (pair s) l) l) <-> In s l /\ In t l.
Proof.
  rewrite in_flat_map. split.
  - intros (x & Hx & H). apply in_map_iff in H as (y & E & Hy).
    injection E as -> ->. tauto.
  - intros [Hs Ht]. exists s. split; [exact Hs|]. now apply in_map.
Qed.

Lemma analyze_dependency_paths_total (reg : Registry) :
  exists paths,
    analyze_dependency_paths reg (build_dependency_graph reg) = Some paths.
Proof.
  destruct (build_dependency_graph_ok reg) as [HG Hnodes].
  unfold analyze_dependency_paths.
  destruct (for_each_total (fun _ => True)
              (path_step (build_dependency_graph reg))
              (flat_map (fun s => List.map (pair s) (Dict.keys reg)) (Dict.keys reg))
              []) as (paths & Hp & _); [exact I | | now exists paths].
  intros d [a b] Hin _. apply In_pairs in Hin as [Ha Hb].
  unfold path_step. destruct (negb (a =? b)%string); [|now eexists].
  unfold Nx.all_simple_paths, Nx.has_node.
  rewrite (proj2 (mem_In a _) (proj2 (Hnodes a) Ha)),
          (proj2 (mem_In b _) (proj2 (Hnodes b) Hb)).
  simpl. destruct (Nx.paths_from _ _ _ _ _); now eexists.
Qed.


Lemma append_nil_l (t : string) : EmptyString +:+ t = t.
Proof. reflexivity. Qed.

Lemma append_cons_l (c : ascii) (s t : string) :
  String c s +:+ t = String c (s +:+ t).
Proof. reflexivity. Qed.

(** The key of a pair tells the pair when the source names hold no [>]. *)
Lemma path_key_inj (s s' t t' : string) :
  no_gt s -> no_gt s' -> path_key s t = path_key s' t' -> s = s' /\ t = t'.
Proof.
  unfold path_key. revert s'.
  induction s as [|c s IH]; intros [|c' s'] Hs Hs' H;
    repeat first [rewrite append_nil_l in H | rewrite append_cons_l in H]; cbn [no_gt] in *.
  - injection H as ->. tauto.
  - injection H as <- H. destruct s' as [|c2 s'];
      repeat first [rewrite append_nil_l in H | rewrite append_cons_l in H]; cbn [no_gt] in *.
    + discriminate.
    + injection H as <- _. tauto.
  - injection H as -> H. destruct s as [|c2 s];
      repeat first [rewrite append_nil_l in H | rewrite append_cons_l in H]; cbn [no_gt] in *.
    + discriminate.
    + injection H as -> _. tauto.
  - injection H as -> H. destruct (IH s') as [-> ->]; tauto.
Qed.

(** C7, as amended. For an ordered pair of distinct registered modules
    whose key ["source->target"] no other ordered pair of distinct
    registered modules renders to: the run of the path analysis returns,
    the result holds the key exactly when a simple path from source to
    target exists, its value then lists all the simple paths and only
    them, and a pair without a path leaves no entry. (The enumeration
    [all_simple_paths] is the model of the graph package.) *)
Theorem C7_dependency_paths (reg : Registry) (s t : string) :
  In s (Dict.keys reg) -> In t (Dict.keys reg) -> s <> t ->
  (forall a b, In a (Dict.keys reg) -> In b (Dict.keys reg) -> a <> b ->
               path_key a b = path_key s t -> a = s /\ b = t) ->
  exists paths,
    analyze_dependency_paths reg (build_dependency_graph reg) = Some paths /\
    ((exists p, simple_path (build_dependency_graph reg) s t p) ->
     exists ps, Dict.get (path_key s t) paths = Some ps /\
       forall p, In p ps <-> simple_path (build_dependency_graph reg) s t p) /\
    (~ (exists p, simple_path (build_dependency_graph reg) s t p) ->
     Dict.get (path_key s t) paths = None).
Proof.
  intros Hs Ht Hst Hinj.
  destruct (build_dependency_graph_ok reg) as [HG Hnodes].
  destruct (analyze_dependency_paths_total reg) as (paths & Hrun).
  exists paths. split; [exact Hrun|].
  unfold analyze_dependency_paths in Hrun.
  destruct (all_simple_paths_spec (build_dependency_graph reg) s t HG)
    as (ps & Hps & Hiff); [now apply Hnodes | now apply Hnodes | exact Hst |].
  split.
  - intros (p & Hp). exists ps. split; [|exact Hiff].
    eapply paths_loop_present; try eassumption.
    + now apply In_pairs.
    + intros ->. now apply Hiff in Hp.
    + intros a b Hin. apply In_pairs in Hin as [Ha Hb]. now apply Hinj.
  - intros Hnone.
    change None with (Dict.get (path_key s t) (@nil (string * list (list string)))).
    eapply paths_loop_absent; [exact Hrun|].
    intros a b ps' Hin Hab Hk Hps'. apply In_pairs in Hin as [Ha Hb].
    destruct (Hinj a b Ha Hb Hab Hk) as [-> ->].
    assert (ps' = ps) as -> by congruence.
    destruct ps as [|p ps]; [reflexivity|].
    exfalso. apply Hnone. exists p. apply Hiff. now left.
Qed.

(** C7 at the 3-cycle: the key [A->C] holds the one path through [B]. *)
Lemma C7_dependency_paths_witness :
  exists paths,
    analyze_dependency_paths (build_registry Examples.cycle_files [])
      (build_dependency_graph (build_registry Examples.cycle_files []))
    = Some paths /\
    ((exists p, simple_path
                  (build_dependency_graph (build_registry Examples.cycle_files []))
                  "A" "C" p) ->
     exists ps, Dict.get (path_key "A" "C") paths = Some ps /\
       forall p, In p ps <->
                 simple_path
                   (build_dependency_graph (build_registry Examples.cycle_files []))
                   "A" "C" p) /\
    (~ (exists p, simple_path
                    (build_dependency_graph (build_registry Examples.cycle_files []))
                    "A" "C" p) ->
     Dict.get (path_key "A" "C") paths = None).
Proof.
  assert (Hkeys : Dict.keys (build_registry Examples.cycle_files [])
                  = ["A"; "B"; "C"]) by (vm_compute; reflexivity).
  apply (C7_dependency_paths (build_registry Examples.cycle_files []) "A" "C").
  - rewrite Hkeys. simpl. tauto.
  - rewrite Hkeys. simpl. tauto.
  - discriminate.
  - rewrite Hkeys. intros a b Ha Hb Hab Hk.
    destruct Ha as [<-|[<-|[<-|[]]]]; destruct Hb as [<-|[<-|[<-|[]]]];
      try discriminate Hk; tauto.
Defined.

(** C7 as stated fails where two pairs share a key: with the directories
    [a], [b->c], [a->b] and [c], the one edge goes from [a->b] to [c]; the
    result holds the key of the pair ([a], [b->c]), which has no path. *)
Lemma C7_key_collision :
  In "a" (Dict.keys (build_registry Examples.collision_files [])) /\
  In "b->c" (Dict.keys (build_registry Examples.collision_files [])) /\
  "a" <> "b->c" /\
  analyze_dependency_paths (build_registry Examples.collision_files [])
    (build_dependency_graph (build_registry Examples.collision_files []))
  = Some [(path_key "a" "b->c", [["a->b"; "c"]])] /\
  ~ exists p,
      simple_path
        (build_dependency_graph (build_registry Examples.collision_files []))
        "a" "b->c" p.
Proof.
  assert (Hkeys : Dict.keys (build_registry Examples.collision_files [])
                  = ["a"; "b->c"; "a->b"; "c"]) by (vm_compute; reflexivity).
  assert (HG : build_dependency_graph (build_registry Examples.collision_files [])
               = {| Nx.nodes := ["a"; "b->c"; "a->b"; "c"];
                    Nx.edges := [("a->b", "c")] |}) by (vm_compute; reflexivity).
  assert (Hrun : analyze_dependency_paths
                   (build_registry Examples.collision_files [])
                   (build_dependency_graph (build_registry Examples.collision_files []))
                 = Some [(path_key "a" "b->c", [["a->b"; "c"]])])
    by (vm_compute; reflexivity).
  rewrite Hrun, Hkeys, HG.
  split; [simpl; tauto|]. split; [simpl; tauto|]. split; [discriminate|].
  split; [reflexivity|].
  intros (p & _ & Hw & Hhd & Hlast).
  destruct p as [|x p]; [discriminate|]. injection Hhd as ->.
  destruct p as [|y p]; [discriminate|]. apply walk_cons in Hw as [He _].
  unfold edge in He. simpl in He. destruct He as [E|[]]. discriminate E.
Qed.

(** ** Elementary cycles *)

Section Cycles.

Variable G : Nx.DiGraph.
Variable root : string.
Variable allowed : list string.

Lemma cycles_from_complete (q : list string) :
  forall (d : nat) (pre : list string) (v : string),
    (List.length q < d)%nat -> walk G (v :: q ++ [root]) -> List.NoDup q ->
    (forall x, In x q -> ~ In x (v :: pre) /\ x <> root /\ In x allowed) ->
    In (rev (v :: pre) ++ q)
       (Nx.cycles_from d G root allowed (v :: pre) v).
Proof.
  induction q as [|w q IH]; intros d pre v Hlen Hw Hnd Hq;
    (destruct d as [|d]; [simpl in Hlen; lia|]);
    cbn [Nx.cycles_from]; apply in_flat_map.
  - exists root. split.
    + apply successors_In. now destruct Hw.
    + rewrite String.eqb_refl, app_nil_r. now left.
  - simpl app in Hw. apply walk_cons in Hw as [He Hw].
    exists w. split; [now apply successors_In|].
    destruct (Hq w) as (Hfresh & Hroot & Hallowed); [now left|].
    apply String.eqb_neq in Hroot. rewrite Hroot.
    rewrite (proj2 (mem_false w _) Hfresh), (proj2 (mem_In w _) Hallowed).
    cbn [orb negb].
    replace (rev (v :: pre) ++ w :: q) with (rev (w :: v :: pre) ++ q)
      by (simpl; now rewrite <- !app_assoc).
    inversion Hnd as [|? ? Hwq Hndq]; subst.
    apply IH; try assumption.
    + simpl in Hlen. lia.
    + intros x Hx. destruct (Hq x) as (H1 & H2 & H3); [now right|].
      repeat split; try assumption.
      intros [<-|Hin]; [contradiction | now apply H1].
Qed.

End Cycles.

Lemma rotation_same_nodes (c r : list string) :
  rotation c r -> forall x, In x r <-> In x c.
Proof.
  intros (a & b & -> & ->) x. rewrite !in_app_iff. tauto.
Qed.

Lemma elementary_cycle_rotate (G : Nx.DiGraph) (a b : list string) (v : string) :
  elementary_cycle G (a ++ v :: b) ->
  List.NoDup (b ++ a) /\ ~ In v (b ++ a) /\ walk G (v :: (b ++ a) ++ [v]).
Proof.
  intros Hc.
  assert (Hnd : List.NoDup (a ++ v :: b)) by (destruct a; apply Hc).
  apply NoDup_remove in Hnd as [Hnd Hv].
  repeat split.
  - apply NoDup_ListNoDup. apply NoDup_ListNoDup in Hnd.
    apply NoDup_app in Hnd as (Ha & Hab & Hb). apply NoDup_app.
    repeat split; try assumption. intros x Hx Hx'. now apply (Hab x).
  - rewrite in_app_iff in *. tauto.
  - destruct a as [|h a]; destruct Hc as [_ Hw].
    + rewrite app_nil_r. exact Hw.
    + rewrite <- app_assoc in Hw.
      change ((v :: b) ++ [h]) with (v :: (b ++ [h])) in Hw.
      apply walk_app in Hw as [H1 H2].
      rewrite <- app_assoc.
      change (v :: b ++ (h :: a) ++ [v]) with ((v :: b) ++ h :: (a ++ [v])).
      apply walk_app. split; [exact H2 | exact H1].
Qed.

Lemma cycles_over_complete (G : Nx.DiGraph) (todo : list string) :
  forall c, elementary_cycle G c -> incl c todo ->
    exists r, rotation c r /\ In r (Nx.cycles_over G todo).
Proof.
  induction todo as [|v rest IH]; intros c Hc Hincl.
  - destruct c as [|x c]; [destruct Hc|]. destruct (Hincl x). now left.
  - cbn [Nx.cycles_over]. destruct (in_dec string_dec v c) as [Hv|Hv].
    + apply in_split in Hv as (a & b & ->).
      destruct (elementary_cycle_rotate G a b v Hc) as (Hnd & Hfresh & Hw).
      exists (v :: b ++ a). split; [exists a, (v :: b); now split|].
      apply in_app_iff. left.
      assert (Hrest : incl (b ++ a) rest).
      { intros x Hx. destruct (Hincl x) as [<-|H]; [|contradiction | exact H].
        rewrite in_app_iff in *. simpl. tauto. }
      change (v :: b ++ a) with (rev [v] ++ (b ++ a)).
      apply cycles_from_complete; try assumption.
      * pose proof (NoDup_incl_length Hnd Hrest). lia.
      * intros x Hx. repeat split.
        -- intros [<-|[]]. contradiction.
        -- intros ->. contradiction.
        -- now apply Hrest.
    + destruct (IH c Hc) as (r & Hr & Hin).
      * intros x Hx. destruct (Hincl x Hx) as [<-|H]; [contradiction | exact H].
      * exists r. split; [exact Hr|]. apply in_app_iff. now right.
Qed.

Lemma elementary_cycle_nodes (G : Nx.DiGraph) (c : list string) :
  closed_graph G -> elementary_cycle G c -> incl c (Nx.nodes G).
Proof.
  intros HG Hc. destruct c as [|v c]; [destruct Hc|]. destruct Hc as [_ Hw].
  simpl in Hw. pose proof (walk_nodes G v (c ++ [v]) HG Hw) as H.
  intros x [<-|Hx]; apply H, in_app_iff; [right; now left | now left].
Qed.

(** C2. For every elementary cycle [c] of the built graph, cycle
    detection returns a rotation of [c] (so a cycle with exactly the nodes
    of [c]): the enumeration is complete. A self-loop [[v]] is a cycle of
    length 1 and is returned as such. (The enumeration [simple_cycles] is
    the model of the graph package.) *)
Theorem C2_all_elementary_cycles (reg : Registry) (c : list string) :
  elementary_cycle (build_dependency_graph reg) c ->
  (exists r, rotation c r /\ (forall x, In x r <-> In x c) /\
             In r (detect_circular_dependencies (build_dependency_graph reg)))
  /\ (forall v, c = [v] ->
                In [v] (detect_circular_dependencies (build_dependency_graph reg))).
Proof.
  intros Hc. destruct (build_dependency_graph_ok reg) as [HG _].
  destruct (cycles_over_complete (build_dependency_graph reg)
              (Nx.nodes (build_dependency_graph reg)) c Hc) as (r & Hr & Hin).
  { now apply elementary_cycle_nodes. }
  split.
  - exists r. split; [exact Hr|]. split; [|exact Hin].
    now apply rotation_same_nodes.
  - intros v ->. destruct Hr as (a & b & Hab & ->).
    destruct a as [|x a].
    + simpl in Hab. subst b. now rewrite app_nil_r in Hin.
    + injection Hab as <- Hab. symmetry in Hab.
      apply app_eq_nil in Hab as [-> ->]. exact Hin.
Qed.

(** C2 at the synthetic 3-cycle A -> B -> C -> A, entered at [B]: the
    result holds a cycle whose nodes are exactly A, B and C. *)
Lemma C2_three_cycle_witness :
  (exists r, rotation ["B"; "C"; "A"] r /\
             (forall x, In x r <-> In x ["B"; "C"; "A"]) /\
             In r (detect_circular_dependencies
                     (build_dependency_graph (build_registry Examples.cycle_files []))))
  /\ (forall v, ["B"; "C"; "A"] = [v] ->
                In [v] (detect_circular_dependencies
                          (build_dependency_graph
                             (build_registry Examples.cycle_files [])))).
Proof.
  apply (C2_all_elementary_cycles (build_registry Examples.cycle_files [])).
  assert (HG : build_dependency_graph (build_registry Examples.cycle_files [])
               = {| Nx.nodes := ["A"; "B"; "C"];
                    Nx.edges := [("C", "A"); ("A", "B"); ("B", "C")] |})
    by (vm_compute; reflexivity).
  rewrite HG. split.
  - repeat constructor; simpl; intuition discriminate.
  - repeat split; cbv [edge Nx.edges]; simpl; auto 10.
Defined.

(** C1 at the chain a -> b: the impact set of [a]. *)
Lemma C1_impact_witness :
  exists S,
    analyze_impact (build_registry Examples.chain_files [])
      (build_dependency_graph (build_registry Examples.chain_files [])) "a"
    = Some S /\
    (forall x, x ∈ S <->
       x <> "a" /\
       reachable (build_dependency_graph (build_registry Examples.chain_files []))
                 "a" x) /\
    "a" ∉ S.
Proof.
  apply (C1_impact_set_is_reachability (build_registry Examples.chain_files []) "a").
  vm_compute. reflexivity.
Defined.

(** ** The complexity scorer *)

(** C8. Appending one element to the direct dependencies, to the
    Terragrunt dependencies or to the data sources of a descriptor, all
    else equal, strictly increases the score the scorer returns. *)
Theorem C8_score_strictly_monotone (m : ModuleInfo) (d : string) (s : Z) :
  _calculate_complexity_score m = Some s ->
  (exists s1, _calculate_complexity_score (append_dependency d m) = Some s1
              /\ (s < s1)%Z) /\
  (exists s2, _calculate_complexity_score (append_terragrunt_dependency d m)
              = Some s2 /\ (s < s2)%Z) /\
  (exists s3, _calculate_complexity_score (append_data_source d m) = Some s3
              /\ (s < s3)%Z).
Proof.
  unfold _calculate_complexity_score. simpl.
  destruct (Py.len (variables m)) as [n|]; [|discriminate].
  intros [= <-]. rewrite !length_app. simpl.
  repeat split; eexists; (split; [reflexivity | lia]).
Qed.

Lemma C8_score_witness :
  (exists s1, _calculate_complexity_score
                (append_dependency "vpc" (new_module "app" (VStr EmptyString) "live/app"))
              = Some s1 /\ (1 < s1)%Z) /\
  (exists s2, _calculate_complexity_score
                (append_terragrunt_dependency "vpc"
                   (new_module "app" (VStr EmptyString) "live/app"))
              = Some s2 /\ (1 < s2)%Z) /\
  (exists s3, _calculate_complexity_score
                (append_data_source "vpc" (new_module "app" (VStr EmptyString) "live/app"))
              = Some s3 /\ (1 < s3)%Z).
Proof.
  apply (C8_score_strictly_monotone (new_module "app" (VStr EmptyString) "live/app") "vpc" 1).
  reflexivity.
Defined.

(** C3 at a Terraform file with one module block: the descriptor keeps
    the default score 0, where the formula gives 1. The loop over the
    Terraform files never calls the scorer. *)
Lemma C3_inline_module_unscored :
  exists m,
    Dict.get "vpc" (build_registry [] [Examples.inline_module_file]) = Some m /\
    complexity_score m = 0%Z /\
    Py.len (variables m) = Some 0%nat /\
    formula_score m 0 = 1%Z.
Proof. eexists. vm_compute. repeat split; reflexivity. Qed.

(** The scorer returns the value of the formula where it is called: on a
    descriptor without resources (no code path adds one). *)
Lemma score_is_formula (m : ModuleInfo) (n : nat) :
  resources m = [] -> Py.len (variables m) = Some n ->
  _calculate_complexity_score m = Some (formula_score m n).
Proof.
  intros Hr Hn. unfold _calculate_complexity_score, formula_score.
  rewrite Hr, Hn. simpl. f_equal. lia.
Qed.

(** C4 at [live/prod/vpc/terragrunt.hcl] depending on
    ["../../shared/vpc"]: the module lists itself as a dependency, a
    record with source = target is kept, and the graph has a self-loop. *)
Lemma C4_terragrunt_self_reference :
  exists m,
    Dict.get "vpc" (build_registry [Examples.self_dependency_file] []) = Some m /\
    terragrunt_dependencies m = ["vpc"] /\
    dependency_details m =
      [{| source_module := "vpc"; target_module := "vpc";
          dependency_type := "terragrunt";
          reference_path := "../../shared/vpc";
          line_number := None;
          file_path := Some "live/prod/vpc/terragrunt.hcl" |}] /\
    Nx.edges (build_dependency_graph
                (build_registry [Examples.self_dependency_file] []))
    = [("vpc", "vpc")].
Proof. eexists. vm_compute. repeat split; reflexivity. Qed.

(** ** The extractor, as one record *)

Lemma fold_module_ref_step (ty fp : string) (refs : list (string * string))
    (m : ModuleInfo) :
  fold_left (module_ref_step ty fp) refs m =
  let kept := List.filter (fun r => negb (String.eqb (fst r) (name m))) refs in
  {| name := name m; source := source m; path := path m;
     variables := variables m; outputs := outputs m;
     dependencies := dependencies m ++ List.map fst kept;
     terragrunt_dependencies := terragrunt_dependencies m;
     data_sources := data_sources m; resources := resources m;
     dependency_details :=
       dependency_details m ++ List.map (module_record ty fp (name m)) kept;
     complexity_score := complexity_score m |}.
Proof.
  revert m. induction refs as [|r refs IH]; intros m; cbn [fold_left].
  - destruct m; simpl. now rewrite !app_nil_r.
  - rewrite IH. unfold module_ref_step. cbn [List.filter].
    destruct (negb (fst r =? name m)%string); destruct m; simpl;
      [now rewrite <- !app_assoc | reflexivity].
Qed.

Lemma fold_data_ref_step (fp : string) (refs : list (string * string * string))
    (m : ModuleInfo) :
  fold_left (data_ref_step fp) refs m =
  {| name := name m; source := source m; path := path m;
     variables := variables m; outputs := outputs m;
     dependencies := dependencies m;
     terragrunt_dependencies := terragrunt_dependencies m;
     data_sources := data_sources m ++ List.map data_target refs;
     resources := resources m;
     dependency_details :=
       dependency_details m ++ List.map (data_record fp (name m)) refs;
     complexity_score := complexity_score m |}.
Proof.
  revert m. induction refs as [|r refs IH]; intros m; cbn [fold_left].
  - destruct m; simpl. now rewrite !app_nil_r.
  - rewrite IH. destruct m; simpl. now rewrite <- !app_assoc.
Qed.

Lemma fold_remote_state_step (fp : string) (refs : list (string * string))
    (m : ModuleInfo) :
  fold_left (remote_state_step fp) refs m =
  {| name := name m; source := source m; path := path m;
     variables := variables m; outputs := outputs m;
     dependencies := dependencies m;
     terragrunt_dependencies := terragrunt_dependencies m;
     data_sources := data_sources m; resources := resources m;
     dependency_details :=
       dependency_details m ++ List.map (remote_state_record fp (name m)) refs;
     complexity_score := complexity_score m |}.
Proof.
  revert m. induction refs as [|r refs IH]; intros m; cbn [fold_left].
  - destruct m; simpl. now rewrite !app_nil_r.
  - rewrite IH. destruct m; simpl. now rewrite <- !app_assoc.
Qed.

(** What [_analyze_variable_dependencies] leaves in the descriptor: the
    three passes append their records one after the other; only the
    module pass has a filter, on the name of the module itself. *)
Lemma analyze_variable_dependencies_eq (m : ModuleInfo) (vars : value)
    (fp : string) :
  _analyze_variable_dependencies m vars fp =
  let text := Py.str vars in
  let kept := List.filter (fun r => negb (String.eqb (fst r) (name m)))
                          (module_refs text) in
  {| name := name m; source := source m; path := path m;
     variables := variables m; outputs := outputs m;
     dependencies := dependencies m ++ List.map fst kept;
     terragrunt_dependencies := terragrunt_dependencies m;
     data_sources := data_sources m ++ List.map data_target (data_refs text);
     resources := resources m;
     dependency_details :=
       dependency_details m
       ++ List.map (module_record "module_output" fp (name m)) kept
       ++ List.map (data_record fp (name m)) (data_refs text)
       ++ List.map (remote_state_record fp (name m)) (remote_state_refs text);
     complexity_score := complexity_score m |}.
Proof.
  unfold _analyze_variable_dependencies.
  rewrite fold_module_ref_step, fold_data_ref_step, fold_remote_state_step.
  simpl. now rewrite <- !app_assoc.
Qed.

(** ** The patterns *)

Module ReFacts.

Lemma strip_prefix_Some (p s s' : list ascii) :
  Re.strip_prefix p s = Some s' -> s = p ++ s'.
Proof.
  revert s. induction p as [|a p IH]; intros [|b s]; simpl; try discriminate.
  - now intros [= <-].
  - now intros [= <-].
  - destruct (Ascii.eqb_spec a b) as [->|]; [|discriminate].
    intros H. now rewrite (IH s H).
Qed.

Lemma strip_prefix_app (p s : list ascii) : Re.strip_prefix p (p ++ s) = Some s.
Proof.
  induction p as [|a p IH]; simpl; [now destruct s|].
  now rewrite Ascii.eqb_refl.
Qed.

Lemma span_word_spec (s run rest : list ascii) :
  Re.span_word s = (run, rest) ->
  s = run ++ rest /\ forallb Re.word_char run = true
  /\ match rest with c :: _ => Re.word_char c = false | [] => True end.
Proof.
  revert run rest. induction s as [|c s IH]; intros run rest; simpl.
  - intros [= <- <-]. auto.
  - destruct (Re.word_char c) eqn:Hc.
    + destruct (Re.span_word s) as [run' rest'].
      intros [= <- <-]. destruct (IH run' rest' eq_refl) as (-> & H1 & H2).
      simpl. rewrite Hc. auto.
    + intros [= <- <-]. simpl. auto.
Qed.

Lemma span_word_app (w x : list ascii) (c : ascii) :
  forallb Re.word_char w = true -> Re.word_char c = false ->
  Re.span_word (w ++ c :: x) = (w, c :: x).
Proof.
  intros Hw Hc. induction w as [|a w IH]; simpl.
  - now rewrite Hc.
  - simpl in Hw. apply andb_true_iff in Hw as [-> Hw]. now rewrite (IH Hw).
Qed.

Lemma backtrack_first {A} (k : list ascii -> option A)
    (taken_rev rest : list ascii) (r : A) :
  taken_rev <> [] -> k rest = Some r ->
  Re.backtrack k taken_rev rest = Some (rev taken_rev, r).
Proof.
  intros Hne Hk. destruct taken_rev as [|c t]; [congruence|].
  cbn [Re.backtrack]. now rewrite Hk.
Qed.

Lemma backtrack_none {A} (k : list ascii -> option A) (t : list ascii) :
  (forall c x, Re.word_char c = true -> k (c :: x) = None) ->
  forallb Re.word_char t = true ->
  forall c x, Re.word_char c = true -> Re.backtrack k t (c :: x) = None.
Proof.
  intros Hk. induction t as [|a t IH]; intros Ht c x Hc; cbn [Re.backtrack].
  - reflexivity.
  - rewrite (Hk c x Hc). simpl in Ht. apply andb_true_iff in Ht as [Ha Ht].
    now apply IH.
Qed.

Lemma backtrack_inv {A} (k : list ascii -> option A)
    (taken_rev rest cap : list ascii) (r : A) :
  (forall c x, Re.word_char c = true -> k (c :: x) = None) ->
  forallb Re.word_char taken_rev = true ->
  Re.backtrack k taken_rev rest = Some (cap, r) ->
  cap = rev taken_rev /\ taken_rev <> [] /\ k rest = Some r.
Proof.
  intros Hk Hw. destruct taken_rev as [|c t]; cbn [Re.backtrack]; [discriminate|].
  simpl in Hw. apply andb_true_iff in Hw as [Hc Ht].
  destruct (k rest) as [r'|] eqn:E.
  - intros [= <- <-]. repeat split. discriminate.
  - now rewrite (backtrack_none k t Hk Ht c rest Hc).
Qed.

Lemma word_char_not_dot (c : ascii) :
  Re.word_char c = true -> Ascii.eqb "." c = false.
Proof.
  intros H. destruct (Ascii.eqb_spec "."%char c) as [<-|]; [|reflexivity].
  vm_compute in H. discriminate.
Qed.

Lemma lit_dot_stops (l : string) (items : list Re.item) (c : ascii)
    (x : list ascii) :
  Re.word_char c = true ->
  Re.match_here (Re.Lit (String "." l) :: items) (c :: x) = None.
Proof.
  intros Hc. cbn [Re.match_here Py.chars list_ascii_of_string Re.strip_prefix].
  now rewrite (word_char_not_dot c Hc).
Qed.

Lemma forallb_rev {A} (f : A -> bool) (l : list A) :
  forallb f (rev l) = forallb f l.
Proof.
  induction l as [|a l IH]; [reflexivity|]. simpl.
  rewrite forallb_app, IH. simpl. rewrite andb_true_r. apply andb_comm.
Qed.

Lemma match_here_lit (l : string) (items : list Re.item) (s : list ascii) :
  Re.match_here (Re.Lit l :: items) s
  = match Re.strip_prefix (Py.chars l) s with
    | Some s' => Re.match_here items s'
    | None => None
    end.
Proof. reflexivity. Qed.

Lemma match_here_group (items : list Re.item) (s : list ascii) :
  Re.match_here (Re.Group :: items) s
  = let '(run, rest) := Re.span_word s in
    match Re.backtrack (Re.match_here items) (rev run) rest with
    | Some (cap, (caps, s')) => Some (Py.str_of cap :: caps, s')
    | None => None
    end.
Proof. reflexivity. Qed.

Lemma match_group_word (items : list Re.item) (w x : list ascii) (c : ascii)
    (caps : list string) (r : list ascii) :
  forallb Re.word_char w = true -> w <> [] -> Re.word_char c = false ->
  Re.match_here items (c :: x) = Some (caps, r) ->
  Re.match_here (Re.Group :: items) (w ++ c :: x) = Some (Py.str_of w :: caps, r).
Proof.
  intros Hw Hne Hc Hk. rewrite match_here_group, span_word_app by assumption.
  rewrite (backtrack_first _ _ _ (caps, r)); [| | exact Hk].
  - now rewrite rev_involutive.
  - intros E. apply Hne. now rewrite <- (rev_involutive w), E.
Qed.

Lemma match_lit_dot (items : list Re.item) (x : list ascii)
    (res : option (list string * list ascii)) :
  Re.match_here items x = res ->
  Re.match_here (Re.Lit "." :: items) ("."%char :: x) = res.
Proof.
  intros <-. rewrite match_here_lit. change (Py.chars ".") with ["."%char].
  cbn [Re.strip_prefix]. now rewrite Ascii.eqb_refl.
Qed.

(** Wherever the remote-state pattern matches, the data-source pattern
    matches too: its type is [terraform_remote_state], its name the name
    of the remote state, its attribute [outputs]. *)
Lemma remote_state_match_is_data_match (s rest : list ascii) (n o : string) :
  Re.match_here Re.remote_state_pattern s = Some ([n; o], rest) ->
  exists rest',
    Re.match_here Re.data_pattern s
    = Some (["terraform_remote_state"; n; "outputs"], rest').
Proof.
  unfold Re.remote_state_pattern. rewrite match_here_lit.
  destruct (Re.strip_prefix _ s) as [s1|] eqn:Hs; [|discriminate].
  apply strip_prefix_Some in Hs. subst s.
  rewrite match_here_group.
  destruct (Re.span_word s1) as [run r1] eqn:Hspan.
  destruct (Re.backtrack _ (rev run) r1) as [[cap [caps s']]|] eqn:Hb; [|discriminate].
  intros [= <- -> ->].
  apply span_word_spec in Hspan as (-> & Hrun & _).
  apply backtrack_inv in Hb as (-> & Hne & Hk);
    [| intros c x Hc; now apply lit_dot_stops | now rewrite forallb_rev].
  rewrite rev_involutive in *.
  rewrite match_here_lit in Hk.
  destruct (Re.strip_prefix _ r1) as [s2|] eqn:Hs2; [|discriminate].
  apply strip_prefix_Some in Hs2. subst r1. clear Hk.
  (* the data-source pattern on the same text *)
  exists ("."%char :: s2). unfold Re.data_pattern. rewrite match_here_lit.
  change (Py.chars "data.terraform_remote_state.")
    with (Py.chars "data." ++ Py.chars "terraform_remote_state" ++ ["."%char]).
  rewrite <- !app_assoc, strip_prefix_app.
  change (Py.chars "terraform_remote_state" ++ ["."%char] ++ run
          ++ Py.chars ".outputs." ++ s2)
    with (Py.chars "terraform_remote_state"
          ++ "."%char :: run ++ "."%char :: Py.chars "outputs" ++ "."%char :: s2).
  apply (match_group_word _ (Py.chars "terraform_remote_state"));
    [reflexivity | discriminate | reflexivity |].
  apply match_lit_dot.
  apply match_group_word;
    [exact Hrun | intros ->; now apply Hne | reflexivity |].
  apply match_lit_dot.
  apply (match_group_word [] (Py.chars "outputs"));
    [reflexivity | discriminate | reflexivity | reflexivity].
Qed.

End ReFacts.
Import ReFacts.

(** C6 as stated fails on [data.terraform_remote_state.vpc.outputs.vpc_id]:
    the span is recorded as a data source (and added to the data sources)
    and as a remote state. *)
Lemma C6_span_counted_twice :
  exists m,
    Dict.get "app" (build_registry [Examples.remote_state_file] []) = Some m /\
    data_sources m = ["terraform_remote_state.vpc"] /\
    dependency_details m =
      [data_record "live/app/terragrunt.hcl" "app"
         ("terraform_remote_state", "vpc", "outputs");
       remote_state_record "live/app/terragrunt.hcl" "app" ("vpc", "vpc_id")].
Proof. eexists. vm_compute. repeat split; reflexivity. Qed.

(** C6, as amended. The data-source pass and the remote-state pass run
    one after the other over the same text and neither filters the other:
    every remote-state match leaves a remote-state record, every
    data-source match leaves a data-source record and an entry of the data
    sources, and wherever the remote-state pattern matches, the data-source
    pattern matches at the same place, with type [terraform_remote_state]
    and attribute [outputs]. *)
Theorem C6_both_records_kept (m : ModuleInfo) (vars : value) (fp : string) :
  (forall r, In r (remote_state_refs (Py.str vars)) ->
     In (remote_state_record fp (name m) r)
        (dependency_details (_analyze_variable_dependencies m vars fp))) /\
  (forall r, In r (data_refs (Py.str vars)) ->
     In (data_record fp (name m) r)
        (dependency_details (_analyze_variable_dependencies m vars fp)) /\
     In (data_target r)
        (data_sources (_analyze_variable_dependencies m vars fp))) /\
  (forall s rest n o,
     Re.match_here Re.remote_state_pattern s = Some ([n; o], rest) ->
     exists rest',
       Re.match_here Re.data_pattern s
       = Some (["terraform_remote_state"; n; "outputs"], rest')).
Proof.
  rewrite analyze_variable_dependencies_eq. cbn zeta. cbn [dependency_details data_sources].
  split; [|split].
  - intros r Hr. rewrite !in_app_iff. do 3 right. now apply in_map.
  - intros r Hr. rewrite !in_app_iff. split.
    + right. right. left. now apply in_map.
    + right. now apply in_map.
  - intros s rest n o. apply remote_state_match_is_data_match.
Qed.

(** ** The registry *)

Lemma module_block_label (f : File) (parsed : Doc)
    (blocks : list (Dict.t (Dict.t value))) (entry : string * Dict.t value) :
  loaded f = Some parsed -> doc_module parsed = Some blocks ->
  In entry (List.concat blocks) -> In (fst entry) (module_labels f).
Proof.
  intros Hl Hm Hin. unfold module_labels. rewrite Hl, Hm. now apply in_map.
Qed.

Lemma registered_detail_fold_invariant (P : Registry -> Prop)
    (src ty fp : string) (refs : list (string * string)) (reg : Registry) :
  (forall reg k g, is_append g -> P reg -> P (Dict.update k g reg)) ->
  P reg -> P (fold_left (registered_detail_step src ty fp) refs reg).
Proof.
  intros Hupd H. apply fold_left_invariant; [exact H|].
  intros r x _ Hr. unfold registered_detail_step.
  destruct (Dict.mem (fst x) r); [|exact Hr].
  apply Hupd; [left; eauto | exact Hr].
Qed.

(** The Terraform loop changes the registry by assigning the labels of
    module blocks and by appending to registered descriptors; whatever
    both keep, the loop keeps. *)
Lemma parse_terraform_file_invariant (P : Registry -> Prop) (f : File) :
  (forall reg k v, In k (module_labels f) -> P reg -> P (Dict.set k v reg)) ->
  (forall reg k g, is_append g -> P reg -> P (Dict.update k g reg)) ->
  forall reg, P reg -> P (parse_terraform_file reg f).
Proof.
  intros Hset Hupd reg H. unfold parse_terraform_file.
  destruct (loaded f) as [parsed|] eqn:Hl; [|exact H].
  assert (H1 : P match doc_module parsed with
                 | Some blocks =>
                     fold_left (module_block_step (fpath f)) (List.concat blocks) reg
                 | None => reg
                 end).
  { destruct (doc_module parsed) as [blocks|] eqn:Hm; [|exact H].
    apply fold_left_invariant; [exact H|].
    intros r [k cfg] Hin Hr. unfold module_block_step.
    apply Hset; [|exact Hr].
    apply (module_block_label f parsed blocks (k, cfg) Hl Hm Hin). }
  set (r1 := match doc_module parsed with Some _ => _ | None => _ end) in *.
  assert (H2 : P match doc_data parsed with
                 | Some blocks =>
                     fold_left (data_block_step (Path.str (fpath f)))
                               (List.concat blocks) r1
                 | None => r1
                 end).
  { destruct (doc_data parsed) as [blocks|]; [|exact H1].
    apply fold_left_invariant; [exact H1|].
    intros r [k cfg] _ Hr. unfold data_block_step, _analyze_data_source_dependencies.
    now apply registered_detail_fold_invariant. }
  set (r2 := match doc_data parsed with Some _ => _ | None => _ end) in *.
  assert (H3 : P match doc_output parsed with
                 | Some blocks =>
                     fold_left (output_block_step (Path.str (fpath f)))
                               (List.concat blocks) r2
                 | None => r2
                 end).
  { destruct (doc_output parsed) as [blocks|]; [|exact H2].
    apply fold_left_invariant; [exact H2|].
    intros r [k cfg] _ Hr. unfold output_block_step.
    destruct (Dict.get "value" cfg) as [v|]; [|exact Hr].
    unfold _analyze_output_dependencies.
    apply fold_left_invariant; [exact Hr|].
    intros r' [a b] _ Hr'. unfold output_step.
    destruct (Dict.get a r') as [m|]; [|exact Hr'].
    destruct (negb _); [|exact Hr'].
    apply Hupd; [right; eauto | exact Hr']. }
  set (r3 := match doc_output parsed with Some _ => _ | None => _ end) in *.
  destruct (doc_resource parsed) as [blocks|]; [|exact H3].
  apply fold_left_invariant; [exact H3|].
  intros r [k cfg] _ Hr. unfold resource_block_step, _analyze_resource_dependencies.
  now apply registered_detail_fold_invariant.
Qed.

Lemma build_registry_invariant (P : Registry -> Prop)
    (tgs tfs : list File) :
  P [] ->
  (forall reg k v, In k (defined_names tgs tfs) -> P reg -> P (Dict.set k v reg)) ->
  (forall reg k g, is_append g -> P reg -> P (Dict.update k g reg)) ->
  P (build_registry tgs tfs).
Proof.
  intros Hnil Hset Hupd. unfold build_registry, parse_terraform_files.
  apply fold_left_invariant.
  - apply fold_left_invariant; [exact Hnil|].
    intros reg f Hf Hreg. unfold register_terragrunt.
    destruct (parse_terragrunt_file f) as [m|] eqn:E; [|exact Hreg].
    apply Hset; [|exact Hreg]. unfold defined_names.
    apply in_app_iff. left. apply in_flat_map. exists f.
    split; [exact Hf|]. rewrite E. now left.
  - intros reg f Hf Hreg. apply parse_terraform_file_invariant; try assumption.
    intros r k v Hk. apply Hset. unfold defined_names.
    apply in_app_iff. right. apply in_flat_map. now exists f.
Qed.

Lemma build_registry_NoDup (tgs tfs : list File) :
  List.NoDup (Dict.keys (build_registry tgs tfs)).
Proof.
  apply (build_registry_invariant (fun reg => List.NoDup (Dict.keys reg))).
  - constructor.
  - intros reg k v _. apply DictFacts.NoDup_keys_set.
  - intros reg k g _. now rewrite DictFacts.keys_update.
Qed.

Lemma build_registry_keys_defined (tgs tfs : list File) (k : string) :
  In k (Dict.keys (build_registry tgs tfs)) -> In k (defined_names tgs tfs).
Proof.
  revert k.
  apply (build_registry_invariant
           (fun reg => forall k, In k (Dict.keys reg) -> In k (defined_names tgs tfs))).
  - intros k [].
  - intros reg k v Hk Hreg x Hx. apply DictFacts.keys_set in Hx as [->|Hx]; auto.
  - intros reg k g _ Hreg x. rewrite DictFacts.keys_update. apply Hreg.
Qed.

(** ** The report *)

Lemma analyze_impact_total (reg : Registry) (M : string) :
  exists S, analyze_impact reg (build_dependency_graph reg) M = Some S.
Proof.
  destruct (build_dependency_graph_ok reg) as [HG Hnodes].
  unfold analyze_impact. destruct (Dict.mem M reg) eqn:HM; simpl; [|now eexists].
  apply DictFacts.mem_keys in HM.
  destruct (impact_loop (build_dependency_graph reg) M (Dict.keys reg) ∅ HG)
    as (S & HS & _); [now apply Hnodes | intros x Hx; now apply Hnodes |].
  now exists S.
Qed.

Lemma generate_impact_report_total (reg : Registry) :
  exists r, generate_impact_report reg (build_dependency_graph reg) = Some r.
Proof.
  unfold generate_impact_report.
  destruct (for_each_total (fun _ => True)
              (impact_report_step reg (build_dependency_graph reg))
              (Dict.keys reg) empty_impact_report) as (r & -> & _).
  - exact I.
  - intros r k _ _. unfold impact_report_step.
    destruct (analyze_impact_total reg k) as (S & ->). simpl. now eexists.
  - simpl. now eexists.
Qed.

Lemma report_of_total (reg : Registry) :
  exists r, report_of reg = Some r /\
    modules r = List.map (fun entry => (fst entry, module_report (snd entry))) reg /\
    complexity_analysis r = complexity_buckets reg.
Proof.
  unfold report_of.
  destruct (analyze_dependency_paths_total reg) as (paths & ->).
  destruct (generate_impact_report_total reg) as (ir & ->).
  simpl. eexists. split; [reflexivity|]. split; reflexivity.
Qed.

Lemma register_terragrunt_malformed (reg : Registry) (f : File) :
  loaded f = None -> register_terragrunt reg f = reg.
Proof.
  intros H. unfold register_terragrunt, parse_terragrunt_file. now rewrite H.
Qed.

Lemma parse_terraform_file_malformed (reg : Registry) (f : File) :
  loaded f = None -> parse_terraform_file reg f = reg.
Proof. intros H. unfold parse_terraform_file. now rewrite H. Qed.

(** C9. A file whose content does not parse is skipped: with it among the
    Terragrunt files or among the Terraform files, the report is the
    report of the other files alone, and the run returns a report. *)
Theorem C9_malformed_file_skipped (bad : File) (tg1 tg2 tf1 tf2 : list File) :
  loaded bad = None ->
  analyze (tg1 ++ bad :: tg2) (tf1 ++ tf2) = analyze (tg1 ++ tg2) (tf1 ++ tf2) /\
  analyze (tg1 ++ tg2) (tf1 ++ bad :: tf2) = analyze (tg1 ++ tg2) (tf1 ++ tf2) /\
  exists r, analyze (tg1 ++ tg2) (tf1 ++ tf2) = Some r.
Proof.
  intros Hbad. unfold analyze, build_registry, parse_terraform_files.
  rewrite !fold_left_app. cbn [fold_left].
  rewrite register_terragrunt_malformed, parse_terraform_file_malformed
    by exact Hbad.
  rewrite <- !fold_left_app.
  split; [reflexivity|]. split; [reflexivity|].
  destruct (report_of_total
              (fold_left parse_terraform_file (tf1 ++ tf2)
                 (fold_left register_terragrunt (tg1 ++ tg2) [])))
    as (r & Hr & _).
  now exists r.
Qed.

Lemma C9_malformed_file_witness :
  analyze ([Examples.tg ["live"; "a"] (Examples.with_deps [])]
           ++ Examples.malformed_file
           :: [Examples.tg ["live"; "b"] (Examples.with_deps [("a", "../../live/a")])])
          ([] ++ [])
  = analyze ([Examples.tg ["live"; "a"] (Examples.with_deps [])]
             ++ [Examples.tg ["live"; "b"] (Examples.with_deps [("a", "../../live/a")])])
            ([] ++ []) /\
  analyze ([Examples.tg ["live"; "a"] (Examples.with_deps [])]
           ++ [Examples.tg ["live"; "b"] (Examples.with_deps [("a", "../../live/a")])])
          ([] ++ Examples.malformed_file :: [])
  = analyze ([Examples.tg ["live"; "a"] (Examples.with_deps [])]
             ++ [Examples.tg ["live"; "b"] (Examples.with_deps [("a", "../../live/a")])])
            ([] ++ []) /\
  exists r,
    analyze ([Examples.tg ["live"; "a"] (Examples.with_deps [])]
             ++ [Examples.tg ["live"; "b"] (Examples.with_deps [("a", "../../live/a")])])
            ([] ++ []) = Some r.
Proof.
  apply (C9_malformed_file_skipped Examples.malformed_file). reflexivity.
Defined.

(** ** The complexity buckets *)

Lemma get_map_values {V W} (g : V -> W) (k : string) (d : Dict.t V) :
  Dict.get k (List.map (fun entry => (fst entry, g (snd entry))) d)
  = option_map g (Dict.get k d).
Proof.
  induction d as [|[k' v] d IH]; simpl; [reflexivity|].
  destruct (String.eqb k k'); [reflexivity | exact IH].
Qed.

Lemma keys_map_values {V W} (g : V -> W) (d : Dict.t V) :
  Dict.keys (List.map (fun entry => (fst entry, g (snd entry))) d) = Dict.keys d.
Proof.
  unfold Dict.keys. rewrite List.map_map. now apply map_ext.
Qed.

Lemma names_where_In (p : Z -> bool) (reg : Registry) (n : string) :
  List.NoDup (Dict.keys reg) ->
  (In n (names_where p reg) <->
   exists m, Dict.get n reg = Some m /\ p (complexity_score m) = true).
Proof.
  intros Hnd. unfold names_where. rewrite in_map_iff. split.
  - intros ([k m] & <- & Hin). apply filter_In in Hin as [Hin Hp].
    exists m. split; [now apply DictFacts.In_get | exact Hp].
  - intros (m & Hget & Hp). exists (n, m). split; [reflexivity|].
    apply filter_In. split; [now apply DictFacts.get_In | exact Hp].
Qed.

Lemma names_where_NoDup (p : Z -> bool) (reg : Registry) :
  List.NoDup (Dict.keys reg) -> List.NoDup (names_where p reg).
Proof.
  unfold names_where, Dict.keys.
  induction reg as [|[k m] reg IH]; simpl; intros Hnd; [constructor|].
  inversion Hnd as [|? ? Hk Hnd']; subst.
  destruct (p (complexity_score m)); simpl; [|now apply IH].
  constructor; [|now apply IH].
  intros Hin. apply Hk. apply in_map_iff in Hin as (e & <- & He).
  apply filter_In in He as [He _]. now apply in_map.
Qed.

Lemma buckets_partition (reg : Registry) :
  List.NoDup (Dict.keys reg) ->
  let b := complexity_buckets reg in
  (forall n, In n (Dict.keys reg) <->
             In n (high_complexity b ++ medium_complexity b ++ low_complexity b))
  /\ List.NoDup (high_complexity b ++ medium_complexity b ++ low_complexity b).
Proof.
  intros Hnd. cbn zeta. unfold complexity_buckets. cbn [high_complexity medium_complexity low_complexity].
  split.
  - intros n. rewrite !in_app_iff, !names_where_In by exact Hnd. split.
    + intros Hn. apply DictFacts.mem_keys in Hn. unfold Dict.mem in Hn.
      destruct (Dict.get n reg) as [m|] eqn:E; [|discriminate].
      destruct (Z.ltb_spec 10 (complexity_score m)) as [H10|H10].
      * left. exists m. split; [reflexivity|]. now apply Z.ltb_lt.
      * right. destruct (Z.ltb_spec 5 (complexity_score m)) as [H5|H5].
        -- left. exists m. split; [reflexivity|].
           apply andb_true_iff. split; [now apply Z.ltb_lt | now apply Z.leb_le].
        -- right. exists m. split; [reflexivity|]. now apply Z.leb_le.
    + intros [(m & E & _)|[(m & E & _)|(m & E & _)]];
        apply DictFacts.mem_keys; unfold Dict.mem; now rewrite E.
  - apply NoDup_ListNoDup. rewrite !NoDup_app. repeat split.
    + apply NoDup_ListNoDup. now apply names_where_NoDup.
    + intros n H1 H2. apply list_elem_of_In in H1, H2.
      apply in_app_iff in H2. rewrite !names_where_In in * by exact Hnd.
      destruct H1 as (m & E & H1). apply Z.ltb_lt in H1.
      destruct H2 as [(m' & E' & H2)|(m' & E' & H2)];
        assert (m' = m) as -> by congruence.
      * apply andb_true_iff in H2 as [_ H2]. apply Z.leb_le in H2. lia.
      * apply Z.leb_le in H2. lia.
    + apply NoDup_ListNoDup. now apply names_where_NoDup.
    + intros n H1 H2. apply list_elem_of_In in H1, H2.
      rewrite !names_where_In in * by exact Hnd.
      destruct H1 as (m & E & H1). destruct H2 as (m' & E' & H2).
      assert (m' = m) as -> by congruence.
      apply andb_true_iff in H1 as [H1 _]. apply Z.ltb_lt in H1.
      apply Z.leb_le in H2. lia.
    + apply NoDup_ListNoDup. now apply names_where_NoDup.
Qed.

(** C10. In the report of [analyze] the three complexity buckets
    partition the modules of the registry: the module names of the report
    are the registered names, every registered module is in a bucket, no
    name is listed twice in the three buckets together (so each module is
    in exactly one), and a name is in the high bucket exactly when the
    score of its descriptor is above 10, in the medium one when above 5
    and at most 10, in the low one when at most 5. *)
Theorem C10_complexity_buckets_partition (tgs tfs : list File) :
  exists r, analyze tgs tfs = Some r /\
    Dict.keys (modules r) = Dict.keys (build_registry tgs tfs) /\
    (forall n, In n (Dict.keys (build_registry tgs tfs)) <->
       In n (high_complexity (complexity_analysis r)
             ++ medium_complexity (complexity_analysis r)
             ++ low_complexity (complexity_analysis r))) /\
    List.NoDup (high_complexity (complexity_analysis r)
                ++ medium_complexity (complexity_analysis r)
                ++ low_complexity (complexity_analysis r)) /\
    (forall n, In n (high_complexity (complexity_analysis r)) <->
       exists m, Dict.get n (build_registry tgs tfs) = Some m /\
                 Dict.get n (modules r) = Some (module_report m) /\
                 (10 < complexity_score m)%Z) /\
    (forall n, In n (medium_complexity (complexity_analysis r)) <->
       exists m, Dict.get n (build_registry tgs tfs) = Some m /\
                 Dict.get n (modules r) = Some (module_report m) /\
                 (5 < complexity_score m <= 10)%Z) /\
    (forall n, In n (low_complexity (complexity_analysis r)) <->
       exists m, Dict.get n (build_registry tgs tfs) = Some m /\
                 Dict.get n (modules r) = Some (module_report m) /\
                 (complexity_score m <= 5)%Z).
Proof.
  unfold analyze.
  pose proof (build_registry_NoDup tgs tfs) as Hnd.
  destruct (report_of_total (build_registry tgs tfs)) as (r & Hr & Hmods & Hb).
  exists r. split; [exact Hr|]. rewrite Hb, Hmods, keys_map_values.
  split; [reflexivity|].
  destruct (buckets_partition _ Hnd) as [Hcover Hdisj].
  split; [exact Hcover|]. split; [exact Hdisj|].
  unfold complexity_buckets. cbn [high_complexity medium_complexity low_complexity].
  assert (Hrep : forall n m, Dict.get n (build_registry tgs tfs) = Some m ->
            Dict.get n (List.map (fun entry => (fst entry, module_report (snd entry)))
                                 (build_registry tgs tfs))
            = Some (module_report m)).
  { intros n m E. now rewrite get_map_values, E. }
  split; [|split]; intros n; rewrite (names_where_In _ _ n Hnd); split.
  - intros (m & E & Hp). exists m. split; [exact E|]. split; [now apply Hrep|].
    now apply Z.ltb_lt.
  - intros (m & E & _ & Hp). exists m. split; [exact E | now apply Z.ltb_lt].
  - intros (m & E & Hp). exists m. split; [exact E|]. split; [now apply Hrep|].
    apply andb_true_iff in Hp as [H1 H2]. apply Z.ltb_lt in H1. apply Z.leb_le in H2.
    lia.
  - intros (m & E & _ & Hp). exists m. split; [exact E|].
    apply andb_true_iff. split; [apply Z.ltb_lt | apply Z.leb_le]; lia.
  - intros (m & E & Hp). exists m. split; [exact E|]. split; [now apply Hrep|].
    now apply Z.leb_le.
  - intros (m & E & _ & Hp). exists m. split; [exact E | now apply Z.leb_le].
Qed.

(** ** References to modules no file defines *)

Lemma extends_refl (m : ModuleInfo) : extends m m.
Proof. repeat split. apply incl_refl. Qed.

Lemma extends_append (m m' : ModuleInfo) (g : ModuleInfo -> ModuleInfo) :
  is_append g -> extends m m' -> extends m (g m').
Proof.
  intros [[d ->]|[o ->]] (H1 & H2 & H3 & H4); repeat split; simpl; try assumption.
  intros x Hx. apply in_app_iff. left. now apply H4.
Qed.

Lemma terragrunt_last_definition (l1 l2 : list File) (f : File)
    (m : ModuleInfo) (reg0 : Registry) :
  parse_terragrunt_file f = Some m ->
  (forall g mg, In g l2 -> parse_terragrunt_file g = Some mg -> name mg <> name m) ->
  Dict.get (name m) (fold_left register_terragrunt (l1 ++ f :: l2) reg0) = Some m.
Proof.
  intros Hf Hlater. rewrite fold_left_app. cbn [fold_left].
  apply fold_left_invariant.
  - unfold register_terragrunt at 1. rewrite Hf.
    now rewrite DictFacts.get_set, String.eqb_refl.
  - intros reg g Hg Hreg. unfold register_terragrunt.
    destruct (parse_terragrunt_file g) as [mg|] eqn:E; [|exact Hreg].
    rewrite DictFacts.get_set.
    destruct (String.eqb_spec (name m) (name mg)) as [Heq|_]; [|exact Hreg].
    exfalso. now apply (Hlater g mg).
Qed.

Lemma terraform_keeps_entry (tfs : list File) (m : ModuleInfo) (reg : Registry) :
  ~ In (name m) (flat_map module_labels tfs) ->
  (exists m', Dict.get (name m) reg = Some m' /\ extends m m') ->
  exists m', Dict.get (name m) (parse_terraform_files tfs reg) = Some m'
             /\ extends m m'.
Proof.
  intros Hlabels Hreg. unfold parse_terraform_files.
  apply fold_left_invariant; [exact Hreg|].
  intros r f Hf Hr. apply parse_terraform_file_invariant; [| |exact Hr].
  - intros r' k v Hk (m' & Hget & Hext). exists m'. split; [|exact Hext].
    rewrite DictFacts.get_set.
    destruct (String.eqb_spec (name m) k) as [<-|_]; [|exact Hget].
    exfalso. apply Hlabels, in_flat_map. now exists f.
  - intros r' k g Hg (m' & Hget & Hext). rewrite DictFacts.get_update, Hget.
    destruct (String.eqb (name m) k); simpl.
    + exists (g m'). split; [reflexivity | now apply extends_append].
    + now exists m'.
Qed.

Lemma split_parent_prefix (cp : string) :
  Py.startswith "../../" cp = true ->
  (2 <=? List.length (Py.split "/" cp))%nat = true.
Proof.
  unfold Py.startswith. intros H.
  do 6 (destruct cp as [|? cp]; [discriminate H|]; cbn [String.prefix] in H;
        match type of H with
        | match ascii_dec ?a ?b with _ => _ end = _ =>
            destruct (ascii_dec a b) as [<-|]; [|discriminate H]
        end).
  unfold Py.split. simpl. reflexivity.
Qed.

Lemma dependency_step_grows (fp : string) (m m' : ModuleInfo)
    (entry : string * Dict.t value) :
  dependency_step fp m entry = Some m' ->
  name m' = name m /\ dependencies m' = dependencies m /\
  variables m' = variables m /\
  incl (terragrunt_dependencies m) (terragrunt_dependencies m') /\
  incl (dependency_details m) (dependency_details m').
Proof.
  destruct entry as [label cfg]. unfold dependency_step.
  destruct (Dict.get "config_path" cfg) as [[cp| | | | |]|]; try discriminate.
  - destruct (Py.startswith "../../" cp); [|intros [= <-]; repeat split; apply incl_refl].
    destruct (2 <=? _)%nat; intros [= <-]; simpl;
      repeat split; try apply incl_refl; apply incl_appl, incl_refl.
  - intros [= <-]. repeat split; apply incl_refl.
Qed.

Lemma dependency_step_records (fp : string) (m m' : ModuleInfo)
    (label : string) (cfg : Dict.t value) (cp : string) :
  dependency_step fp m (label, cfg) = Some m' ->
  Dict.get "config_path" cfg = Some (VStr cp) ->
  Py.startswith "../../" cp = true ->
  In (Py.last_part (Py.split "/" cp)) (terragrunt_dependencies m') /\
  In (terragrunt_record fp (name m) (Py.last_part (Py.split "/" cp)) cp)
     (dependency_details m').
Proof.
  unfold dependency_step. intros H Hcp Hpre. rewrite Hcp, Hpre in H.
  rewrite (split_parent_prefix cp Hpre) in H. injection H as <-. simpl.
  split; apply in_app_iff; right; now left.
Qed.

Lemma dependency_loop_records (fp : string) (entries : list (string * Dict.t value))
    (m m' : ModuleInfo) :
  for_each (dependency_step fp) entries m = Some m' ->
  (name m' = name m /\ dependencies m' = dependencies m /\
   variables m' = variables m /\
   incl (terragrunt_dependencies m) (terragrunt_dependencies m') /\
   incl (dependency_details m) (dependency_details m')) /\
  forall label cfg cp,
    In (label, cfg) entries ->
    Dict.get "config_path" cfg = Some (VStr cp) ->
    Py.startswith "../../" cp = true ->
    In (Py.last_part (Py.split "/" cp)) (terragrunt_dependencies m') /\
    In (terragrunt_record fp (name m) (Py.last_part (Py.split "/" cp)) cp)
       (dependency_details m').
Proof.
  revert m. induction entries as [|e entries IH]; intros m; cbn [for_each].
  - intros [= <-]. split; [repeat split; apply incl_refl | intros ? ? ? []].
  - destruct (dependency_step fp m e) as [m1|] eqn:E; [|discriminate].
    intros Hrest. destruct (IH m1 Hrest) as [(N & D & V & T & R) Hrec].
    destruct (dependency_step_grows fp m m1 e E) as (N1 & D1 & V1 & T1 & R1).
    split.
    + repeat split; try congruence; eapply incl_tran; eassumption.
    + intros label cfg cp [->|Hin] Hcp Hpre.
      * destruct (dependency_step_records fp m m1 label cfg cp E Hcp Hpre).
        split; [now apply T | now apply R].
      * rewrite <- N1. now apply (Hrec label cfg cp).
Qed.
Lemma parse_terragrunt_file_records (f : File) (parsed : Doc) (m : ModuleInfo) :
  loaded f = Some parsed -> parse_terragrunt_file f = Some m ->
  name m = Path.name (Path.parent (fpath f)) /\
  (forall inputs X o,
     doc_inputs parsed = Some inputs ->
     In (X, o) (module_refs (Py.str inputs)) -> X <> name m ->
     In X (dependencies m) /\
     In (module_record "module_output" (Path.str (fpath f)) (name m) (X, o))
        (dependency_details m)) /\
  (forall deps label cfg cp,
     doc_dependency parsed = Some deps ->
     In (label, cfg) (List.concat deps) ->
     Dict.get "config_path" cfg = Some (VStr cp) ->
     Py.startswith "../../" cp = true ->
     In (Py.last_part (Py.split "/" cp)) (terragrunt_dependencies m) /\
     In (terragrunt_record (Path.str (fpath f)) (name m)
           (Py.last_part (Py.split "/" cp)) cp)
        (dependency_details m)).
Proof.
  intros Hl. unfold parse_terragrunt_file. rewrite Hl. cbn [mbind option_bind].
  set (m0 := new_module _ _ _).
  destruct (match doc_terraform parsed with Some _ => _ | None => _ end)
    as [m1|] eqn:H1; [|discriminate]. cbn [mbind option_bind].
  assert (Hm1 : name m1 = name m0 /\ terragrunt_dependencies m1 = []
                /\ dependency_details m1 = [] /\ dependencies m1 = []).
  { destruct (doc_terraform parsed) as [blocks|]; [|now injection H1 as <-].
    destruct (hd_error blocks) as [b|]; [|discriminate]. cbn [mbind option_bind] in H1.
    destruct (Dict.get "source" b); now injection H1 as <-. }
  destruct Hm1 as (N1 & T1 & R1 & D1).
  destruct (match doc_dependency parsed with Some _ => _ | None => _ end)
    as [m2|] eqn:H2; [|discriminate]. cbn [mbind option_bind].
  set (m3 := match doc_inputs parsed with Some _ => _ | None => _ end).
  destruct (_calculate_complexity_score m3) as [score|]; [|discriminate].
  cbn [mbind option_bind]. intros [= <-]. cbn [set_complexity_score name dependencies
    terragrunt_dependencies dependency_details].
  assert (Hm2 : name m2 = name m1 /\
                forall deps label cfg cp,
                  doc_dependency parsed = Some deps ->
                  In (label, cfg) (List.concat deps) ->
                  Dict.get "config_path" cfg = Some (VStr cp) ->
                  Py.startswith "../../" cp = true ->
                  In (Py.last_part (Py.split "/" cp)) (terragrunt_dependencies m2) /\
                  In (terragrunt_record (Path.str (fpath f)) (name m1)
                        (Py.last_part (Py.split "/" cp)) cp)
                     (dependency_details m2)).
  { destruct (doc_dependency parsed) as [deps|].
    - destruct (dependency_loop_records _ _ _ _ H2) as [(N & _) Hrec].
      split; [exact N|]. intros deps' label cfg cp [= <-]. apply Hrec.
    - injection H2 as <-. split; [reflexivity|]. intros; discriminate. }
  destruct Hm2 as [N2 Hdeps].
  assert (Hm3 : name m3 = name m2 /\
                terragrunt_dependencies m3 = terragrunt_dependencies m2 /\
                incl (dependency_details m2) (dependency_details m3) /\
                forall inputs X o,
                  doc_inputs parsed = Some inputs ->
                  In (X, o) (module_refs (Py.str inputs)) -> X <> name m2 ->
                  In X (dependencies m3) /\
                  In (module_record "module_output" (Path.str (fpath f))
                        (name m2) (X, o))
                     (dependency_details m3)).
  { subst m3. destruct (doc_inputs parsed) as [v|].
    - rewrite analyze_variable_dependencies_eq. cbn zeta.
      cbn [name terragrunt_dependencies dependency_details dependencies set_variables].
      split; [reflexivity|]. split; [reflexivity|].
      split; [apply incl_appl, incl_refl|].
      intros inputs X o [= <-] Hin HX.
      assert (Hkept : In (X, o)
                (List.filter (fun r => negb (fst r =? name m2)%string)
                             (module_refs (Py.str v)))).
      { apply filter_In. split; [assumption|].
        simpl. now apply negb_true_iff, String.eqb_neq. }
      split.
      + apply in_app_iff. right.
        change X with (fst (X, o)). now apply in_map.
      + apply in_app_iff. right. apply in_app_iff. left. now apply in_map.
    - split; [reflexivity|]. split; [reflexivity|].
      split; [apply incl_refl | intros; discriminate]. }
  destruct Hm3 as (N3 & T3 & R3 & Hinputs).
  assert (Hname : name m3 = name m0) by congruence.
  split; [exact Hname|]. split.
  - intros inputs X o Hi Hin HX. rewrite N3. apply (Hinputs inputs X o Hi Hin).
    congruence.
  - intros deps label cfg cp Hd Hin Hcp Hpre.
    destruct (Hdeps deps label cfg cp Hd Hin Hcp Hpre) as [Ht Hr].
    split; [now rewrite T3|]. apply R3.
    replace (name m3) with (name m1) by congruence. exact Hr.
Qed.

Lemma module_output_recorded (m : ModuleInfo) (vars : value) (fp X o : string) :
  X <> name m -> In (X, o) (module_refs (Py.str vars)) ->
  In X (dependencies (_analyze_variable_dependencies m vars fp)) /\
  In (module_record "module_output" fp (name m) (X, o))
     (dependency_details (_analyze_variable_dependencies m vars fp)).
Proof.
  intros HX Hin. rewrite analyze_variable_dependencies_eq. cbn zeta.
  cbn [dependencies dependency_details].
  assert (Hkept : In (X, o)
            (List.filter (fun r => negb (fst r =? name m)%string)
                         (module_refs (Py.str vars)))).
  { apply filter_In. split; [assumption|].
    simpl. now apply negb_true_iff, String.eqb_neq. }
  split.
  - apply in_app_iff. right. change X with (fst (X, o)). now apply in_map.
  - apply in_app_iff. right. apply in_app_iff. left. now apply in_map.
Qed.

(** C5 as stated fails: [live/app] reads [module.ghost.id] and no file
    defines [ghost]; the registry holds no descriptor of that name. *)
Lemma C5_no_dangling_descriptor :
  (exists m, Dict.get "app" (build_registry [Examples.dangling_file] []) = Some m
             /\ In "ghost" (dependencies m)) /\
  ~ In "ghost" (defined_names [Examples.dangling_file] []) /\
  Dict.get "ghost" (build_registry [Examples.dangling_file] []) = None.
Proof.
  assert (Hdef : defined_names [Examples.dangling_file] [] = ["app"])
    by (vm_compute; reflexivity).
  rewrite Hdef. split; [|split].
  - eexists. split; [vm_compute; reflexivity | simpl; tauto].
  - simpl. intuition discriminate.
  - vm_compute. reflexivity.
Qed.

(** C5, as amended. For a module name [X] that no file defines: the
    registry holds no descriptor named [X], the graph has no node [X] and
    no edge at [X]; the extractor records a reference to [X] in the
    descriptor it works on, in [dependencies] and as a [module_output]
    record; and the descriptor the registry holds for an issuing
    Terragrunt file (the last file of its directory name, no module block
    bearing that name) lists [X] with a [module_output] record for a
    [module.X.<attribute>] expression in its inputs and with a [terragrunt]
    record for a dependency block whose [config_path] ends in [X]. *)
Theorem C5_dangling_reference (tgs tfs : list File) (X : string) :
  ~ In X (defined_names tgs tfs) ->
  Dict.get X (build_registry tgs tfs) = None /\
  ~ In X (Nx.nodes (build_dependency_graph (build_registry tgs tfs))) /\
  (forall u v, edge (build_dependency_graph (build_registry tgs tfs)) u v ->
               u <> X /\ v <> X) /\
  (forall m vars fp o,
     X <> name m -> In (X, o) (module_refs (Py.str vars)) ->
     In X (dependencies (_analyze_variable_dependencies m vars fp)) /\
     In (module_record "module_output" fp (name m) (X, o))
        (dependency_details (_analyze_variable_dependencies m vars fp))) /\
  (forall l1 f l2 parsed m,
     tgs = l1 ++ f :: l2 -> loaded f = Some parsed ->
     parse_terragrunt_file f = Some m ->
     (forall g mg, In g l2 -> parse_terragrunt_file g = Some mg ->
                   name mg <> name m) ->
     ~ In (name m) (flat_map module_labels tfs) ->
     exists m',
       Dict.get (name m) (build_registry tgs tfs) = Some m' /\
       (forall inputs o,
          doc_inputs parsed = Some inputs ->
          In (X, o) (module_refs (Py.str inputs)) ->
          In X (dependencies m') /\
          In (module_record "module_output" (Path.str (fpath f)) (name m) (X, o))
             (dependency_details m')) /\
       (forall deps label cfg cp,
          doc_dependency parsed = Some deps ->
          In (label, cfg) (List.concat deps) ->
          Dict.get "config_path" cfg = Some (VStr cp) ->
          Py.startswith "../../" cp = true ->
          Py.last_part (Py.split "/" cp) = X ->
          In X (terragrunt_dependencies m') /\
          In (terragrunt_record (Path.str (fpath f)) (name m) X cp)
             (dependency_details m'))).
Proof.
  intros HX.
  destruct (build_dependency_graph_ok (build_registry tgs tfs)) as [HG Hnodes].
  assert (Hkeys : ~ In X (Dict.keys (build_registry tgs tfs))).
  { intros H. now apply HX, build_registry_keys_defined. }
  split; [|split; [|split; [|split]]].
  - destruct (Dict.get X (build_registry tgs tfs)) as [m|] eqn:E; [|reflexivity].
    exfalso. apply Hkeys, DictFacts.mem_keys. unfold Dict.mem. now rewrite E.
  - intros H. now apply Hkeys, Hnodes.
  - intros u v He. destruct (HG u v He) as [Hu Hv].
    split; intros ->; apply Hkeys; now apply Hnodes.
  - intros m vars fp o. apply module_output_recorded.
  - intros l1 f l2 parsed m -> Hl Hf Hlater Hlabels.
    assert (Hname : X <> name m).
    { intros ->. apply HX. unfold defined_names. apply in_app_iff. left.
      apply in_flat_map. exists f. split; [|rewrite Hf; now left].
      apply in_app_iff. right. now left. }
    destruct (terraform_keeps_entry tfs m
                (fold_left register_terragrunt (l1 ++ f :: l2) []) Hlabels)
      as (m' & Hget & (N & D & T & R)).
    { exists m. split; [now apply terragrunt_last_definition | apply extends_refl]. }
    destruct (parse_terragrunt_file_records f parsed m Hl Hf) as (_ & Hin & Hdep).
    exists m'. split; [exact Hget|]. split.
    + intros inputs o Hi Ho. destruct (Hin inputs X o Hi Ho Hname) as [H1 H2].
      split; [now rewrite D | now apply R].
    + intros deps label cfg cp Hd He Hcp Hpre <-.
      destruct (Hdep deps label cfg cp Hd He Hcp Hpre) as [H1 H2].
      split; [now rewrite T | now apply R].
Qed.

(** C5 at [live/app], which reads [module.ghost.id]. *)
Lemma C5_dangling_reference_witness :
  Dict.get "ghost" (build_registry [Examples.dangling_file] []) = None /\
  ~ In "ghost"
       (Nx.nodes (build_dependency_graph
                    (build_registry [Examples.dangling_file] []))) /\
  exists m',
    Dict.get "app" (build_registry [Examples.dangling_file] []) = Some m' /\
    In "ghost" (dependencies m') /\
    In (module_record "module_output" "live/app/terragrunt.hcl" "app"
          ("ghost", "id"))
       (dependency_details m').
Proof.
  assert (Hdef : defined_names [Examples.dangling_file] [] = ["app"])
    by (vm_compute; reflexivity).
  destruct (C5_dangling_reference [Examples.dangling_file] [] "ghost")
    as (H1 & H2 & _ & _ & H5).
  { rewrite Hdef. simpl. intuition discriminate. }
  split; [exact H1|]. split; [exact H2|].
  assert (Hparse : exists m, parse_terragrunt_file Examples.dangling_file = Some m
                             /\ name m = "app")
    by (eexists; split; vm_compute; reflexivity).
  destruct Hparse as (m & Hm & Hn).
  destruct (H5 [] Examples.dangling_file []
               (Examples.with_inputs (VDict [("vpc_id", VStr "${module.ghost.id}")]))
               m eq_refl eq_refl Hm) as (m' & Hget & Hin & _).
  { intros g mg []. }
  { simpl. tauto. }
  exists m'. rewrite <- Hn. split; [exact Hget|].
  apply (Hin (VDict [("vpc_id", VStr "${module.ghost.id}")]) "id" eq_refl).
  vm_compute. tauto.
Defined.

(** * Further properties of the analyzer *)

(** ** The registry, operation by operation *)

Lemma fold_left_rtc {A B} (R : A -> A -> Prop) (f : A -> B -> A) (l : list B)
    (a0 a : A) :
  rtc R a0 a -> (forall a x, In x l -> rtc R a (f a x)) ->
  rtc R a0 (fold_left f l a).
Proof.
  intros H Hstep. apply fold_left_invariant; [exact H|].
  intros a' x Hx Ha'. eapply rtc_trans; [exact Ha' | now apply Hstep].
Qed.

Lemma module_block_step_eq (p : Path.t) (reg : Registry) (k : string)
    (cfg : Dict.t value) :
  module_block_step p reg (k, cfg)
  = Dict.set k (module_block_descriptor p k cfg) reg.
Proof. reflexivity. Qed.

Lemma mem_get {V} (k : string) (d : Dict.t V) :
  Dict.mem k d = true -> exists v, Dict.get k d = Some v.
Proof. unfold Dict.mem. destruct (Dict.get k d); [eauto | discriminate]. Qed.

Lemma existsb_eqb_In (o : string) (l : list string) :
  existsb (String.eqb o) l = false -> ~ In o l.
Proof.
  intros H Hin. assert (existsb (String.eqb o) l = true); [|congruence].
  apply existsb_exists. exists o. split; [exact Hin | apply String.eqb_refl].
Qed.

Lemma parse_terraform_file_ops (tgs tfs : list File) (f : File) (reg : Registry) :
  In f tfs -> rtc (registry_op tgs tfs) reg (parse_terraform_file reg f).
Proof.
  intros Hf. unfold parse_terraform_file.
  destruct (loaded f) as [parsed|] eqn:Hl; [|apply rtc_refl].
  assert (Hdetail : forall (data : bool) n fp refs r0 r,
            rtc (registry_op tgs tfs) r0 r ->
            rtc (registry_op tgs tfs) r0
              (fold_left
                 (registered_detail_step
                    (if data then "data." +:+ n else "resource." +:+ n)
                    (if data then "data_source_module" else "resource_module") fp)
                 refs r)).
  { intros data n fp refs r0 r Hr. apply fold_left_rtc; [exact Hr|].
    intros a [k o] _. unfold registered_detail_step. cbn [fst].
    destruct (Dict.mem k a) eqn:E; [|apply rtc_refl].
    apply mem_get in E as (m & Hm). apply rtc_once.
    destruct data; [eapply op_data_detail | eapply op_resource_detail]; exact Hm. }
  repeat match goal with
         | |- context [match ?o with Some _ => _ | None => _ end] =>
             destruct o eqn:?
         end;
    repeat (apply fold_left_rtc; [|intros a [k cfg] Hin]);
    try apply rtc_refl.
  all: try (rewrite module_block_step_eq; apply rtc_once;
            apply op_module_block; [exact Hf|];
            eapply (module_block_label f _ _ (k, cfg)); eassumption).
  all: try (unfold data_block_step, _analyze_data_source_dependencies;
            apply (Hdetail true); apply rtc_refl).
  all: try (unfold resource_block_step, _analyze_resource_dependencies;
            apply (Hdetail false); apply rtc_refl).
  all: unfold output_block_step;
    destruct (Dict.get "value" cfg) as [v|]; [|apply rtc_refl];
    unfold _analyze_output_dependencies;
    (apply fold_left_rtc; [apply rtc_refl|]);
    intros a' [x o] _; unfold output_step;
    destruct (Dict.get x a') as [m|] eqn:Em; [|apply rtc_refl];
    destruct (existsb (String.eqb o) (outputs m)) eqn:Eo; cbn [negb];
      [apply rtc_refl|];
    apply rtc_once; eapply op_output; [exact Em | now apply existsb_eqb_In].
Qed.

Lemma build_registry_ops (tgs tfs : list File) :
  rtc (registry_op tgs tfs) [] (build_registry tgs tfs).
Proof.
  unfold build_registry, parse_terraform_files.
  apply fold_left_rtc.
  - apply fold_left_rtc; [apply rtc_refl|].
    intros reg f Hf. unfold register_terragrunt.
    destruct (parse_terragrunt_file f) as [m|] eqn:E; [|apply rtc_refl].
    apply rtc_once. now apply (op_terragrunt tgs tfs f).
  - intros reg f Hf. now apply parse_terraform_file_ops.
Qed.

(** Induction over the operations that build the registry. *)
Lemma build_registry_ind (tgs tfs : list File) (P : Registry -> Prop) :
  P [] ->
  (forall reg reg', registry_op tgs tfs reg reg' -> P reg -> P reg') ->
  P (build_registry tgs tfs).
Proof.
  intros Hnil Hstep.
  apply (rtc_ind_r P [] Hnil (fun y z _ Hyz Hy => Hstep y z Hyz Hy)).
  apply build_registry_ops.
Qed.

Lemma In_set {V} (k k' : string) (v v' : V) (d : Dict.t V) :
  In (k', v') (Dict.set k v d) -> (k' = k /\ v' = v) \/ In (k', v') d.
Proof.
  induction d as [|[k0 v0] d IH]; simpl.
  - intros [[= <- <-]|[]]. now left.
  - destruct (String.eqb_spec k k0) as [->|Hne]; simpl.
    + intros [[= <- <-]|H]; [now left | right; now right].
    + intros [H|H]; [right; now left|].
      destruct (IH H) as [?|?]; [now left | right; now right].
Qed.

Lemma In_update {V} (k k' : string) (g : V -> V) (v' : V) (d : Dict.t V) :
  In (k', v') (Dict.update k g d) ->
  In (k', v') d \/ (k' = k /\ exists v, Dict.get k d = Some v /\ v' = g v).
Proof.
  induction d as [|[k0 v0] d IH]; simpl; [tauto|].
  destruct (String.eqb_spec k k0) as [->|Hne]; simpl.
  - intros [[= <- <-]|H]; [right; eauto | left; now right].
  - intros [H|H]; [left; now left|].
    destruct (IH H) as [?|?]; [left; now right | now right].
Qed.

(** A property of the descriptors that every operation keeps holds of
    every entry of the registry. *)
Lemma build_registry_entries (tgs tfs : list File)
    (Q : string -> ModuleInfo -> Prop) :
  (forall f m, In f tgs -> parse_terragrunt_file f = Some m -> Q (name m) m) ->
  (forall f k cfg, In f tfs -> In k (module_labels f) ->
                   Q k (module_block_descriptor (fpath f) k cfg)) ->
  (forall k m ty fp src o,
     ty = "data_source_module" \/ ty = "resource_module" ->
     Q k m -> Q k (append_detail (module_record ty fp src (k, o)) m)) ->
  (forall k m o, Q k m -> ~ In o (outputs m) -> Q k (append_output o m)) ->
  forall k m, In (k, m) (build_registry tgs tfs) -> Q k m.
Proof.
  intros Htg Htf Hdetail Hout.
  apply (build_registry_ind tgs tfs (fun reg => forall k m, In (k, m) reg -> Q k m)).
  - intros k m [].
  - intros reg reg' Hop Hreg k' m' Hin.
    destruct Hop as [f m r Hf Hm | f k cfg r Hf Hk | k m dn fp o r Hget
                    | k m rt fp o r Hget | k m o r Hget Ho].
    + apply In_set in Hin as [[-> ->]|Hin]; [now apply (Htg f) | now apply Hreg].
    + apply In_set in Hin as [[-> ->]|Hin]; [now apply (Htf f) | now apply Hreg].
    + apply In_update in Hin as [Hin|(-> & v & Hv & ->)]; [now apply Hreg|].
      apply Hdetail; [now left|]. now apply Hreg, DictFacts.get_In.
    + apply In_update in Hin as [Hin|(-> & v & Hv & ->)]; [now apply Hreg|].
      apply Hdetail; [now right|]. now apply Hreg, DictFacts.get_In.
    + apply In_update in Hin as [Hin|(-> & v & Hv & ->)]; [now apply Hreg|].
      assert (v = m) as -> by congruence.
      apply Hout; [|exact Ho]. now apply Hreg, DictFacts.get_In.
Qed.

(** ** What the patterns capture *)

Lemma backtrack_cap {A} (k : list ascii -> option A)
    (taken_rev rest cap : list ascii) (r : A) :
  forallb Re.word_char taken_rev = true ->
  Re.backtrack k taken_rev rest = Some (cap, r) ->
  cap <> [] /\ forallb Re.word_char cap = true /\ exists rest', k rest' = Some r.
Proof.
  revert rest. induction taken_rev as [|c t IH]; intros rest Hw;
    cbn [Re.backtrack]; [discriminate|].
  destruct (k rest) as [r'|] eqn:E.
  - intros [= <- <-]. repeat split.
    + intros H. simpl in H. now destruct (rev t).
    + change (forallb Re.word_char (rev (c :: t)) = true).
      now rewrite forallb_rev.
    + now exists rest.
  - simpl in Hw. apply andb_true_iff in Hw as [_ Hw]. now apply IH.
Qed.

Lemma word_str_of (cap : list ascii) :
  cap <> [] -> forallb Re.word_char cap = true -> word (Py.str_of cap).
Proof.
  intros Hne Hw. unfold word, Py.chars, Py.str_of.
  rewrite list_ascii_of_string_of_list_ascii. split; [|exact Hw].
  destruct cap; [congruence | discriminate].
Qed.

Lemma match_here_words (items : list Re.item) :
  forall s caps rest,
    Re.match_here items s = Some (caps, rest) -> Forall word caps.
Proof.
  induction items as [|[l|] items IH]; intros s caps rest.
  - intros [= <- <-]. constructor.
  - rewrite match_here_lit. destruct (Re.strip_prefix _ s); [apply IH | discriminate].
  - rewrite match_here_group.
    destruct (Re.span_word s) as [run r1] eqn:Hspan.
    apply span_word_spec in Hspan as (_ & Hrun & _).
    destruct (Re.backtrack _ (rev run) r1) as [[cap [caps' s']]|] eqn:Hb;
      [|discriminate].
    intros [= <- <-].
    apply backtrack_cap in Hb as (Hne & Hw & rest' & Hk);
      [|now rewrite forallb_rev].
    constructor; [now apply word_str_of | now apply (IH rest' caps' s')].
Qed.

Lemma scan_words (items : list Re.item) (s : list ascii) :
  forall skip caps, In caps (Re.scan items s skip) -> Forall word caps.
Proof.
  induction s as [|c s IH]; intros skip caps; cbn [Re.scan]; [intros []|].
  destruct skip as [|k]; [|apply IH].
  destruct (Re.match_here items (c :: s)) as [[caps' rest]|] eqn:E; [|apply IH].
  intros [<-|H]; [now apply (match_here_words items (c :: s) caps' rest) | now apply (IH _ _ H)].
Qed.

Lemma In_pairs_inv (l : list (list string)) (a b : string) :
  In (a, b) (Re.pairs l) -> In [a; b] l.
Proof.
  unfold Re.pairs. rewrite in_flat_map. intros (caps & Hin & H).
  destruct caps as [|x [|y [|z caps]]]; simpl in H; try contradiction.
  destruct H as [[= <- <-]|[]]. exact Hin.
Qed.

Lemma module_refs_words (s a b : string) :
  In (a, b) (module_refs s) -> word a /\ word b.
Proof.
  intros H. apply In_pairs_inv in H. apply scan_words in H.
  inversion H as [|? ? Ha H']; subst. inversion H' as [|? ? Hb _]; subst.
  now split.
Qed.

(** ** What [parse_terragrunt_file] returns *)

Lemma add_paths_nil (fp : string) (m : ModuleInfo) : add_paths fp [] m = m.
Proof. destruct m; unfold add_paths; simpl. now rewrite !app_nil_r. Qed.

Lemma add_paths_app (fp : string) (p1 p2 : list (string * string))
    (m : ModuleInfo) :
  add_paths fp (p1 ++ p2) m = add_paths fp p2 (add_paths fp p1 m).
Proof.
  destruct m; unfold add_paths; simpl. now rewrite !List.map_app, !app_assoc.
Qed.

Lemma resolved_paths_cons (e : string * Dict.t value)
    (entries : list (string * Dict.t value)) :
  resolved_paths (e :: entries) = resolved_paths [e] ++ resolved_paths entries.
Proof. unfold resolved_paths. simpl. now rewrite app_nil_r. Qed.

Lemma dependency_step_cases (fp : string) (m : ModuleInfo)
    (e : string * Dict.t value) :
  (bad_config_path e /\ dependency_step fp m e = None)
  \/ (~ bad_config_path e /\
      dependency_step fp m e = Some (add_paths fp (resolved_paths [e]) m)).
Proof.
  destruct e as [label cfg].
  unfold bad_config_path, dependency_step, resolved_paths. cbn [flat_map snd].
  destruct (Dict.get "config_path" cfg) as [[cp| | | | |]|];
    try (left; split; [exact I | reflexivity]).
  - right. split; [tauto|].
    destruct (Py.startswith "../../" cp) eqn:Hpre.
    + rewrite (split_parent_prefix cp Hpre). destruct m; reflexivity.
    + now rewrite add_paths_nil.
  - right. split; [tauto|]. now rewrite add_paths_nil.
Qed.

Lemma dependency_loop_cases (fp : string) (entries : list (string * Dict.t value))
    (m : ModuleInfo) :
  (Exists bad_config_path entries /\
   for_each (dependency_step fp) entries m = None)
  \/ (Forall (fun e => ~ bad_config_path e) entries /\
      for_each (dependency_step fp) entries m
      = Some (add_paths fp (resolved_paths entries) m)).
Proof.
  revert m. induction entries as [|e entries IH]; intros m.
  - right. split; [constructor|]. cbn. now rewrite add_paths_nil.
  - cbn [for_each]. rewrite resolved_paths_cons, add_paths_app.
    destruct (dependency_step_cases fp m e) as [[Hbad ->]|[Hok ->]].
    + left. split; [now apply Exists_cons_hd | reflexivity].
    + destruct (IH (add_paths fp (resolved_paths [e]) m)) as [[Hbad ->]|[Hall ->]].
      * left. split; [now apply Exists_cons_tl | reflexivity].
      * right. split; [now constructor | reflexivity].
Qed.

Lemma raises_iff_not (parsed : Doc) :
  ~ terragrunt_raises parsed ->
  doc_terraform parsed <> Some [] /\
  Forall (fun e => ~ bad_config_path e)
         (List.concat (default [] (doc_dependency parsed))) /\
  exists n, Py.len (default (VDict []) (doc_inputs parsed)) = Some n.
Proof.
  unfold terragrunt_raises. intros H. split; [tauto|]. split.
  - apply Forall_forall. intros e He Hbad. apply H. right. left.
    apply Exists_exists. now exists e.
  - destruct (Py.len _) as [n|]; [now exists n | tauto].
Qed.

Lemma terragrunt_stage3 (p : Path.t) (src : value)
    (paths : list (string * string)) (payload : option value) :
  let fp := Path.str p in
  let own := Path.name (Path.parent p) in
  let m2 := add_paths fp paths
              (set_source src (new_module own (VStr EmptyString)
                                          (Path.str (Path.parent p)))) in
  match payload with
  | Some inputs =>
      _analyze_variable_dependencies (set_variables inputs m2) inputs fp
  | None => m2
  end =
  {| name := own; source := src; path := Path.str (Path.parent p);
     variables := default (VDict []) payload;
     outputs := [];
     dependencies := List.map fst (kept_refs own (refs_in module_refs payload));
     terragrunt_dependencies := List.map fst paths;
     data_sources := List.map data_target (refs_in data_refs payload);
     resources := [];
     dependency_details :=
       List.map (fun r => terragrunt_record fp own (fst r) (snd r)) paths
       ++ List.map (module_record "module_output" fp own)
                   (kept_refs own (refs_in module_refs payload))
       ++ List.map (data_record fp own) (refs_in data_refs payload)
       ++ List.map (remote_state_record fp own)
                   (refs_in remote_state_refs payload);
     complexity_score := 0 |}.
Proof.
  destruct payload as [inputs|]; cbn zeta.
  - rewrite analyze_variable_dependencies_eq. reflexivity.
  - cbn. now rewrite !app_nil_r.
Qed.

Lemma parse_terragrunt_file_cases (f : File) (parsed : Doc) :
  loaded f = Some parsed ->
  (terragrunt_raises parsed /\ parse_terragrunt_file f = None)
  \/ (~ terragrunt_raises parsed /\
      exists n, Py.len (default (VDict []) (doc_inputs parsed)) = Some n /\
                parse_terragrunt_file f
                = Some (terragrunt_descriptor (fpath f) parsed n)).
Proof.
  intros Hl. unfold parse_terragrunt_file. rewrite Hl. cbn [mbind option_bind].
  set (m0 := new_module _ _ _).
  set (src := match doc_terraform parsed with
              | Some (b :: _) => default (VStr EmptyString) (Dict.get "source" b)
              | _ => VStr EmptyString
              end).
  destruct (doc_terraform parsed) as [[|b bs]|] eqn:Htf.
  { left. split; [now left | reflexivity]. }
  all: assert (H1 : match doc_terraform parsed with
                    | Some blocks =>
                        hd_error blocks ≫= fun terraform_block =>
                          match Dict.get "source" terraform_block with
                          | Some s => Some (set_source s m0)
                          | None => Some m0
                          end
                    | None => Some m0
                    end = Some (set_source src m0))
      by (rewrite Htf; subst src; cbn;
          try destruct (Dict.get "source" b); reflexivity).
  all: rewrite Htf in H1; rewrite H1; clear H1; cbn [mbind option_bind].
  all: assert (H2 : match doc_dependency parsed with
                    | Some deps =>
                        for_each (dependency_step (Path.str (fpath f)))
                                 (List.concat deps) (set_source src m0)
                    | None => Some (set_source src m0)
                    end
                    = for_each (dependency_step (Path.str (fpath f)))
                        (List.concat (default [] (doc_dependency parsed)))
                        (set_source src m0))
      by (destruct (doc_dependency parsed); reflexivity).
  all: rewrite H2; clear H2.
  all: destruct (dependency_loop_cases (Path.str (fpath f))
                   (List.concat (default [] (doc_dependency parsed)))
                   (set_source src m0)) as [[Hbad ->]|[Hok ->]];
    [left; split; [right; now left | reflexivity]|].
  all: cbn [mbind option_bind]; subst m0.
  all: rewrite (terragrunt_stage3 (fpath f) src _ (doc_inputs parsed)).
  all: destruct (Py.len (default (VDict []) (doc_inputs parsed))) as [n|] eqn:Hlen;
    [|left; split; [right; now right
                   |unfold _calculate_complexity_score; cbn [variables];
                    now rewrite Hlen]].
  all: right; split;
    [ intros [H|[H|H]];
      [ rewrite Htf in H; discriminate H
      | apply Exists_exists in H as (e & He & Hb);
        rewrite Forall_forall in Hok; now apply (Hok e)
      | congruence ]
    | exists n; split; [reflexivity|] ].
  all: rewrite (score_is_formula _ n) by (try reflexivity; exact Hlen).
  all: cbn [mbind option_bind]; unfold terragrunt_descriptor; cbn zeta;
    rewrite Htf; fold src; reflexivity.
Qed.

(** ** What holds of every descriptor *)

Lemma refs_in_module_words (payload : option value) (a b : string) :
  In (a, b) (refs_in module_refs payload) -> word a /\ word b.
Proof.
  destruct payload as [v|]; cbn [refs_in]; [apply module_refs_words | intros []].
Qed.

Lemma kept_refs_In (own : string) (refs : list (string * string))
    (r : string * string) :
  In r (kept_refs own refs) <-> In r refs /\ fst r <> own.
Proof.
  unfold kept_refs. rewrite filter_In, negb_true_iff.
  now destruct (String.eqb_spec (fst r) own).
Qed.

Lemma module_record_fields (ty fp src : string) (r : string * string) :
  source_module (module_record ty fp src r) = src /\
  target_module (module_record ty fp src r) = fst r /\
  dependency_type (module_record ty fp src r) = ty.
Proof. now destruct r. Qed.

Lemma kept_dependency (ty fp own d : string) (refs : list (string * string)) :
  (forall a b, In (a, b) refs -> word a) ->
  In d (List.map fst (kept_refs own refs)) ->
  d <> own /\ word d /\
  exists r, In r (List.map (module_record ty fp own) (kept_refs own refs)) /\
            target_module r = d /\ source_module r = own /\
            dependency_type r = ty.
Proof.
  intros Hw Hd. apply in_map_iff in Hd as ([a b] & <- & Hin).
  pose proof Hin as Hin'. apply kept_refs_In in Hin' as [Hr Hne].
  cbn [fst] in *. split; [exact Hne|]. split; [now apply (Hw a b)|].
  exists (module_record ty fp own (a, b)). split; [now apply in_map|].
  now cbn.
Qed.

Lemma styled_types (ty : string) :
  In ty (Dict.keys edge_styles) <->
  ty = "module_output" \/ ty = "terragrunt" \/ ty = "data_source"
  \/ ty = "remote_state" \/ ty = "module_reference"
  \/ ty = "data_source_module" \/ ty = "resource_module".
Proof.
  change (Dict.keys edge_styles)
    with ["module_output"; "terragrunt"; "data_source"; "remote_state";
          "module_reference"; "data_source_module"; "resource_module"].
  cbn [In]. split; intros H; repeat destruct H as [H|H]; subst; auto 10.
  destruct H.
Qed.

Lemma terragrunt_descriptor_ok (p : Path.t) (parsed : Doc) (n : nat) :
  descriptor_ok (Path.name (Path.parent p)) (terragrunt_descriptor p parsed n).
Proof.
  set (own := Path.name (Path.parent p)).
  unfold descriptor_ok, terragrunt_descriptor, set_complexity_score, formula_score.
  cbn [name outputs resources complexity_score dependencies
       terragrunt_dependencies dependency_details data_sources].
  fold own.
  split; [reflexivity|]. split; [constructor|]. split; [reflexivity|].
  split; [lia|]. split; [|split; [|split]].
  - intros d Hd.
    destruct (kept_dependency "module_output" (Path.str p) own d
                (refs_in module_refs (doc_inputs parsed)))
      as (Hne & Hw & r & Hr & Ht & Hs & Hty); [|exact Hd|].
    { intros a b Hab. eapply proj1, refs_in_module_words, Hab. }
    split; [exact Hne|]. split; [exact Hw|].
    exists r. rewrite !in_app_iff. auto 10.
  - intros d Hd. apply in_map_iff in Hd as ([a b] & <- & Hin).
    exists (terragrunt_record (Path.str p) own a b).
    split; [|now cbn]. apply in_app_iff. left.
    now apply (in_map (fun r => terragrunt_record (Path.str p) own (fst r) (snd r))
                 _ (a, b)).
  - intros r Hr. apply styled_types.
    rewrite !in_app_iff, !in_map_iff in Hr.
    destruct Hr as [(x & <- & _)|[(x & <- & _)|[(x & <- & _)|(x & <- & _)]]].
    + cbn. auto.
    + destruct x. cbn. auto.
    + destruct x as [[? ?] ?]. cbn. auto.
    + destruct x. cbn. auto 10.
  - intros r Hr Hty.
    rewrite !in_app_iff, !in_map_iff in Hr.
    destruct Hr as [(x & <- & _)|[(x & <- & _)|[(x & <- & _)|(x & <- & _)]]];
      try destruct x as [[? ?] ?]; try destruct x; cbn in Hty;
      destruct Hty; discriminate.
Qed.

Lemma module_block_descriptor_eq (p : Path.t) (k : string) (cfg : Dict.t value) :
  let fp := Path.str p in
  let inner := refs_in module_refs (Dict.get "variables" cfg) in
  let outer := module_refs (Py.str (VDict cfg)) in
  module_block_descriptor p k cfg =
  {| name := k;
     source := default (VStr EmptyString) (Dict.get "source" cfg);
     path := Path.str (Path.parent p);
     variables := default (VDict []) (Dict.get "variables" cfg);
     outputs := [];
     dependencies := List.map fst (kept_refs k inner)
                     ++ List.map fst (kept_refs k outer);
     terragrunt_dependencies := [];
     data_sources :=
       List.map data_target (refs_in data_refs (Dict.get "variables" cfg));
     resources := [];
     dependency_details :=
       (List.map (module_record "module_output" fp k) (kept_refs k inner)
        ++ List.map (data_record fp k)
                    (refs_in data_refs (Dict.get "variables" cfg))
        ++ List.map (remote_state_record fp k)
                    (refs_in remote_state_refs (Dict.get "variables" cfg)))
       ++ List.map (module_record "module_reference" fp k) (kept_refs k outer);
     complexity_score := 0 |}.
Proof.
  cbn zeta. unfold module_block_descriptor, _extract_module_dependencies.
  cbn zeta. rewrite fold_module_ref_step.
  destruct (Dict.get "variables" cfg) as [vars|].
  - rewrite analyze_variable_dependencies_eq. reflexivity.
  - reflexivity.
Qed.

Lemma module_block_descriptor_ok (p : Path.t) (k : string) (cfg : Dict.t value) :
  descriptor_ok k (module_block_descriptor p k cfg).
Proof.
  rewrite module_block_descriptor_eq. cbn zeta. unfold descriptor_ok.
  cbn [name outputs resources complexity_score dependencies
       terragrunt_dependencies dependency_details data_sources].
  split; [reflexivity|]. split; [constructor|]. split; [reflexivity|].
  split; [lia|]. split; [|split; [|split]].
  - intros d Hd. apply in_app_iff in Hd as [Hd|Hd].
    + destruct (kept_dependency "module_output" (Path.str p) k d
                  (refs_in module_refs (Dict.get "variables" cfg)))
        as (Hne & Hw & r & Hr & Ht & Hs & Hty); [|exact Hd|].
      { intros a b Hab. eapply proj1, refs_in_module_words, Hab. }
      split; [exact Hne|]. split; [exact Hw|].
      exists r. rewrite !in_app_iff. auto 10.
    + destruct (kept_dependency "module_reference" (Path.str p) k d
                  (module_refs (Py.str (VDict cfg))))
        as (Hne & Hw & r & Hr & Ht & Hs & Hty); [|exact Hd|].
      { intros a b Hab. eapply proj1, module_refs_words, Hab. }
      split; [exact Hne|]. split; [exact Hw|].
      exists r. rewrite !in_app_iff. auto 10.
  - intros d [].
  - intros r Hr. apply styled_types.
    rewrite !in_app_iff, !in_map_iff in Hr.
    destruct Hr as [[(x & <- & _)|[(x & <- & _)|(x & <- & _)]]|(x & <- & _)].
    + destruct x. cbn. auto.
    + destruct x as [[? ?] ?]. cbn. auto.
    + destruct x. cbn. auto 10.
    + destruct x. cbn. auto 10.
  - intros r Hr Hty.
    rewrite !in_app_iff, !in_map_iff in Hr.
    destruct Hr as [[(x & <- & _)|[(x & <- & _)|(x & <- & _)]]|(x & <- & _)];
      try destruct x as [[? ?] ?]; try destruct x; cbn in Hty;
      destruct Hty; discriminate.
Qed.

Lemma append_detail_ok (k ty fp src o : string) (m : ModuleInfo) :
  ty = "data_source_module" \/ ty = "resource_module" ->
  descriptor_ok k m ->
  descriptor_ok k (append_detail (module_record ty fp src (k, o)) m).
Proof.
  intros Hty (Hn & Ho & Hr & Hs & Hd & Ht & Hst & Hself).
  unfold descriptor_ok, append_detail.
  cbn [name outputs resources complexity_score dependencies
       terragrunt_dependencies dependency_details data_sources].
  repeat (split; [assumption|]).
  split; [|split; [|split]].
  - intros d Hin. destruct (Hd d Hin) as (? & ? & r & ? & ?).
    repeat (split; [assumption|]). exists r. rewrite in_app_iff. auto.
  - intros d Hin. destruct (Ht d Hin) as (r & ? & ?).
    exists r. rewrite in_app_iff. auto.
  - intros r Hin. apply in_app_iff in Hin as [Hin|[<-|[]]]; [now apply Hst|].
    apply styled_types. cbn. destruct Hty; auto 10.
  - intros r Hin. apply in_app_iff in Hin as [Hin|[<-|[]]]; [now apply Hself|].
    reflexivity.
Qed.

Lemma NoDup_snoc {A} (x : A) (l : list A) :
  List.NoDup l -> ~ In x l -> List.NoDup (l ++ [x]).
Proof.
  induction l as [|y l IH]; intros Hl Hx; simpl.
  - constructor; [intros [] | constructor].
  - inversion Hl as [|? ? Hy Hl']; subst. constructor.
    + rewrite in_app_iff. intros [H|[->|[]]]; [now apply Hy|].
      apply Hx. now left.
    + apply IH; [exact Hl'|]. intros H. apply Hx. now right.
Qed.

Lemma append_output_ok (k o : string) (m : ModuleInfo) :
  descriptor_ok k m -> ~ In o (outputs m) -> descriptor_ok k (append_output o m).
Proof.
  intros (Hn & Ho & Hr & Hs & Hd & Ht & Hst & Hself) Hnew.
  unfold descriptor_ok, append_output.
  cbn [name outputs resources complexity_score dependencies
       terragrunt_dependencies dependency_details data_sources].
  split; [assumption|]. split; [|auto 10].
  now apply NoDup_snoc.
Qed.

Lemma build_registry_descriptors (tgs tfs : list File) (k : string)
    (m : ModuleInfo) :
  Dict.get k (build_registry tgs tfs) = Some m -> descriptor_ok k m.
Proof.
  intros Hget. apply DictFacts.get_In in Hget. revert k m Hget.
  apply build_registry_entries.
  - intros f m _ Hm. destruct (loaded f) as [parsed|] eqn:Hl.
    + destruct (parse_terragrunt_file_cases f parsed Hl)
        as [[_ H]|[_ (n & _ & H)]]; rewrite H in Hm; [discriminate|].
      injection Hm as <-. apply terragrunt_descriptor_ok.
    + unfold parse_terragrunt_file in Hm. rewrite Hl in Hm. discriminate.
  - intros f k cfg _ _. apply module_block_descriptor_ok.
  - intros k m ty fp src o Hty Hm. now apply append_detail_ok.
  - intros k m o Hm Ho. now apply append_output_ok.
Qed.

(** ** What [parse_terragrunt_file] returns, and when it fails *)

(** X1. A Terragrunt file that loads is dropped exactly when it has an empty
    list of [terraform] blocks, a [config_path] that is not a str, or
    inputs without a length. *)
Theorem parse_terragrunt_file_fails_iff (f : File) (parsed : Doc) :
  loaded f = Some parsed ->
  (parse_terragrunt_file f = None <-> terragrunt_raises parsed).
Proof.
  intros Hl.
  destruct (parse_terragrunt_file_cases f parsed Hl)
    as [[Hr ->]|[Hr (n & _ & ->)]]; split; intros H;
    try reflexivity; try assumption; try discriminate; contradiction.
Qed.

Lemma parse_terragrunt_file_fails_witness :
  parse_terragrunt_file Fixtures.numeric_inputs_file = None
  <-> terragrunt_raises (Examples.with_inputs (VInt 5)).
Proof.
  apply (parse_terragrunt_file_fails_iff Fixtures.numeric_inputs_file).
  reflexivity.
Defined.

(** X2. The Terragrunt dependencies of a parsed file are the last segments of
    the [config_path]s that start with [../../], in the order of the
    dependency blocks, repetitions kept; each comes with a [terragrunt]
    record that keeps the path. *)
Theorem terragrunt_dependencies_resolved (f : File) (parsed : Doc)
    (m : ModuleInfo) :
  loaded f = Some parsed -> parse_terragrunt_file f = Some m ->
  let paths := resolved_paths (List.concat (default [] (doc_dependency parsed))) in
  terragrunt_dependencies m = List.map fst paths /\
  List.filter (fun r => String.eqb (dependency_type r) "terragrunt")
              (dependency_details m)
  = List.map (fun r => terragrunt_record (Path.str (fpath f)) (name m)
                                         (fst r) (snd r)) paths.
Proof.
  intros Hl Hm.
  destruct (parse_terragrunt_file_cases f parsed Hl)
    as [[_ H]|[_ (n & _ & H)]]; rewrite H in Hm; [discriminate|].
  injection Hm as <-. cbn zeta. split; [reflexivity|].
  unfold terragrunt_descriptor, set_complexity_score.
  cbn [dependency_details name].
  rewrite !List.filter_app.
  set (own := Path.name (Path.parent (fpath f))).
  assert (Hall : forall l : list DependencyInfo,
            Forall (fun r => dependency_type r = "terragrunt") l ->
            List.filter (fun r => String.eqb (dependency_type r) "terragrunt") l = l).
  { induction l as [|r l IH]; intros Hf; [reflexivity|].
    inversion Hf as [|? ? Hr Hf']; subst. cbn [List.filter].
    rewrite Hr, String.eqb_refl. now rewrite IH. }
  assert (Hnone : forall l : list DependencyInfo,
            Forall (fun r => dependency_type r <> "terragrunt") l ->
            List.filter (fun r => String.eqb (dependency_type r) "terragrunt") l = []).
  { induction l as [|r l IH]; intros Hf; [reflexivity|].
    inversion Hf as [|? ? Hr Hf']; subst. cbn [List.filter].
    destruct (String.eqb_spec (dependency_type r) "terragrunt"); [contradiction|].
    now apply IH. }
  rewrite Hall, !Hnone; [now rewrite !app_nil_r|..].
  all: apply List.Forall_forall; intros r Hr;
    apply in_map_iff in Hr as (x & <- & _);
    destruct x as [x1 x2]; try destruct x1 as [x1 x3];
    try reflexivity; discriminate.
Qed.

Lemma terragrunt_dependencies_resolved_witness :
  terragrunt_dependencies Fixtures.b_descriptor = ["a"] /\
  List.filter (fun r => String.eqb (dependency_type r) "terragrunt")
              (dependency_details Fixtures.b_descriptor)
  = [terragrunt_record "live/b/terragrunt.hcl" "b" "a" "../../live/a"].
Proof.
  apply (terragrunt_dependencies_resolved
           (Examples.tg ["live"; "b"] (Examples.with_deps [("a", "../../live/a")]))
           (Examples.with_deps [("a", "../../live/a")])
           Fixtures.b_descriptor);
    vm_compute; reflexivity.
Defined.

(** X3. The score of a descriptor [parse_terragrunt_file] returns is
    1 + 2 per dependency + 2 per Terragrunt dependency + the number of
    inputs + 3 per data source: its outputs and resources are empty when
    it is scored. *)
Theorem terragrunt_score (f : File) (m : ModuleInfo) :
  parse_terragrunt_file f = Some m ->
  outputs m = [] /\ resources m = [] /\
  exists n, Py.len (variables m) = Some n /\
    complexity_score m
    = (1 + 2 * Z.of_nat (List.length (dependencies m))
         + 2 * Z.of_nat (List.length (terragrunt_dependencies m))
         + Z.of_nat n
         + 3 * Z.of_nat (List.length (data_sources m)))%Z.
Proof.
  intros Hm. destruct (loaded f) as [parsed|] eqn:Hl.
  - destruct (parse_terragrunt_file_cases f parsed Hl)
      as [[_ H]|[_ (n & Hn & H)]]; rewrite H in Hm; [discriminate|].
    injection Hm as <-. split; [reflexivity|]. split; [reflexivity|].
    exists n. split; [exact Hn|].
    unfold terragrunt_descriptor, set_complexity_score, formula_score.
    cbn [complexity_score dependencies terragrunt_dependencies data_sources
         outputs List.length]. lia.
  - unfold parse_terragrunt_file in Hm. rewrite Hl in Hm. discriminate.
Qed.

Lemma terragrunt_score_witness :
  outputs Fixtures.b_descriptor = [] /\ resources Fixtures.b_descriptor = [] /\
  exists n, Py.len (variables Fixtures.b_descriptor) = Some n /\
    complexity_score Fixtures.b_descriptor
    = (1 + 2 * Z.of_nat (List.length (dependencies Fixtures.b_descriptor))
         + 2 * Z.of_nat (List.length (terragrunt_dependencies Fixtures.b_descriptor))
         + Z.of_nat n
         + 3 * Z.of_nat (List.length (data_sources Fixtures.b_descriptor)))%Z.
Proof.
  apply (terragrunt_score
           (Examples.tg ["live"; "b"] (Examples.with_deps [("a", "../../live/a")]))).
  vm_compute. reflexivity.
Defined.

Lemma split_chars_nonempty (sep : ascii) (s cur_rev : list ascii) :
  Py.split_chars sep s cur_rev <> [].
Proof.
  revert cur_rev. induction s as [|c s IH]; intros cur_rev;
    cbn [Py.split_chars]; [discriminate|].
  destruct (Ascii.eqb c sep); [discriminate | apply IH].
Qed.

Lemma split_chars_trailing (sep : ascii) (s cur_rev : list ascii) :
  List.last (Py.split_chars sep (s ++ [sep]) cur_rev) EmptyString = EmptyString.
Proof.
  revert cur_rev. induction s as [|c s IH]; intros cur_rev.
  - cbn [app Py.split_chars]. now rewrite Ascii.eqb_refl.
  - cbn [app Py.split_chars]. destruct (Ascii.eqb c sep); [|apply IH].
    specialize (IH []).
    pose proof (split_chars_nonempty sep (s ++ [sep]) []) as Hne.
    destruct (Py.split_chars sep (s ++ [sep]) []); [congruence | exact IH].
Qed.

Lemma chars_append (a b : string) : Py.chars (a +:+ b) = Py.chars a ++ Py.chars b.
Proof.
  unfold Py.chars. induction a as [|c a IH]; [reflexivity|].
  rewrite append_cons_l. cbn [list_ascii_of_string app]. now rewrite IH.
Qed.

Lemma startswith_append (p s : string) : Py.startswith p (p +:+ s) = true.
Proof.
  unfold Py.startswith. induction p as [|c p IH]; [now destruct s|].
  rewrite append_cons_l. cbn [String.prefix].
  destruct (ascii_dec c c); [exact IH | contradiction].
Qed.

(** X4. A [config_path] under [../../] that ends in a slash gives a
    dependency with the empty name: the last segment of the split. *)
Theorem trailing_slash_empty_name (fp dep_name rest : string) (m : ModuleInfo) :
  let config_path := "../../" +:+ rest +:+ "/" in
  dependency_step fp m (dep_name, [("config_path", VStr config_path)])
  = Some (append_detail
            (terragrunt_record fp (name m) EmptyString config_path)
            (append_terragrunt_dependency EmptyString m)).
Proof.
  cbn zeta. set (config_path := "../../" +:+ rest +:+ "/").
  assert (Hpre : Py.startswith "../../" config_path = true)
    by apply startswith_append.
  assert (Hlast : Py.last_part (Py.split "/" config_path) = EmptyString).
  { unfold Py.last_part, Py.split, config_path. rewrite !chars_append.
    change (Py.chars "/") with ["/"%char]. rewrite app_assoc.
    apply split_chars_trailing. }
  unfold dependency_step.
  change (Dict.get "config_path" [("config_path", VStr config_path)])
    with (Some (VStr config_path)).
  cbn iota. now rewrite Hpre, (split_parent_prefix _ Hpre), Hlast.
Qed.

(** ** What holds of every entry of the registry *)

(** X5. Every descriptor is stored under its own name. *)
Theorem registry_key_is_name (tgs tfs : list File) (k : string) (m : ModuleInfo) :
  Dict.get k (build_registry tgs tfs) = Some m -> name m = k.
Proof. intros H. now apply build_registry_descriptors in H as (Hn & _). Qed.

Lemma registry_key_is_name_witness : name Fixtures.vpc_descriptor = "vpc".
Proof.
  apply (registry_key_is_name [] [Fixtures.main_tf]). vm_compute. reflexivity.
Defined.

(** X6. The outputs of a descriptor hold no name twice. *)
Theorem registry_outputs_distinct (tgs tfs : list File) (k : string)
    (m : ModuleInfo) :
  Dict.get k (build_registry tgs tfs) = Some m -> List.NoDup (outputs m).
Proof. intros H. now apply build_registry_descriptors in H as (_ & Ho & _). Qed.

Lemma registry_outputs_distinct_witness :
  List.NoDup (outputs Fixtures.vpc_descriptor).
Proof.
  apply (registry_outputs_distinct [] [Fixtures.main_tf] "vpc").
  vm_compute. reflexivity.
Defined.

(** X7. No descriptor ever lists a resource: nothing appends to [resources]. *)
Theorem registry_resources_empty (tgs tfs : list File) (k : string)
    (m : ModuleInfo) :
  Dict.get k (build_registry tgs tfs) = Some m -> resources m = [].
Proof. intros H. now apply build_registry_descriptors in H as (_ & _ & Hr & _). Qed.

Lemma registry_resources_empty_witness : resources Fixtures.vpc_descriptor = [].
Proof.
  apply (registry_resources_empty [] [Fixtures.main_tf] "vpc").
  vm_compute. reflexivity.
Defined.

(** X8. A direct dependency is never the module itself, and it is a
    non-empty name over [[a-zA-Z0-9_-]]. *)
Theorem registry_dependency_names (tgs tfs : list File) (k d : string)
    (m : ModuleInfo) :
  Dict.get k (build_registry tgs tfs) = Some m -> In d (dependencies m) ->
  d <> k /\ word d.
Proof.
  intros H Hd. apply build_registry_descriptors in H as (_ & _ & _ & _ & H & _).
  destruct (H d Hd) as (? & ? & _). now split.
Qed.

(** X9. Every listed dependency has its record: a direct dependency a
    [module_output] or [module_reference] record, a Terragrunt dependency
    a [terragrunt] record, with the module as source. *)
Theorem registry_dependency_recorded (tgs tfs : list File) (k d : string)
    (m : ModuleInfo) :
  Dict.get k (build_registry tgs tfs) = Some m ->
  (In d (dependencies m) ->
   exists r, In r (dependency_details m) /\ target_module r = d /\
             source_module r = k /\
             (dependency_type r = "module_output"
              \/ dependency_type r = "module_reference")) /\
  (In d (terragrunt_dependencies m) ->
   exists r, In r (dependency_details m) /\ target_module r = d /\
             source_module r = k /\ dependency_type r = "terragrunt").
Proof.
  intros H. apply build_registry_descriptors in H
    as (_ & _ & _ & _ & Hd & Ht & _).
  split; intros Hin; [now destruct (Hd d Hin) as (_ & _ & ?) | now apply Ht].
Qed.

(** X10. The type of every record is one of the seven the two style tables
    know: the default style is never drawn. *)
Theorem registry_record_styled (tgs tfs : list File) (k : string)
    (m : ModuleInfo) (r : DependencyInfo) :
  Dict.get k (build_registry tgs tfs) = Some m -> In r (dependency_details m) ->
  Dict.mem (dependency_type r) edge_styles = true /\
  Dict.mem (dependency_type r) mermaid_edge_styles = true /\
  _get_edge_style (dependency_type r) <> "[color=gray, style=solid]".
Proof.
  intros H Hr. apply build_registry_descriptors in H
    as (_ & _ & _ & _ & _ & _ & Hs & _).
  apply Hs, styled_types in Hr. unfold _get_edge_style.
  repeat destruct Hr as [Hr|Hr]; rewrite Hr; repeat split; discriminate.
Qed.

Lemma registry_dependency_names_witness : "vpc" <> "app" /\ word "vpc".
Proof.
  apply (registry_dependency_names [] [Fixtures.main_tf] "app" "vpc"
           Fixtures.app_descriptor).
  - vm_compute. reflexivity.
  - vm_compute. left. reflexivity.
Defined.

Lemma registry_dependency_recorded_witness :
  (In "a" (dependencies Fixtures.b_descriptor) ->
   exists r, In r (dependency_details Fixtures.b_descriptor) /\
             target_module r = "a" /\ source_module r = "b" /\
             (dependency_type r = "module_output"
              \/ dependency_type r = "module_reference")) /\
  (In "a" (terragrunt_dependencies Fixtures.b_descriptor) ->
   exists r, In r (dependency_details Fixtures.b_descriptor) /\
             target_module r = "a" /\ source_module r = "b" /\
             dependency_type r = "terragrunt").
Proof.
  apply (registry_dependency_recorded Examples.chain_files [] "b" "a").
  vm_compute. reflexivity.
Defined.

Lemma registry_record_styled_witness :
  Dict.mem "data_source_module" edge_styles = true /\
  Dict.mem "data_source_module" mermaid_edge_styles = true /\
  _get_edge_style "data_source_module" <> "[color=gray, style=solid]".
Proof.
  apply (registry_record_styled [] [Fixtures.main_tf] "vpc" Fixtures.vpc_descriptor
           (module_record "data_source_module" "infra/main.tf" "data.aws_ami"
                          ("vpc", "owner"))).
  - vm_compute. reflexivity.
  - vm_compute. left. reflexivity.
Defined.

(** X11. A record left by a data source or a resource sits on the module it
    reads, with that module as target: the DOT graph draws it as an edge
    from the module to itself. *)
Theorem registered_detail_drawn_as_loop (tgs tfs : list File) (k : string)
    (m : ModuleInfo) (r : DependencyInfo) :
  Dict.get k (build_registry tgs tfs) = Some m -> In r (dependency_details m) ->
  dependency_type r = "data_source_module"
  \/ dependency_type r = "resource_module" ->
  target_module r = k /\
  In ("  " +:+ quoted k +:+ " -> " +:+ quoted k +:+ " "
      +:+ _get_edge_style (dependency_type r) +:+ ";")
     (dot_edge_lines (build_registry tgs tfs)).
Proof.
  intros H Hr Hty. pose proof H as Hok.
  apply build_registry_descriptors in Hok as (_ & _ & _ & _ & _ & _ & _ & Hs).
  pose proof (Hs r Hr Hty) as Ht. split; [exact Ht|].
  unfold dot_edge_lines. apply in_flat_map. exists (k, m).
  split; [now apply DictFacts.get_In|]. cbn [fst snd].
  apply in_map_iff. exists r. split.
  - unfold dot_edge_line. now rewrite Ht.
  - unfold drawn_details. apply filter_In. split; [exact Hr|].
    rewrite Ht. unfold Dict.mem. now rewrite H.
Qed.

Lemma registered_detail_drawn_as_loop_witness :
  "vpc" = "vpc" /\
  In ("  " +:+ quoted "vpc" +:+ " -> " +:+ quoted "vpc" +:+ " "
      +:+ _get_edge_style "resource_module" +:+ ";")
     (dot_edge_lines (build_registry [] [Fixtures.main_tf])).
Proof.
  apply (registered_detail_drawn_as_loop [] [Fixtures.main_tf] "vpc"
           Fixtures.vpc_descriptor
           (module_record "resource_module" "infra/main.tf" "resource.aws_instance"
                          ("vpc", "subnet_id"))).
  - vm_compute. reflexivity.
  - vm_compute. right. left. reflexivity.
  - right. reflexivity.
Defined.

(** X12. The score of a registered descriptor is 0, or it is the score of the
    Terragrunt parse: outputs added by the Terraform files later are not
    counted, and the lists the score reads do not change. *)
Theorem registry_score_ignores_outputs (tgs tfs : list File) (k : string)
    (m : ModuleInfo) :
  Dict.get k (build_registry tgs tfs) = Some m ->
  complexity_score m = 0%Z \/
  exists n, Py.len (variables m) = Some n /\
    complexity_score m
    = (1 + 2 * Z.of_nat (List.length (dependencies m))
         + 2 * Z.of_nat (List.length (terragrunt_dependencies m))
         + Z.of_nat n
         + 3 * Z.of_nat (List.length (data_sources m)))%Z.
Proof.
  intros Hget. apply DictFacts.get_In in Hget. revert k m Hget.
  apply (build_registry_entries tgs tfs
           (fun _ m =>
              complexity_score m = 0%Z \/
              exists n, Py.len (variables m) = Some n /\
                complexity_score m
                = (1 + 2 * Z.of_nat (List.length (dependencies m))
                     + 2 * Z.of_nat (List.length (terragrunt_dependencies m))
                     + Z.of_nat n
                     + 3 * Z.of_nat (List.length (data_sources m)))%Z)).
  - intros f m _ Hm. right.
    destruct (loaded f) as [parsed|] eqn:Hl.
    + destruct (parse_terragrunt_file_cases f parsed Hl)
        as [[_ H]|[_ (n & Hn & H)]]; rewrite H in Hm; [discriminate|].
      injection Hm as <-. exists n. split; [exact Hn|].
      unfold terragrunt_descriptor, set_complexity_score, formula_score.
      cbn [complexity_score dependencies terragrunt_dependencies data_sources
           outputs List.length]. lia.
    + unfold parse_terragrunt_file in Hm. rewrite Hl in Hm. discriminate.
  - intros f k cfg _ _. left. now rewrite module_block_descriptor_eq.
  - intros k m ty fp src o _ Hm. exact Hm.
  - intros k m o Hm _. exact Hm.
Qed.

(** X13. With no Terragrunt file, every module keeps the score 0 and is
    listed as of low complexity. *)
Theorem terraform_only_scores_zero (tfs : list File) (k : string) (m : ModuleInfo) :
  Dict.get k (build_registry [] tfs) = Some m ->
  complexity_score m = 0%Z /\
  In k (low_complexity (complexity_buckets (build_registry [] tfs))).
Proof.
  intros Hget. pose proof Hget as Hin. apply DictFacts.get_In in Hin.
  assert (Hz : complexity_score m = 0%Z).
  { apply (build_registry_entries [] tfs (fun _ m => complexity_score m = 0%Z))
      with (k := k); [| | | |exact Hin].
    - intros f m' [].
    - intros f k' cfg _ _. now rewrite module_block_descriptor_eq.
    - intros k' m' ty fp src o _ Hm. exact Hm.
    - intros k' m' o Hm _. exact Hm. }
  split; [exact Hz|].
  unfold complexity_buckets, names_where. cbn [low_complexity].
  apply in_map_iff. exists (k, m). split; [reflexivity|].
  apply filter_In. split; [exact Hin|]. cbn [snd]. now rewrite Hz.
Qed.

Lemma terraform_only_scores_zero_witness :
  complexity_score Fixtures.vpc_descriptor = 0%Z /\
  In "vpc" (low_complexity (complexity_buckets
                              (build_registry [] [Fixtures.main_tf]))).
Proof.
  apply (terraform_only_scores_zero [Fixtures.main_tf] "vpc").
  vm_compute. reflexivity.
Defined.

Lemma registry_score_ignores_outputs_witness :
  complexity_score Fixtures.a_descriptor = 0%Z \/
  exists n, Py.len (variables Fixtures.a_descriptor) = Some n /\
    complexity_score Fixtures.a_descriptor
    = (1 + 2 * Z.of_nat (List.length (dependencies Fixtures.a_descriptor))
         + 2 * Z.of_nat (List.length (terragrunt_dependencies Fixtures.a_descriptor))
         + Z.of_nat n
         + 3 * Z.of_nat (List.length (data_sources Fixtures.a_descriptor)))%Z.
Proof.
  apply (registry_score_ignores_outputs Examples.chain_files [Fixtures.outputs_tf] "a").
  vm_compute. reflexivity.
Defined.

(** ** The graph [build_dependency_graph] makes *)

Lemma add_node_present (v : string) (G : Nx.DiGraph) :
  In v (Nx.nodes G) -> Nx.add_node v G = G.
Proof.
  intros H. unfold Nx.add_node, Nx.has_node.
  apply mem_In in H. now rewrite H.
Qed.

Lemma nodes_add_edge_present (u v : string) (G : Nx.DiGraph) :
  In u (Nx.nodes G) -> In v (Nx.nodes G) ->
  Nx.nodes (Nx.add_edge u v G) = Nx.nodes G.
Proof.
  intros Hu Hv. unfold Nx.add_edge.
  rewrite (add_node_present u G Hu), (add_node_present v G Hv).
  now destruct (Nx.has_edge G u v).
Qed.

Lemma add_nodes_exact (l : Registry) (G : Nx.DiGraph) :
  List.NoDup (Nx.nodes G ++ Dict.keys l) ->
  Nx.nodes (fold_left (fun G entry => Nx.add_node (fst entry) G) l G)
  = Nx.nodes G ++ Dict.keys l.
Proof.
  revert G. induction l as [|[k m] l IH]; intros G Hnd; cbn [fold_left Dict.keys List.map fst].
  - now rewrite app_nil_r.
  - assert (Hk : ~ In k (Nx.nodes G)).
    { intros Hk. apply NoDup_remove_2 in Hnd. apply Hnd.
      apply in_app_iff. now left. }
    assert (Hadd : Nx.nodes (Nx.add_node k G) = Nx.nodes G ++ [k]).
    { unfold Nx.add_node, Nx.has_node. apply mem_false in Hk. now rewrite Hk. }
    change (Dict.keys ((k, m) :: l)) with (k :: Dict.keys l) in Hnd.
    rewrite IH; rewrite Hadd, <- app_assoc; [reflexivity | exact Hnd].
Qed.

Lemma add_dependency_edges_nodes (reg : Registry) (n : string)
    (deps : list string) (G : Nx.DiGraph) :
  In n (Nx.nodes G) -> (forall d, Dict.mem d reg = true -> In d (Nx.nodes G)) ->
  Nx.nodes (add_dependency_edges reg n deps G) = Nx.nodes G.
Proof.
  intros Hn Hreg. unfold add_dependency_edges.
  apply (fold_left_invariant (fun G' => Nx.nodes G' = Nx.nodes G)); [reflexivity|].
  intros G' d _ HG'. destruct (Dict.mem d reg) eqn:E; [|exact HG'].
  rewrite nodes_add_edge_present; rewrite ?HG'; auto.
Qed.

Lemma build_dependency_graph_nodes (reg : Registry) :
  List.NoDup (Dict.keys reg) ->
  Nx.nodes (build_dependency_graph reg) = Dict.keys reg.
Proof.
  intros Hnd. unfold build_dependency_graph.
  pose proof (add_nodes_exact reg Nx.empty Hnd) as H0. cbn [Nx.nodes Nx.empty app] in H0.
  set (G0 := fold_left (fun G entry => Nx.add_node (fst entry) G) reg Nx.empty) in *.
  apply (fold_left_invariant (fun G => Nx.nodes G = Dict.keys reg)); [exact H0|].
  intros G [n m] Hin HG.
  assert (Hn : In n (Dict.keys reg))
    by (change n with (fst (n, m)); now apply in_map).
  assert (Hreg : forall G', Nx.nodes G' = Dict.keys reg ->
                   forall d, Dict.mem d reg = true -> In d (Nx.nodes G')).
  { intros G' HG' d Hd. rewrite HG'. now apply DictFacts.mem_keys. }
  assert (Hn' : In n (Nx.nodes G)) by now rewrite HG.
  cbn beta iota.
  rewrite (add_dependency_edges_nodes reg n (terragrunt_dependencies m)).
  - rewrite add_dependency_edges_nodes; [exact HG | exact Hn' | now apply Hreg].
  - rewrite add_dependency_edges_nodes; [exact Hn' | exact Hn' | now apply Hreg].
  - intros d Hd.
    rewrite add_dependency_edges_nodes;
      [now apply (Hreg G HG) | exact Hn' | now apply Hreg].
Qed.

(** X14. The nodes of the graph are the registered names, in the order of the
    registry, each once. *)
Theorem graph_nodes_are_registry_keys (tgs tfs : list File) :
  Nx.nodes (build_dependency_graph (build_registry tgs tfs))
  = Dict.keys (build_registry tgs tfs) /\
  List.NoDup (Nx.nodes (build_dependency_graph (build_registry tgs tfs))).
Proof.
  pose proof (build_registry_NoDup tgs tfs) as Hnd.
  rewrite build_dependency_graph_nodes by exact Hnd. now split.
Qed.

Lemma add_dependency_edges_edges (reg : Registry) (n : string)
    (deps : list string) (G : Nx.DiGraph) (e : string * string) :
  In e (Nx.edges (add_dependency_edges reg n deps G)) <->
  In e (Nx.edges G) \/
  exists d, In d deps /\ Dict.mem d reg = true /\ e = (d, n).
Proof.
  unfold add_dependency_edges. revert G.
  induction deps as [|d deps IH]; intros G; cbn [fold_left].
  - split; [now left | intros [H|(d & [] & _)]; exact H].
  - rewrite IH. destruct (Dict.mem d reg) eqn:E.
    + rewrite edges_add_edge. split.
      * intros [[->|H]|(d' & Hd' & Hm & ->)]; [right; exists d; cbn; auto
                                               | now left
                                               | right; exists d'; cbn; auto].
      * intros [H|(d' & [<-|Hd'] & Hm & ->)];
          [left; now right | left; now left | right; now exists d'].
    + split.
      * intros [H|(d' & Hd' & Hm & ->)]; [now left | right; exists d'; cbn; auto].
      * intros [H|(d' & [<-|Hd'] & Hm & ->)];
          [now left | congruence | right; now exists d'].
Qed.

Lemma build_edges_fold (reg l : Registry) (G : Nx.DiGraph) (e : string * string) :
  In e (Nx.edges
          (fold_left
             (fun G entry =>
                let '(module_name, module_info) := entry in
                add_dependency_edges reg module_name
                  (terragrunt_dependencies module_info)
                  (add_dependency_edges reg module_name
                     (dependencies module_info) G)) l G)) <->
  In e (Nx.edges G) \/
  exists n m d, In (n, m) l /\
    (In d (dependencies m) \/ In d (terragrunt_dependencies m)) /\
    Dict.mem d reg = true /\ e = (d, n).
Proof.
  revert G. induction l as [|[n m] l IH]; intros G; cbn [fold_left].
  - split; [now left | intros [H|(n & m & d & [] & _)]; exact H].
  - rewrite IH, !add_dependency_edges_edges. split.
    + intros [[[H|(d & Hd & Hm & ->)]|(d & Hd & Hm & ->)]|(n' & m' & d & Hin & Hd & Hm & ->)].
      * now left.
      * right. exists n, m, d. cbn. auto.
      * right. exists n, m, d. cbn. auto.
      * right. exists n', m', d. cbn. auto.
    + intros [H|(n' & m' & d & [[= -> ->]|Hin] & Hd & Hm & ->)].
      * left. left. now left.
      * left. destruct Hd as [Hd|Hd]; [left; right | right]; now exists d.
      * right. now exists n', m', d.
Qed.

Lemma build_dependency_graph_edge (reg : Registry) (u v : string) :
  edge (build_dependency_graph reg) u v <->
  exists m, In (v, m) reg /\
    (In u (dependencies m) \/ In u (terragrunt_dependencies m)) /\
    Dict.mem u reg = true.
Proof.
  unfold edge, build_dependency_graph. cbn zeta. rewrite build_edges_fold.
  destruct (add_nodes_spec reg Nx.empty) as [He _]. cbn zeta in He. rewrite He.
  cbn [Nx.edges Nx.empty]. split.
  - intros [[]|(n & m & d & Hin & Hd & Hm & [= -> ->])]. now exists m.
  - intros (m & Hin & Hd & Hm). right. now exists v, m, u.
Qed.

(** X15. The graph has an edge from [u] to [v] exactly when the descriptor of
    [v] lists [u] as a dependency or as a Terragrunt dependency and [u] is
    registered: edges point from the dependency to the dependent, and a
    reference to an unregistered name gives no edge. *)
Theorem graph_edge_iff (reg : Registry) (u v : string) :
  edge (build_dependency_graph reg) u v <->
  exists m, In (v, m) reg /\
    (In u (dependencies m) \/ In u (terragrunt_dependencies m)) /\
    Dict.mem u reg = true.
Proof. apply build_dependency_graph_edge. Qed.

Lemma add_edge_NoDup (u v : string) (G : Nx.DiGraph) :
  List.NoDup (Nx.edges G) -> List.NoDup (Nx.edges (Nx.add_edge u v G)).
Proof.
  intros H. unfold Nx.add_edge.
  destruct (Nx.has_edge _ u v) eqn:E; cbn [Nx.edges]; rewrite !edges_add_node.
  - exact H.
  - apply NoDup_snoc; [exact H|]. intros Hin.
    assert (Nx.has_edge (Nx.add_node v (Nx.add_node u G)) u v = true); [|congruence].
    apply has_edge_In. now rewrite !edges_add_node.
Qed.

(** X16. No edge is stored twice, so [total_dependencies] counts the pairs
    (dependency, dependent) and not the references: a module that names
    the same registered dependency several times adds one. *)
Theorem graph_edges_distinct (reg : Registry) :
  List.NoDup (Nx.edges (build_dependency_graph reg)).
Proof.
  unfold build_dependency_graph.
  destruct (add_nodes_spec reg Nx.empty) as [He _]. cbn zeta in He.
  apply fold_left_invariant.
  - rewrite He. constructor.
  - intros G [n m] _ HG.
    assert (Hstep : forall deps G', List.NoDup (Nx.edges G') ->
                      List.NoDup (Nx.edges (add_dependency_edges reg n deps G'))).
    { intros deps G' HG'. unfold add_dependency_edges.
      apply fold_left_invariant; [exact HG'|].
      intros G'' d _ H. destruct (Dict.mem d reg); [now apply add_edge_NoDup | exact H]. }
    now apply Hstep, Hstep.
Qed.

(** ** Impact analysis and the impact report *)

Lemma analyze_impact_registered (reg : Registry) (M : string) :
  Dict.mem M reg = true ->
  exists S, analyze_impact reg (build_dependency_graph reg) M = Some S /\
    forall x, x ∈ S <-> x <> M /\ reachable (build_dependency_graph reg) M x.
Proof.
  intros HM. destruct (build_dependency_graph_ok reg) as [HG Hnodes].
  unfold analyze_impact. rewrite HM. cbn [negb].
  pose proof HM as HM'. apply DictFacts.mem_keys in HM'.
  destruct (impact_loop (build_dependency_graph reg) M (Dict.keys reg) ∅ HG)
    as (S & HS & Hiff); [now apply Hnodes | intros x Hx; now apply Hnodes |].
  exists S. split; [exact HS|]. intros x. rewrite Hiff. split.
  - intros [H|(_ & Hne & Hr)]; [set_solver | now split].
  - intros [Hne Hr]. right. split; [|now split].
    destruct (reachable_node _ _ _ HG Hr) as [->|Hx]; [contradiction|].
    now apply Hnodes.
Qed.

Lemma analyze_impact_unregistered (reg : Registry) (G : Nx.DiGraph) (M : string) :
  Dict.mem M reg = false -> analyze_impact reg G M = Some ∅.
Proof. intros H. unfold analyze_impact. now rewrite H. Qed.

(** X17. A module that lists a registered module [u] among its dependencies
    or its Terragrunt dependencies is in the impact set of [u]. *)
Theorem dependent_is_impacted (reg : Registry) (u v : string) (m : ModuleInfo) :
  In (v, m) reg ->
  In u (dependencies m) \/ In u (terragrunt_dependencies m) ->
  Dict.mem u reg = true -> u <> v ->
  exists S, analyze_impact reg (build_dependency_graph reg) u = Some S /\ v ∈ S.
Proof.
  intros Hin Hd Hu Hne.
  destruct (analyze_impact_registered reg u Hu) as (S & HS & Hiff).
  exists S. split; [exact HS|]. apply Hiff. split; [congruence|].
  apply rtc_once. apply build_dependency_graph_edge. now exists m.
Qed.

Lemma dependent_is_impacted_witness :
  exists S,
    analyze_impact (build_registry Examples.chain_files [])
      (build_dependency_graph (build_registry Examples.chain_files [])) "a"
    = Some S /\ "b" ∈ S.
Proof.
  apply (dependent_is_impacted (build_registry Examples.chain_files []) "a" "b"
           Fixtures.b_descriptor).
  - vm_compute. right. left. reflexivity.
  - right. vm_compute. left. reflexivity.
  - vm_compute. reflexivity.
  - discriminate.
Defined.

(** X18. Impact sets are closed under impact: what a module of the impact set
    of [x] impacts is in the impact set of [x] too, [x] itself apart. *)
Theorem impact_is_transitive (reg : Registry) (x y z : string)
    (Sx Sy : gset string) :
  analyze_impact reg (build_dependency_graph reg) x = Some Sx ->
  analyze_impact reg (build_dependency_graph reg) y = Some Sy ->
  y ∈ Sx -> z ∈ Sy -> z <> x -> z ∈ Sx.
Proof.
  intros Hx Hy Hyx Hzy Hne.
  destruct (Dict.mem x reg) eqn:Ex;
    [|rewrite (analyze_impact_unregistered _ _ _ Ex) in Hx;
      injection Hx as <-; set_solver].
  destruct (Dict.mem y reg) eqn:Ey;
    [|rewrite (analyze_impact_unregistered _ _ _ Ey) in Hy;
      injection Hy as <-; set_solver].
  destruct (analyze_impact_registered reg x Ex) as (S1 & H1 & Hiff1).
  destruct (analyze_impact_registered reg y Ey) as (S2 & H2 & Hiff2).
  assert (S1 = Sx) as -> by congruence. assert (S2 = Sy) as -> by congruence.
  apply Hiff1. split; [exact Hne|].
  apply Hiff1 in Hyx as [_ Hxy]. apply Hiff2 in Hzy as [_ Hyz].
  unfold reachable in *. now apply rtc_trans with y.
Qed.

Lemma impact_is_transitive_witness :
  "c" ∈ ({[ "b" ]} ∪ {[ "c" ]} : gset string).
Proof.
  apply (impact_is_transitive (build_registry Fixtures.chain3_files [])
           "a" "b" "c" ({[ "b" ]} ∪ {[ "c" ]}) {[ "c" ]}).
  - vm_compute. reflexivity.
  - vm_compute. reflexivity.
  - vm_compute. reflexivity.
  - vm_compute. reflexivity.
  - discriminate.
Defined.

(** ** The dependency paths *)

(** X19. Every entry of the path analysis is the full list of simple paths of
    a pair of distinct registered modules that renders to its key, and no
    entry is empty. *)
Theorem dependency_paths_entries (reg : Registry)
    (paths : Dict.t (list (list string))) (k : string) (ps : list (list string)) :
  analyze_dependency_paths reg (build_dependency_graph reg) = Some paths ->
  Dict.get k paths = Some ps ->
  ps <> [] /\
  exists s t, In s (Dict.keys reg) /\ In t (Dict.keys reg) /\ s <> t /\
    k = path_key s t /\
    forall p, In p ps <-> simple_path (build_dependency_graph reg) s t p.
Proof.
  intros Hrun. revert k ps. unfold analyze_dependency_paths in Hrun.
  destruct (build_dependency_graph_ok reg) as [HG Hnodes].
  apply (for_each_invariant
           (fun d => forall k ps, Dict.get k d = Some ps ->
              ps <> [] /\
              exists s t, In s (Dict.keys reg) /\ In t (Dict.keys reg) /\ s <> t /\
                k = path_key s t /\
                forall p, In p ps <-> simple_path (build_dependency_graph reg) s t p)
           (path_step (build_dependency_graph reg))
           (flat_map (fun source => List.map (pair source) (Dict.keys reg))
                     (Dict.keys reg))
           []); [intros k ps H; discriminate H | | exact Hrun].
  intros d [s t] d' Hin Hd Hstep k ps Hget.
  apply In_pairs in Hin as [Hs Ht].
  destruct (path_step_get _ _ _ _ _ k Hstep)
    as [E|(Hne & -> & ps' & Hall & Hne' & E)].
  - rewrite E in Hget. now apply Hd.
  - assert (ps' = ps) as -> by congruence. split; [exact Hne'|].
    exists s, t. repeat (split; [assumption|]). split; [reflexivity|].
    destruct (all_simple_paths_spec (build_dependency_graph reg) s t HG)
      as (ps2 & Hall2 & Hspec); [now apply Hnodes | now apply Hnodes | exact Hne |].
    assert (ps2 = ps) as -> by congruence. exact Hspec.
Qed.

Lemma dependency_paths_entries_witness :
  [["a"; "b"]] <> [] /\
  exists s t,
    In s (Dict.keys (build_registry Examples.chain_files [])) /\
    In t (Dict.keys (build_registry Examples.chain_files [])) /\ s <> t /\
    path_key "a" "b" = path_key s t /\
    forall p, In p [["a"; "b"]] <->
      simple_path (build_dependency_graph (build_registry Examples.chain_files []))
                  s t p.
Proof.
  apply (dependency_paths_entries (build_registry Examples.chain_files [])
           [(path_key "a" "b", [["a"; "b"]])]).
  - vm_compute. reflexivity.
  - vm_compute. reflexivity.
Defined.

(** ** The cycles and how they are drawn *)

Lemma cycles_from_sound (G : Nx.DiGraph) (root : string) (allowed : list string)
    (d : nat) :
  forall (pre : list string) (v : string) (c : list string),
    List.NoDup (v :: pre) -> walk G (rev (v :: pre)) ->
    head (rev (v :: pre)) = Some root ->
    In c (Nx.cycles_from d G root allowed (v :: pre) v) ->
    elementary_cycle G c.
Proof.
  induction d as [|d IH]; intros pre v c Hnd Hwalk Hhead; cbn [Nx.cycles_from];
    [intros []|].
  rewrite in_flat_map. intros (child & Hchild & Hc).
  apply successors_In in Hchild.
  destruct (String.eqb_spec child root) as [->|Hne].
  - destruct Hc as [<-|[]].
    assert (Hw : walk G (rev (v :: pre) ++ [root])).
    { cbn [rev] in *. now apply walk_snoc. }
    apply NoDup_rev in Hnd.
    destruct (rev (v :: pre)) as [|h tl]; [discriminate Hhead|].
    injection Hhead as ->. cbn [elementary_cycle]. now split.
  - destruct (Nx.mem child (v :: pre)) eqn:Hmem; cbn [orb] in Hc; [destruct Hc|].
    destruct (Nx.mem child allowed); cbn [negb] in Hc; [|destruct Hc].
    apply mem_false in Hmem.
    apply (IH (v :: pre) child c); [now constructor | | | exact Hc].
    + change (rev (child :: v :: pre)) with (rev (v :: pre) ++ [child]).
      cbn [rev] in *. now apply walk_snoc.
    + change (rev (child :: v :: pre)) with (rev (v :: pre) ++ [child]).
      destruct (rev (v :: pre)); [discriminate Hhead | exact Hhead].
Qed.

Lemma cycles_over_sound (G : Nx.DiGraph) (todo : list string) (c : list string) :
  In c (Nx.cycles_over G todo) -> elementary_cycle G c.
Proof.
  induction todo as [|v rest IH]; cbn [Nx.cycles_over]; [intros []|].
  rewrite in_app_iff. intros [H|H]; [|now apply IH].
  apply (cycles_from_sound G v rest (S (List.length rest)) [] v c);
    [| exact I | reflexivity | exact H].
  constructor; [intros [] | constructor].
Qed.

Lemma walk_nth (G : Nx.DiGraph) (l : list string) (i : nat) :
  walk G l -> (i + 1 < List.length l)%nat ->
  edge G (List.nth i l EmptyString) (List.nth (i + 1) l EmptyString).
Proof.
  revert i. induction l as [|u [|v l] IH]; intros i Hw Hi; cbn [List.length] in Hi;
    try lia.
  destruct Hw as [He Hw]. destruct i as [|i]; [exact He|].
  apply (IH i Hw). cbn [List.length]. lia.
Qed.

Lemma cycle_step_edge (G : Nx.DiGraph) (c : list string) (u v : string) :
  elementary_cycle G c -> In (u, v) (cycle_steps c) -> edge G u v.
Proof.
  intros Hc Hin. unfold cycle_steps in Hin.
  apply in_map_iff in Hin as (i & [= <- <-] & Hi). apply in_seq in Hi as [_ Hi].
  cbn [plus] in Hi. destruct c as [|v0 tl]; [destruct Hc|].
  destruct Hc as [_ Hw]. set (c := v0 :: tl) in *.
  pose proof (walk_nth G (c ++ [v0]) i Hw) as He.
  rewrite length_app in He. cbn [List.length] in He.
  specialize (He ltac:(lia)).
  rewrite app_nth1 in He by exact Hi.
  destruct (Nat.eq_dec (i + 1) (List.length c)) as [E|E].
  - rewrite E, Nat.Div0.mod_same. rewrite E in He.
    rewrite app_nth2, Nat.sub_diag in He by lia. exact He.
  - rewrite Nat.mod_small by lia. rewrite app_nth1 in He by lia. exact He.
Qed.

(** X20. Every cycle the detection returns is an elementary cycle of the
    graph: it is not empty, it repeats no module, and each module has an
    edge to the next one, the last to the first. (The enumeration
    [simple_cycles] is the model of the graph package.) *)
Theorem detected_cycle_is_elementary (G : Nx.DiGraph) (c : list string) :
  In c (detect_circular_dependencies G) ->
  c <> [] /\ List.NoDup c /\ elementary_cycle G c.
Proof.
  intros H. apply cycles_over_sound in H. split; [|split; [|exact H]].
  - intros ->. destruct H.
  - destruct c; [destruct H | now destruct H].
Qed.

Lemma detected_cycle_is_elementary_witness :
  ["A"; "B"; "C"] <> [] /\ List.NoDup ["A"; "B"; "C"] /\
  elementary_cycle
    (build_dependency_graph (build_registry Examples.cycle_files []))
    ["A"; "B"; "C"].
Proof.
  apply (detected_cycle_is_elementary
           (build_dependency_graph (build_registry Examples.cycle_files []))).
  vm_compute. left. reflexivity.
Defined.

(** X21. The red edges the DOT graph draws for a detected cycle are edges of
    the graph, one for each module of the cycle: the step after the last
    module goes back to the first. *)
Theorem cycle_steps_are_edges (G : Nx.DiGraph) (c : list string) :
  In c (detect_circular_dependencies G) ->
  List.length (cycle_steps c) = List.length c /\
  forall u v, In (u, v) (cycle_steps c) -> edge G u v.
Proof.
  intros H. apply cycles_over_sound in H. split.
  - unfold cycle_steps. now rewrite length_map, length_seq.
  - intros u v. now apply cycle_step_edge.
Qed.

Lemma cycle_steps_are_edges_witness :
  List.length (cycle_steps ["A"; "B"; "C"]) = List.length ["A"; "B"; "C"] /\
  forall u v, In (u, v) (cycle_steps ["A"; "B"; "C"]) ->
    edge (build_dependency_graph (build_registry Examples.cycle_files [])) u v.
Proof.
  apply (cycle_steps_are_edges
           (build_dependency_graph (build_registry Examples.cycle_files []))).
  vm_compute. left. reflexivity.
Defined.

(** ** The impact report *)

Lemma impact_report_loop (reg : Registry) (l : list string) :
  forall r0 : ImpactReport,
  exists r,
    for_each (impact_report_step reg (build_dependency_graph reg)) l r0 = Some r /\
    recommendations r = recommendations r0 /\
    (forall k e,
       Dict.get k (module_impact_analysis r) = Some e <->
       (In k l /\ exists S,
          analyze_impact reg (build_dependency_graph reg) k = Some S /\
          e = {| affected_modules := elements S;
                 impact_count := List.length (elements S) |})
       \/ (~ In k l /\ Dict.get k (module_impact_analysis r0) = Some e)) /\
    (forall h,
       In h (high_impact_modules r) <->
       In h (high_impact_modules r0)
       \/ exists k S, In k l /\
            analyze_impact reg (build_dependency_graph reg) k = Some S /\
            (3 < List.length (elements S))%nat /\
            h = {| hi_module := k; hi_impact_count := List.length (elements S);
                   hi_affected_modules := elements S |}).
Proof.
  induction l as [|k0 l IH]; intros r0.
  - exists r0. split; [reflexivity|]. split; [reflexivity|]. split.
    + intros k e. cbn [In]. split; [intros H; right; tauto | intros [[[] _]|[_ H]]; exact H].
    + intros h. split; [now left | intros [H|(k & S & [] & _)]; exact H].
  - cbn [for_each]. unfold impact_report_step at 1.
    destruct (analyze_impact_total reg k0) as (S0 & HS0). rewrite HS0.
    cbn [mbind option_bind].
    set (r1 := {| high_impact_modules := _; module_impact_analysis := _;
                  recommendations := _ |}).
    destruct (IH r1) as (r & Hr & Hrec & Hget & Hhigh).
    exists r. split; [exact Hr|]. split; [exact Hrec|]. split.
    + intros k e. rewrite Hget. subst r1. cbn [module_impact_analysis].
      rewrite DictFacts.get_set. cbn [In].
      destruct (String.eqb_spec k k0) as [->|Hne].
      * split.
        -- intros [[Hin H]|[Hnin [= <-]]]; left; (split; [auto|]); [exact H|].
           now exists S0.
        -- intros [[_ (S & HS & ->)]|[Hnin _]]; [|exfalso; apply Hnin; now left].
           destruct (in_dec string_dec k0 l) as [Hin|Hnin].
           ++ left. split; [exact Hin|]. now exists S.
           ++ right. split; [exact Hnin|]. congruence.
      * split.
        -- intros [[Hin H]|[Hnin H]]; [left; split; [now right | exact H]|].
           right. split; [|exact H]. intros [E|Hin]; [congruence | contradiction].
        -- intros [[[E|Hin] H]|[Hnin H]]; [congruence | left; now split |].
           right. split; [|exact H]. intros Hin. apply Hnin. now right.
    + intros h. rewrite Hhigh. subst r1. cbn [high_impact_modules In].
      destruct (3 <? List.length (elements S0))%nat eqn:Hbig.
      * apply Nat.ltb_lt in Hbig. rewrite in_app_iff. cbn [In]. split.
        -- intros [[H|[<-|[]]]|(k & S & Hin & HS & Hlt & ->)].
           ++ now left.
           ++ right. exists k0, S0. auto.
           ++ right. exists k, S. auto.
        -- intros [H|(k & S & [<-|Hin] & HS & Hlt & ->)].
           ++ left. now left.
           ++ left. right. left. congruence.
           ++ right. now exists k, S.
      * apply Nat.ltb_ge in Hbig. split.
        -- intros [H|(k & S & Hin & HS & Hlt & ->)]; [now left|].
           right. exists k, S. auto.
        -- intros [H|(k & S & [<-|Hin] & HS & Hlt & ->)].
           ++ now left.
           ++ assert (S = S0) as -> by congruence. lia.
           ++ right. now exists k, S.
Qed.

(** X22. The impact report has one entry for each registered module and no
    other: the elements of its impact set and their number. *)
Theorem impact_report_entries (reg : Registry) :
  exists r, generate_impact_report reg (build_dependency_graph reg) = Some r /\
    forall k e,
      Dict.get k (module_impact_analysis r) = Some e <->
      In k (Dict.keys reg) /\
      exists S, analyze_impact reg (build_dependency_graph reg) k = Some S /\
        e = {| affected_modules := elements S;
               impact_count := List.length (elements S) |}.
Proof.
  unfold generate_impact_report.
  destruct (impact_report_loop reg (Dict.keys reg) empty_impact_report)
    as (r & -> & _ & Hget & _).
  cbn [mbind option_bind]. eexists. split; [reflexivity|].
  cbn [module_impact_analysis]. intros k e. rewrite Hget. cbn. split.
  - intros [H|[_ H]]; [exact H | discriminate].
  - intros H. now left.
Qed.

(** X23. The high-impact modules of the report are the registered modules
    whose impact set has more than three elements, and the
    recommendations are one sentence for each of them, in that order. *)
Theorem high_impact_modules_listed (reg : Registry) :
  exists r, generate_impact_report reg (build_dependency_graph reg) = Some r /\
    (forall h,
       In h (high_impact_modules r) <->
       exists k S, In k (Dict.keys reg) /\
         analyze_impact reg (build_dependency_graph reg) k = Some S /\
         (3 < List.length (elements S))%nat /\
         h = {| hi_module := k; hi_impact_count := List.length (elements S);
                hi_affected_modules := elements S |}) /\
    recommendations r = List.map recommendation (high_impact_modules r).
Proof.
  unfold generate_impact_report.
  destruct (impact_report_loop reg (Dict.keys reg) empty_impact_report)
    as (r & -> & Hrec & _ & Hhigh).
  cbn [mbind option_bind]. eexists. split; [reflexivity|].
  cbn [high_impact_modules recommendations]. split.
  - intros h. rewrite Hhigh. cbn. split; [intros [[]|H]; exact H | now right].
  - rewrite Hrec. reflexivity.
Qed.

(** ** The colours and the edges of the two renderings *)

(** X24. The fill colour of the DOT node and the class of the Mermaid node of
    a module agree with the complexity bucket that lists it. *)
Theorem colour_matches_bucket (tgs tfs : list File) (k : string) (m : ModuleInfo) :
  Dict.get k (build_registry tgs tfs) = Some m ->
  let b := complexity_buckets (build_registry tgs tfs) in
  (In k (high_complexity b) <->
   dot_fillcolor (complexity_score m) = "lightcoral"
   /\ mermaid_style (complexity_score m) = ":::complex") /\
  (In k (medium_complexity b) <->
   dot_fillcolor (complexity_score m) = "lightyellow"
   /\ mermaid_style (complexity_score m) = ":::medium") /\
  (In k (low_complexity b) <->
   dot_fillcolor (complexity_score m) = "lightblue"
   /\ mermaid_style (complexity_score m) = ":::simple").
Proof.
  intros Hget. cbn zeta. unfold complexity_buckets.
  cbn [high_complexity medium_complexity low_complexity].
  rewrite !names_where_In by apply build_registry_NoDup.
  unfold dot_fillcolor, mermaid_style.
  assert (Hm : forall p : Z -> bool,
            (exists m', Dict.get k (build_registry tgs tfs) = Some m'
                        /\ p (complexity_score m') = true)
            <-> p (complexity_score m) = true).
  { intros p. split; [intros (m' & Hm' & Hp); congruence | intros Hp; now exists m]. }
  rewrite (Hm (fun s => (10 <? s)%Z)),
          (Hm (fun s => ((5 <? s) && (s <=? 10))%Z)),
          (Hm (fun s => (s <=? 5)%Z)).
  destruct (Z.ltb_spec 10 (complexity_score m));
    destruct (Z.ltb_spec 5 (complexity_score m));
    destruct (Z.leb_spec (complexity_score m) 10);
    destruct (Z.leb_spec (complexity_score m) 5);
    try lia; cbn beta; cbn [andb].
  all: split; [|split].
  all: split; intros H';
    [ try discriminate H'; split; reflexivity
    | try reflexivity; destruct H' as [H' _]; discriminate H' ].
Qed.

Lemma colour_matches_bucket_witness :
  let b := complexity_buckets (build_registry [] [Fixtures.main_tf]) in
  (In "vpc" (high_complexity b) <->
   dot_fillcolor (complexity_score Fixtures.vpc_descriptor) = "lightcoral"
   /\ mermaid_style (complexity_score Fixtures.vpc_descriptor) = ":::complex") /\
  (In "vpc" (medium_complexity b) <->
   dot_fillcolor (complexity_score Fixtures.vpc_descriptor) = "lightyellow"
   /\ mermaid_style (complexity_score Fixtures.vpc_descriptor) = ":::medium") /\
  (In "vpc" (low_complexity b) <->
   dot_fillcolor (complexity_score Fixtures.vpc_descriptor) = "lightblue"
   /\ mermaid_style (complexity_score Fixtures.vpc_descriptor) = ":::simple").
Proof.
  apply (colour_matches_bucket [] [Fixtures.main_tf] "vpc").
  vm_compute. reflexivity.
Defined.

(** X25. Every edge of the graph is drawn in both renderings, from the
    dependency to the dependent, with the style of a module or of a
    Terragrunt dependency. *)
Theorem graph_edge_is_drawn (tgs tfs : list File) (u v : string) :
  edge (build_dependency_graph (build_registry tgs tfs)) u v ->
  exists ty,
    (ty = "module_output" \/ ty = "module_reference" \/ ty = "terragrunt") /\
    In ("  " +:+ quoted u +:+ " -> " +:+ quoted v +:+ " "
        +:+ _get_edge_style ty +:+ ";")
       (dot_edge_lines (build_registry tgs tfs)) /\
    In ("    " +:+ u +:+ " " +:+ _get_mermaid_edge_style ty +:+ " " +:+ v)
       (mermaid_edge_lines (build_registry tgs tfs)).
Proof.
  intros He. apply build_dependency_graph_edge in He as (m & Hin & Hd & Hu).
  pose proof (DictFacts.In_get _ _ _ (build_registry_NoDup tgs tfs) Hin) as Hget.
  pose proof (build_registry_descriptors _ _ _ _ Hget)
    as (_ & _ & _ & _ & Hdep & Htg & _).
  assert (Hr : exists r, In r (dependency_details m) /\ target_module r = u /\
                 (dependency_type r = "module_output"
                  \/ dependency_type r = "module_reference"
                  \/ dependency_type r = "terragrunt")).
  { destruct Hd as [Hd|Hd].
    - destruct (Hdep u Hd) as (_ & _ & r & Hr & Ht & _ & Hty).
      exists r. split; [exact Hr|]. split; [exact Ht|]. tauto.
    - destruct (Htg u Hd) as (r & Hr & Ht & _ & Hty).
      exists r. split; [exact Hr|]. split; [exact Ht|]. tauto. }
  destruct Hr as (r & Hr & Ht & Hty).
  assert (Hdrawn : In r (drawn_details (build_registry tgs tfs) m)).
  { unfold drawn_details. apply filter_In. split; [exact Hr|]. now rewrite Ht. }
  exists (dependency_type r). split; [exact Hty|]. split.
  - unfold dot_edge_lines. apply in_flat_map. exists (v, m). split; [exact Hin|].
    cbn [fst snd]. apply in_map_iff. exists r. split; [|exact Hdrawn].
    unfold dot_edge_line. now rewrite Ht.
  - unfold mermaid_edge_lines. apply in_flat_map. exists (v, m). split; [exact Hin|].
    cbn [fst snd]. apply in_map_iff. exists r. split; [|exact Hdrawn].
    unfold mermaid_edge_line. now rewrite Ht.
Qed.

Lemma graph_edge_is_drawn_witness :
  exists ty,
    (ty = "module_output" \/ ty = "module_reference" \/ ty = "terragrunt") /\
    In ("  " +:+ quoted "a" +:+ " -> " +:+ quoted "b" +:+ " "
        +:+ _get_edge_style ty +:+ ";")
       (dot_edge_lines (build_registry Examples.chain_files [])) /\
    In ("    " +:+ "a" +:+ " " +:+ _get_mermaid_edge_style ty +:+ " " +:+ "b")
       (mermaid_edge_lines (build_registry Examples.chain_files [])).
Proof.
  apply (graph_edge_is_drawn Examples.chain_files [] "a" "b").
  vm_compute. left. reflexivity.
Defined.

(** ** Runs without a module *)

(** X26. When no file loads (or there is no file), the run returns the empty
    report: no module, no cycle, no path, no impact entry, zero totals. *)
Theorem nothing_loads_empty_report (tgs tfs : list File) :
  (forall f, In f (tgs ++ tfs) -> loaded f = None) ->
  analyze tgs tfs
  = Some {| modules := []; circular_dependencies := []; dependency_paths := [];
            impact_analysis := empty_impact_report;
            total_modules := 0; total_dependencies := 0;
            complexity_analysis :=
              {| high_complexity := []; medium_complexity := [];
                 low_complexity := [] |} |}.
Proof.
  intros Hnone.
  assert (Hreg : build_registry tgs tfs = []).
  { unfold build_registry, parse_terraform_files.
    apply (fold_left_invariant (fun reg : Registry => reg = [])).
    - apply (fold_left_invariant (fun reg : Registry => reg = [])); [reflexivity|].
      intros reg f Hf ->. apply register_terragrunt_malformed.
      apply Hnone, in_app_iff. now left.
    - intros reg f Hf ->. apply parse_terraform_file_malformed.
      apply Hnone, in_app_iff. now right. }
  unfold analyze. rewrite Hreg. reflexivity.
Qed.

Lemma nothing_loads_empty_report_witness :
  analyze [Examples.malformed_file] []
  = Some {| modules := []; circular_dependencies := []; dependency_paths := [];
            impact_analysis := empty_impact_report;
            total_modules := 0; total_dependencies := 0;
            complexity_analysis :=
              {| high_complexity := []; medium_complexity := [];
                 low_complexity := [] |} |}.
Proof.
  apply (nothing_loads_empty_report [Examples.malformed_file] []).
  intros f [<-|[]]. reflexivity.
Defined.

(** ** Names that collide *)

(** X27. Two Terragrunt files in directories of the same name share one
    registry key: the descriptor of the later file is the only one kept
    under that name. *)
Theorem same_directory_name_last_wins (l1 l2 : list File) (f : File)
    (m : ModuleInfo) :
  parse_terragrunt_file f = Some m ->
  (forall g mg, In g l2 -> parse_terragrunt_file g = Some mg -> name mg <> name m) ->
  Dict.get (name m) (build_registry (l1 ++ f :: l2) []) = Some m /\
  forall m', In (name m, m') (build_registry (l1 ++ f :: l2) []) -> m' = m.
Proof.
  intros Hm Hlater.
  assert (Hget : Dict.get (name m) (build_registry (l1 ++ f :: l2) []) = Some m).
  { unfold build_registry, parse_terraform_files. cbn [fold_left].
    exact (terragrunt_last_definition l1 l2 f m [] Hm Hlater). }
  split; [exact Hget|]. intros m' Hin.
  apply (DictFacts.In_get _ _ _ (build_registry_NoDup (l1 ++ f :: l2) [])) in Hin.
  congruence.
Qed.

Lemma same_directory_name_last_wins_witness :
  Dict.get (name Fixtures.dev_vpc_descriptor)
           (build_registry ([Fixtures.prod_vpc] ++ Fixtures.dev_vpc :: []) [])
  = Some Fixtures.dev_vpc_descriptor /\
  forall m', In (name Fixtures.dev_vpc_descriptor, m')
                (build_registry ([Fixtures.prod_vpc] ++ Fixtures.dev_vpc :: []) []) ->
             m' = Fixtures.dev_vpc_descriptor.
Proof.
  apply (same_directory_name_last_wins [Fixtures.prod_vpc] [] Fixtures.dev_vpc
           Fixtures.dev_vpc_descriptor).
  - vm_compute. reflexivity.
  - intros g mg [].
Defined.

(** ** What the three patterns capture *)

Lemma In_triples_inv (l : list (list string)) (a b c : string) :
  In (a, b, c) (Re.triples l) -> In [a; b; c] l.
Proof.
  unfold Re.triples. rewrite in_flat_map. intros (caps & Hin & H).
  destruct caps as [|x [|y [|z [|w caps]]]]; simpl in H; try contradiction.
  destruct H as [[= <- <- <-]|[]]. exact Hin.
Qed.

(** X28. Every name the three patterns capture is a non-empty word over
    [[a-zA-Z0-9_-]]: it holds no dot, no quote and no space. *)
Theorem captured_names_are_words (s : string) :
  (forall a b, In (a, b) (module_refs s) -> word a /\ word b) /\
  (forall a b c, In (a, b, c) (data_refs s) -> word a /\ word b /\ word c) /\
  (forall a b, In (a, b) (remote_state_refs s) -> word a /\ word b).
Proof.
  split; [|split].
  - intros a b. apply module_refs_words.
  - intros a b c H. apply In_triples_inv in H. apply scan_words in H.
    inversion H as [|? ? Ha H1]; subst. inversion H1 as [|? ? Hb H2]; subst.
    inversion H2 as [|? ? Hc _]; subst. auto.
  - intros a b H. apply In_pairs_inv in H. apply scan_words in H.
    inversion H as [|? ? Ha H1]; subst. inversion H1 as [|? ? Hb _]; subst. auto.
Qed.

(** ** References read by the Terraform files *)

Lemma existsb_eqb_true (o : string) (l : list string) :
  existsb (String.eqb o) l = true -> In o l.
Proof.
  intros H. apply existsb_exists in H as (x & Hx & E).
  apply String.eqb_eq in E. now subst.
Qed.

Lemma output_step_get (reg : Registry) (r : string * string) (X : string)
    (m : ModuleInfo) :
  Dict.get X reg = Some m ->
  exists m1, Dict.get X (output_step reg r) = Some m1 /\
    incl (outputs m) (outputs m1) /\
    complexity_score m1 = complexity_score m /\
    (fst r = X -> In (snd r) (outputs m1)).
Proof.
  intros Hget. destruct r as [Y o]. unfold output_step. cbn [fst snd].
  destruct (Dict.get Y reg) as [mY|] eqn:HY.
  - destruct (existsb (String.eqb o) (outputs mY)) eqn:Ho; cbn [negb].
    + exists m. split; [exact Hget|]. split; [apply incl_refl|].
      split; [reflexivity|]. intros ->.
      assert (mY = m) as -> by congruence. now apply existsb_eqb_true.
    + rewrite DictFacts.get_update.
      destruct (String.eqb_spec X Y) as [->|Hne].
      * rewrite Hget. cbn [option_map]. eexists. split; [reflexivity|].
        cbn [append_output outputs complexity_score].
        split; [intros x Hx; apply in_app_iff; now left|].
        split; [reflexivity|]. intros _. apply in_app_iff. right. now left.
      * exists m. split; [exact Hget|]. split; [apply incl_refl|].
        split; [reflexivity|]. congruence.
  - exists m. split; [exact Hget|]. split; [apply incl_refl|].
    split; [reflexivity|]. intros ->. congruence.
Qed.

Lemma output_fold_get (l : list (string * string)) :
  forall (reg : Registry) (X : string) (m : ModuleInfo),
    Dict.get X reg = Some m ->
    exists m', Dict.get X (fold_left output_step l reg) = Some m' /\
      incl (outputs m) (outputs m') /\
      complexity_score m' = complexity_score m /\
      forall o, In (X, o) l -> In o (outputs m').
Proof.
  induction l as [|r l IH]; intros reg X m Hget; cbn [fold_left].
  - exists m. split; [exact Hget|]. split; [apply incl_refl|].
    split; [reflexivity|]. intros o [].
  - destruct (output_step_get reg r X m Hget) as (m1 & H1 & Hincl1 & Hs1 & Hr).
    destruct (IH _ X m1 H1) as (m' & H' & Hincl & Hs & Hall).
    exists m'. split; [exact H'|].
    split; [intros x Hx; now apply Hincl, Hincl1|].
    split; [congruence|].
    intros o [->|Hin]; [apply Hincl, Hr; reflexivity | now apply Hall].
Qed.

(** X29. An output whose value reads [module.X.o] adds [o] to the outputs of
    [X] when [X] is registered; the score of [X] stays what it was, and
    no name is added to the registry. *)
Theorem output_reference_recorded (output_value : value) (fp X o : string)
    (reg : Registry) (m : ModuleInfo) :
  In (X, o) (module_refs (Py.str output_value)) -> Dict.get X reg = Some m ->
  Dict.keys (_analyze_output_dependencies output_value fp reg) = Dict.keys reg /\
  exists m', Dict.get X (_analyze_output_dependencies output_value fp reg) = Some m' /\
    In o (outputs m') /\ complexity_score m' = complexity_score m.
Proof.
  intros Hin Hget. unfold _analyze_output_dependencies. split.
  - apply (fold_left_invariant (fun r : Registry => Dict.keys r = Dict.keys reg));
      [reflexivity|].
    intros r [Y o'] _ Hr. unfold output_step.
    destruct (Dict.get Y r); [|exact Hr].
    destruct (negb _); [|exact Hr]. now rewrite DictFacts.keys_update.
  - destruct (output_fold_get (module_refs (Py.str output_value)) reg X m Hget)
      as (m' & H' & _ & Hs & Hall).
    exists m'. split; [exact H'|]. split; [now apply Hall | exact Hs].
Qed.

Lemma output_reference_recorded_witness :
  Dict.keys (_analyze_output_dependencies (VStr "${module.a.id}") "infra/outputs.tf"
               (build_registry Examples.chain_files []))
  = Dict.keys (build_registry Examples.chain_files []) /\
  exists m',
    Dict.get "a" (_analyze_output_dependencies (VStr "${module.a.id}")
                    "infra/outputs.tf" (build_registry Examples.chain_files []))
    = Some m' /\
    In "id" (outputs m') /\
    complexity_score m'
    = complexity_score (terragrunt_descriptor Fixtures.a_path (Examples.with_deps []) 0).
Proof.
  apply (output_reference_recorded (VStr "${module.a.id}") "infra/outputs.tf" "a" "id").
  - vm_compute. left. reflexivity.
  - vm_compute. reflexivity.
Defined.

Lemma registered_detail_step_get (src ty fp : string) (reg : Registry)
    (r : string * string) (X : string) (m : ModuleInfo) :
  Dict.get X reg = Some m ->
  exists m1, Dict.get X (registered_detail_step src ty fp reg r) = Some m1 /\
    extends m m1 /\
    (fst r = X -> In (module_record ty fp src r) (dependency_details m1)).
Proof.
  intros Hget. unfold registered_detail_step.
  destruct (Dict.mem (fst r) reg) eqn:Hmem.
  - rewrite DictFacts.get_update.
    destruct (String.eqb_spec X (fst r)) as [E|Hne].
    + rewrite Hget. cbn [option_map]. eexists. split; [reflexivity|]. split.
      * apply extends_append; [left; eauto | apply extends_refl].
      * intros _. cbn [append_detail dependency_details].
        apply in_app_iff. right. now left.
    + exists m. split; [exact Hget|]. split; [apply extends_refl | congruence].
  - exists m. split; [exact Hget|]. split; [apply extends_refl|].
    intros E. unfold Dict.mem in Hmem. rewrite E, Hget in Hmem. discriminate.
Qed.

Lemma extends_trans (m1 m2 m3 : ModuleInfo) :
  extends m1 m2 -> extends m2 m3 -> extends m1 m3.
Proof.
  intros (A1 & A2 & A3 & A4) (B1 & B2 & B3 & B4).
  repeat split; try congruence. intros x Hx. now apply B4, A4.
Qed.

Lemma registered_detail_fold_get (src ty fp : string) (l : list (string * string)) :
  forall (reg : Registry) (X : string) (m : ModuleInfo),
    Dict.get X reg = Some m ->
    exists m', Dict.get X (fold_left (registered_detail_step src ty fp) l reg)
               = Some m' /\
      extends m m' /\
      forall o, In (X, o) l ->
        In (module_record ty fp src (X, o)) (dependency_details m').
Proof.
  induction l as [|r l IH]; intros reg X m Hget; cbn [fold_left].
  - exists m. split; [exact Hget|]. split; [apply extends_refl | intros o []].
  - destruct (registered_detail_step_get src ty fp reg r X m Hget)
      as (m1 & H1 & He1 & Hr).
    destruct (IH _ X m1 H1) as (m' & H' & He & Hall).
    exists m'. split; [exact H'|]. split; [now apply extends_trans with m1|].
    intros o [->|Hin]; [|now apply Hall].
    destruct He as (_ & _ & _ & Hincl). apply Hincl, Hr. reflexivity.
Qed.

(** X30. A data source or a resource whose configuration reads [module.X.o]
    leaves a record on [X] when [X] is registered, and nothing else
    changes for [X]: its two dependency lists are the same, so the
    reference adds no edge to the graph. *)
Theorem data_and_resource_references_recorded (config : value)
    (block fp X o : string) (reg : Registry) (m : ModuleInfo) :
  In (X, o) (module_refs (Py.str config)) -> Dict.get X reg = Some m ->
  (exists m',
     Dict.get X (_analyze_data_source_dependencies block config fp reg) = Some m' /\
     In (module_record "data_source_module" fp ("data." +:+ block) (X, o))
        (dependency_details m') /\
     dependencies m' = dependencies m /\
     terragrunt_dependencies m' = terragrunt_dependencies m) /\
  (exists m',
     Dict.get X (_analyze_resource_dependencies block config fp reg) = Some m' /\
     In (module_record "resource_module" fp ("resource." +:+ block) (X, o))
        (dependency_details m') /\
     dependencies m' = dependencies m /\
     terragrunt_dependencies m' = terragrunt_dependencies m).
Proof.
  intros Hin Hget.
  unfold _analyze_data_source_dependencies, _analyze_resource_dependencies.
  split.
  - destruct (registered_detail_fold_get ("data." +:+ block) "data_source_module" fp
                (module_refs (Py.str config)) reg X m Hget)
      as (m' & H' & (_ & Hd & Ht & _) & Hall).
    exists m'. split; [exact H'|]. split; [now apply Hall | now split].
  - destruct (registered_detail_fold_get ("resource." +:+ block) "resource_module" fp
                (module_refs (Py.str config)) reg X m Hget)
      as (m' & H' & (_ & Hd & Ht & _) & Hall).
    exists m'. split; [exact H'|]. split; [now apply Hall | now split].
Qed.

Lemma data_and_resource_references_recorded_witness :
  (exists m',
     Dict.get "a" (_analyze_data_source_dependencies "aws_ami"
                     (VDict [("owners", VStr "${module.a.x}")]) "infra/main.tf"
                     (build_registry Examples.chain_files [])) = Some m' /\
     In (module_record "data_source_module" "infra/main.tf" ("data." +:+ "aws_ami")
                       ("a", "x"))
        (dependency_details m') /\
     dependencies m'
     = dependencies (terragrunt_descriptor Fixtures.a_path (Examples.with_deps []) 0) /\
     terragrunt_dependencies m'
     = terragrunt_dependencies
         (terragrunt_descriptor Fixtures.a_path (Examples.with_deps []) 0)) /\
  (exists m',
     Dict.get "a" (_analyze_resource_dependencies "aws_ami"
                     (VDict [("owners", VStr "${module.a.x}")]) "infra/main.tf"
                     (build_registry Examples.chain_files [])) = Some m' /\
     In (module_record "resource_module" "infra/main.tf" ("resource." +:+ "aws_ami")
                       ("a", "x"))
        (dependency_details m') /\
     dependencies m'
     = dependencies (terragrunt_descriptor Fixtures.a_path (Examples.with_deps []) 0) /\
     terragrunt_dependencies m'
     = terragrunt_dependencies
         (terragrunt_descriptor Fixtures.a_path (Examples.with_deps []) 0)).
Proof.
  apply (data_and_resource_references_recorded
           (VDict [("owners", VStr "${module.a.x}")]) "aws_ami" "infra/main.tf"
           "a" "x").
  - vm_compute. left. reflexivity.
  - vm_compute. reflexivity.
Defined.
